(** * ts3.chart: the TeamSpeak 3 query collector, embedded and checked

    A shallow embedding of [src/ts3.chart.py] (class [Service]): the
    framing of query responses ([_receive], [_check_raw_data]), the session
    methods ([_connect], [_disconnect], [_send]), the metrics extractor
    ([_get_data]) and the start-up validation ([check]).

    Conventions.
    - The built-ins are those of Python 3 (CPython 3.11): text and bytes
      are different types, and an [except] clause catches the subclasses of
      the class it names.
    - Python text is held as a [string] of bytes in its UTF-8 encoding;
      [decode_utf8] is then a validity check that hands the bytes back.
      Every pattern the collector looks for is ASCII, so suffix tests and
      splitting on the encoding agree with the same operation on code
      points. The built-ins that tell characters apart ([int], [float] and
      the class [\d] of [re]) take the character at the front of the
      encoding ([char_at]).
    - Methods that touch the object or the socket are computations in the
      monad [M]: they take the [Service] object and give back either a value
      or a raised exception, together with the updated object.
    - The interpreter bounds the depth of nested calls; the remaining depth
      is the [depth] argument of the three mutually recursive methods, and a
      call with no frame left raises [RecursionError]. *)

From Stdlib Require Import ZArith Lia Bool Ascii String List.
From Stdlib Require Import Floats.SpecFloat.
From stdpp Require Import base option list strings pretty gmap.

Local Open Scope string_scope.
Local Open Scope Z_scope.

(** ** Text *)

Definition LF : ascii := "010"%char.
Definition CR : ascii := "013"%char.

(** The line end of the query protocol as the source spells it: line feed,
    then carriage return. *)
Definition eol : string := String LF (String CR "").

(** [s.endswith(suf)] *)
Fixpoint endswith (s suf : string) : bool :=
  String.eqb s suf ||
  match s with
  | "" => false
  | String _ s' => endswith s' suf
  end.

(** [s.startswith(pre)] *)
Fixpoint startswith (s pre : string) : bool :=
  match pre, s with
  | "", _ => true
  | String a pre', String b s' => Ascii.eqb a b && startswith s' pre'
  | String _ _, "" => false
  end.

(** [sub in s] *)
Fixpoint contains (s sub : string) : bool :=
  startswith s sub ||
  match s with
  | "" => false
  | String _ s' => contains s' sub
  end.

Fixpoint take_str (n : nat) (s : string) : string :=
  match n, s with
  | S n', String c s' => String c (take_str n' s')
  | _, _ => ""
  end.

Fixpoint drop_str (n : nat) (s : string) : string :=
  match n, s with
  | S n', String _ s' => drop_str n' s'
  | _, _ => s
  end.

(** ** Framing: the two terminators *)

Definition term_ok : string := "msg=ok" +:+ eol.
Definition term_invalid_channel : string := "msg=invalid\schannelID" +:+ eol.

Definition _check_raw_data (data : string) : bool :=
  if endswith data term_ok || endswith data term_invalid_channel
  then true
  else false.

(** ** UTF-8

    Strict UTF-8 decoding of [bytes], as an automaton over the bytes:
    the state says what the next byte has to be. *)

Inductive utf8_state : Type :=
| U0     (* at a character boundary *)
| U1     (* one continuation byte to come *)
| U2     (* two continuation bytes to come *)
| U3     (* three continuation bytes to come *)
| UE0    (* after E0: next byte in A0..BF, then one more *)
| UED    (* after ED: next byte in 80..9F, then one more *)
| UF0    (* after F0: next byte in 90..BF, then two more *)
| UF4.   (* after F4: next byte in 80..8F, then two more *)

Definition byte_in (lo hi : N) (c : ascii) : bool :=
  ((lo <=? N_of_ascii c) && (N_of_ascii c <=? hi))%N.

Definition utf8_step (st : utf8_state) (c : ascii) : option utf8_state :=
  match st with
  | U0 =>
      if byte_in 0 127 c then Some U0
      else if byte_in 194 223 c then Some U1
      else if byte_in 224 224 c then Some UE0
      else if byte_in 225 236 c then Some U2
      else if byte_in 237 237 c then Some UED
      else if byte_in 238 239 c then Some U2
      else if byte_in 240 240 c then Some UF0
      else if byte_in 241 243 c then Some U3
      else if byte_in 244 244 c then Some UF4
      else None
  | U1 => if byte_in 128 191 c then Some U0 else None
  | U2 => if byte_in 128 191 c then Some U1 else None
  | U3 => if byte_in 128 191 c then Some U2 else None
  | UE0 => if byte_in 160 191 c then Some U1 else None
  | UED => if byte_in 128 159 c then Some U1 else None
  | UF0 => if byte_in 144 191 c then Some U2 else None
  | UF4 => if byte_in 128 143 c then Some U2 else None
  end.

Fixpoint utf8_run (st : utf8_state) (b : string) : option utf8_state :=
  match b with
  | "" => Some st
  | String c b' =>
      match utf8_step st c with
      | Some st' => utf8_run st' b'
      | None => None
      end
  end.

Definition utf8_ok (b : string) : bool :=
  match utf8_run U0 b with
  | Some U0 => true
  | _ => false
  end.

(** ** Characters

    [int], [float] and the class [\d] of [re] look at the characters of a
    text, not at the bytes of its encoding: they take decimal digits of any
    script, and [int] and [float] white space from beyond ASCII. *)

(** The bits a byte adds to the code point, given where the automaton is. *)
Definition utf8_payload (st : utf8_state) (c : ascii) : N :=
  let b := N_of_ascii c in
  match st with
  | U0 =>
      if (b <? 128)%N then b
      else if (b <? 224)%N then (b - 192)%N
      else if (b <? 240)%N then (b - 224)%N
      else (b - 240)%N
  | _ => (b - 128)%N
  end.

(** The character at the front of a text: its code point and the number
    of bytes that encode it; [None] when the text is empty or does not start
    with a well-formed character. *)
Fixpoint char_go (st : utf8_state) (acc : N) (len : nat) (s : string)
  : option (N * nat) :=
  match s with
  | "" => None
  | String c s' =>
      let acc' := (acc * 64 + utf8_payload st c)%N in
      match utf8_step st c with
      | Some U0 => Some (acc', S len)
      | Some st' => char_go st' acc' (S len) s'
      | None => None
      end
  end.

Definition char_at (s : string) : option (N * nat) := char_go U0 0 0 s.

(** The decimal digits (general category Nd, Unicode 14.0, the data of
    CPython 3.11) come in sets of ten consecutive code points, zero first;
    these are the zeros. *)
Definition decimal_zeros : list N :=
  [48; 1632; 1776; 1984; 2406; 2534; 2662; 2790; 2918; 3046; 3174; 3302;
   3430; 3558; 3664; 3792; 3872; 4160; 4240; 6112; 6160; 6470; 6608; 6784;
   6800; 6992; 7088; 7232; 7248; 42528; 43216; 43264; 43472; 43504; 43600;
   44016; 65296; 66720; 68912; 69734; 69872; 69942; 70096; 70384; 70736;
   70864; 71248; 71360; 71472; 71904; 72016; 72784; 73040; 73120; 92768;
   92864; 93008; 120782; 120792; 120802; 120812; 120822; 123200; 123632;
   125264; 130032]%N.

(** The value of a decimal digit; [None] for any other character. *)
Definition decimal_value (cp : N) : option N :=
  match List.find (fun z => (z <=? cp)%N && (cp <? z + 10)%N) decimal_zeros with
  | Some z => Some (cp - z)%N
  | None => None
  end.

(** White space beyond ASCII: no-break space, next line, and the spaces and
    separators of the general punctuation. *)
Definition unicode_space (cp : N) : bool :=
  ((cp =? 133) || (cp =? 160) || (cp =? 5760) ||
   ((8192 <=? cp) && (cp <=? 8202)) ||
   (cp =? 8232) || (cp =? 8233) || (cp =? 8239) || (cp =? 8287) ||
   (cp =? 12288))%N.

(** ** Exceptions, outcomes and the method monad *)

Inductive exn : Type :=
| RecursionError | AttributeError | TypeError | OSError
| UnicodeDecodeError | IndexError | KeyError | ValueError.

(** What [except ValueError] and [except AttributeError] catch: the class
    and its subclasses. [UnicodeDecodeError] is a [ValueError]. *)
Definition is_ValueError (e : exn) : bool :=
  match e with
  | ValueError | UnicodeDecodeError => true
  | _ => false
  end.

Definition is_AttributeError (e : exn) : bool :=
  match e with
  | AttributeError => true
  | _ => false
  end.

(** What a call comes to: a value, a raised exception, or [Hang] for a
    [while True] loop that would outlive the bound given to its model
    ([receive_never_hangs] shows the bound is never reached). *)
Inductive outcome (A : Type) : Type :=
| Ret (a : A)
| Raise (e : exn)
| Hang.
Arguments Ret {A} a.
Arguments Raise {A} e.
Arguments Hang {A}.

(** Values that come from the YAML configuration. *)
Inductive cfgval : Type :=
| CNone
| CInt (z : Z)
| CStr (s : string).

(** What one wait-and-read round on the socket meets. *)
Inductive rx : Type :=
| Data (b : string)   (* readable; [recv] hands these bytes over; empty: peer closed *)
| Silent               (* [select] runs into its 5 second limit *)
| SelectFails          (* [select] raises *)
| RecvFails.           (* readable, but [recv] raises *)

(** The steady state of the peer once the scripted rounds are used up. *)
Inductive rx_end : Type :=
| Quiet          (* never readable again *)
| Hangup         (* closed: every read gives zero bytes *)
| SelectBroken   (* every [select] raises *)
| RecvBroken.    (* every [recv] raises *)

(** The transport, owned by the host: what it will do on the coming
    writes ([true]: accepted) and on the coming wait-and-read rounds. *)
Record socket : Type := Socket {
  tx_script : list bool;
  tx_rest : bool;
  rx_script : list rx;
  rx_rest : rx_end
}.

(** What goes over the transport, oldest first. *)
Inductive event : Type :=
| Dial (ok : bool)     (* the base class opened, or failed to open, a socket *)
| Tx (b : string)      (* a write the socket accepted *)
| Rx (b : string)      (* bytes handed over by a read *)
| Close.               (* the base class closed the socket *)

Inductive logmsg : Type :=
| Msg (m : string)
| Exc (e : exn).

(** The [Service] object: the attributes the methods read and write, the
    record of what went over the transport ([wire]) and of the calls of
    [self.error] ([errors]). [self.request] is text as [__init__] leaves it;
    the host framework may store it encoded, as bytes:
    [request_is_bytes] says which of the two it is. *)
Record Service : Type := mkService {
  configuration : gmap string cfgval;
  host : string;
  user : cfgval;
  passwd : cfgval;
  sid : cfgval;
  nickname : cfgval;
  channel_id : cfgval;
  request : string;
  request_is_bytes : bool;
  _sock : option socket;
  wire : list event;
  errors : list logmsg
}.

Definition set_sock (k : option socket) (s : Service) : Service :=
  mkService (configuration s) (host s) (user s) (passwd s) (sid s)
            (nickname s) (channel_id s) (request s) (request_is_bytes s) k (wire s) (errors s).

Definition set_wire (w : list event) (s : Service) : Service :=
  mkService (configuration s) (host s) (user s) (passwd s) (sid s)
            (nickname s) (channel_id s) (request s) (request_is_bytes s) (_sock s) w (errors s).

Definition set_errors (l : list logmsg) (s : Service) : Service :=
  mkService (configuration s) (host s) (user s) (passwd s) (sid s)
            (nickname s) (channel_id s) (request s) (request_is_bytes s) (_sock s) (wire s) l.

Definition M (A : Type) : Type := Service -> outcome A * Service.

Definition ret {A} (a : A) : M A := fun s => (Ret a, s).
Definition raise {A} (e : exn) : M A := fun s => (Raise e, s).

Definition bind {A B} (m : M A) (k : A -> M B) : M B :=
  fun s =>
    match m s with
    | (Ret a, s') => k a s'
    | (Raise e, s') => (Raise e, s')
    | (Hang, s') => (Hang, s')
    end.

Notation "'let*' x ':=' m 'in' k" := (bind m (fun x => k))
  (at level 10, x pattern, m at level 100, k at level 200).

(** [try: m  except Exception as e: h e] *)
Definition try_except {A} (m : M A) (h : exn -> M A) : M A :=
  fun s =>
    match m s with
    | (Raise e, s') => h e s'
    | r => r
    end.

Definition self : M Service := fun s => (Ret s, s).

Definition lift {A} (o : outcome A) : M A := fun s => (o, s).

(** [self.error(...)] *)
Definition error (m : logmsg) : M unit :=
  fun s => (Ret tt, set_errors (errors s ++ [m]) s).

(** [buf.decode] for UTF-8 *)
Definition decode_utf8 (b : string) : outcome string :=
  if utf8_ok b then Ret b else Raise UnicodeDecodeError.

(** ** The socket as the methods see it *)

Definition set_tx (t : list bool) (k : socket) : socket :=
  Socket t (tx_rest k) (rx_script k) (rx_rest k).

Definition set_rx (r : list rx) (k : socket) : socket :=
  Socket (tx_script k) (tx_rest k) r (rx_rest k).

Definition next_tx (k : socket) : bool :=
  match tx_script k with
  | ok :: _ => ok
  | [] => tx_rest k
  end.

Definition next_rx (k : socket) : rx :=
  match rx_script k with
  | e :: _ => e
  | [] =>
      match rx_rest k with
      | Quiet => Silent
      | Hangup => Data ""
      | SelectBroken => SelectFails
      | RecvBroken => RecvFails
      end
  end.

Definition pop_tx (k : socket) : socket := set_tx (tail (tx_script k)) k.
Definition pop_rx (k : socket) : socket := set_rx (tail (rx_script k)) k.

(** [self._sock.send(b)]; on [None] the attribute lookup raises. Whether
    the socket takes a write is for its script to say; a socket that takes
    bytes only refuses the text commands of [_connect] and takes the encoded
    quit of [_disconnect]. *)
Definition sock_send (b : string) : M unit :=
  fun s =>
    match _sock s with
    | None => (Raise AttributeError, s)
    | Some k =>
        if next_tx k
        then (Ret tt, set_wire (wire s ++ [Tx b]) (set_sock (Some (pop_tx k)) s))
        else (Raise OSError, set_sock (Some (pop_tx k)) s)
    end.

(** [select.select([self._sock], [], [], 5)], reduced to what the caller
    looks at: whether [ready_to_read] is non-empty. [select] on [None]
    raises. *)
Definition select_readable : M bool :=
  fun s =>
    match _sock s with
    | None => (Raise TypeError, s)
    | Some k =>
        match next_rx k with
        | Silent => (Ret false, set_sock (Some (pop_rx k)) s)
        | SelectFails => (Raise OSError, set_sock (Some (pop_rx k)) s)
        | Data _ | RecvFails => (Ret true, s)
        end
    end.

(** [self._sock.recv(n)]: at most [n] bytes of what is there; the rest
    stays for the next read. *)
Definition sock_recv (n : nat) : M string :=
  fun s =>
    match _sock s with
    | None => (Raise AttributeError, s)
    | Some k =>
        match next_rx k with
        | Data b =>
            let k' :=
              if (n <? String.length b)%nat
              then set_rx (Data (drop_str n b) :: tail (rx_script k)) k
              else pop_rx k in
            (Ret (take_str n b),
             set_wire (wire s ++ [Rx (take_str n b)]) (set_sock (Some k') s))
        | RecvFails => (Raise OSError, set_sock (Some (pop_rx k)) s)
        | Silent | SelectFails => (Raise OSError, s)
        end
    end.

(** The base class of the host framework is not part of this repository.
    Its [_connect] leaves a fresh socket, or [None] when dialling failed, in
    [self._sock]; which of the two is the argument [dial]. *)
Definition base_connect (dial : option socket) : M unit :=
  fun s =>
    (Ret tt,
     set_wire (wire s ++ [Dial (match dial with Some _ => true | None => false end)]) (set_sock dial s)).

(** The base class's [_disconnect]: close the socket if there is one (errors
    while closing are swallowed) and forget it. *)
Definition base_disconnect : M unit :=
  fun s =>
    match _sock s with
    | None => (Ret tt, s)
    | Some _ => (Ret tt, set_wire (wire s ++ [Close]) (set_sock None s))
    end.

(** The object as [__init__] leaves it, for the given configuration. *)
Definition init_service (cfg : gmap string cfgval) : Service :=
  mkService cfg "127.0.0.1" (CStr "") (CStr "") (CInt 1) (CStr "netdata")
            CNone ("serverinfo" +:+ String LF "") false None [] [].

(** ** Session methods: [_send], [_receive], [_disconnect]

    The three methods call each other, so each body is written over the
    methods it calls and the knot is tied by recursion on the call depth. *)

(** [request or self.request] *)
Definition request_or (req : option string) (dflt : string) : string :=
  match req with
  | Some r => if String.eqb r "" then dflt else r
  | None => dflt
  end.

(** [self.request != "".encode()]: the right-hand side is the empty bytes,
    and text is never equal to bytes, so the test fails only when
    [self.request] is bytes and empty. *)
Definition request_wanted (s : Service) : bool :=
  negb (request_is_bytes s && String.eqb (request s) "").

Definition _send_with (disconnect : M unit) (req : option string) : M bool :=
  let* me := self in
  if request_wanted me then
    try_except
      (let* _ := sock_send (request_or req (request me)) in
       ret true)
      (fun e =>
         let* _ := disconnect in
         let* _ := error (Exc e) in
         ret false)
  else ret true.

(** One pass of the [while True] loop of [_receive]; [None] stands for the
    [break] taken in the handler of the [select] call. *)
Fixpoint receive_loop (disconnect : M unit) (fuel : nat) (data : string)
  : M string :=
  match fuel with
  | O => lift Hang
  | S fuel' =>
      let* ready :=
        try_except
          (let* r := select_readable in ret (Some r))
          (fun e => let* _ := disconnect in ret None) in
      match ready with
      | None => ret data
      | Some true =>
          let* buf := sock_recv 4096 in
          if (String.length buf =? 0)%nat then ret data
          else
            let* text := lift (decode_utf8 buf) in
            let data' := data +:+ text in
            if _check_raw_data data' then ret data'
            else receive_loop disconnect fuel' data'
      | Some false =>
          let* _ := error (Msg "Socket timed out.") in
          let* _ := disconnect in
          ret data
      end
  end.

(** A bound on the passes of the loop: every pass that goes round again has
    taken bytes out of the scripted rounds. *)
Definition rx_weight (e : rx) : nat :=
  match e with
  | Data b => S (String.length b)
  | _ => 1%nat
  end.

Definition rx_budget (s : Service) : nat :=
  match _sock s with
  | None => 1%nat
  | Some k => S (list_sum (map rx_weight (rx_script k)))
  end.

Definition _receive_with (disconnect : M unit) : M string :=
  fun s => receive_loop disconnect (rx_budget s) "" s.

Definition quit_cmd : string := "quit" +:+ String LF "".

Definition _disconnect_with (send : option string -> M bool)
  (receive : M string) : M unit :=
  let* _ := send (Some quit_cmd) in
  let* _ := receive in
  base_disconnect.

Fixpoint _disconnect (depth : nat) (s : Service) : outcome unit * Service :=
  match depth with
  | O => raise RecursionError s
  | S d => _disconnect_with (_send d) (_receive d) s
  end
with _send (depth : nat) (req : option string) (s : Service)
  : outcome bool * Service :=
  match depth with
  | O => raise RecursionError s
  | S d => _send_with (_disconnect d) req s
  end
with _receive (depth : nat) (s : Service) : outcome string * Service :=
  match depth with
  | O => raise RecursionError s
  | S d => _receive_with (_disconnect d) s
  end.

(** ** [_connect] *)

(** [str(v)], as [format] renders a configuration value. *)
Definition py_str (v : cfgval) : string :=
  match v with
  | CNone => "None"
  | CInt z => pretty z
  | CStr s => s
  end.

(** Truth value of a configuration value in [if self.channel_id:]. *)
Definition truthy (v : cfgval) : bool :=
  match v with
  | CNone => false
  | CInt z => negb (z =? 0)
  | CStr s => negb (String.eqb s "")
  end.

Definition is_digit (c : ascii) : bool := byte_in 48 57 c.

(** The group [\d*] at the front of a text: the longest run of decimal
    digits, of any script since the pattern is text. [skip] counts the bytes
    of the current character still to be taken. *)
Fixpoint take_decimals (skip : nat) (s : string) : string :=
  match s with
  | "" => ""
  | String c s' =>
      match skip with
      | S k => String c (take_decimals k s')
      | O =>
          match char_at s with
          | Some (cp, len) =>
              match decimal_value cp with
              | Some _ => String c (take_decimals (len - 1) s')
              | None => ""
              end
          | None => ""
          end
      end
  end.

Definition client_id_key : string := "client_id=".

(** [findall] of the pattern [client_id=] followed by the group [\d*]: the
    digit runs (possibly empty) after each occurrence of the key, left to
    right, occurrences not overlapping; [skip] counts the bytes of the last
    match still to be passed over. *)
Fixpoint findall_client_id (skip : nat) (text : string) : list string :=
  match text with
  | "" => []
  | String _ text' =>
      match skip with
      | S k => findall_client_id k text'
      | O =>
          if startswith text client_id_key then
            let d := take_decimals 0 (drop_str 10 text) in
            d :: findall_client_id (9 + String.length d) text'
          else findall_client_id 0 text'
      end
  end.

(** [l[0]] *)
Definition index0 {A} (l : list A) : outcome A :=
  match l with
  | x :: _ => Ret x
  | [] => Raise IndexError
  end.

Definition nl : string := String LF "".

Definition login_cmd (s : Service) : string :=
  "login " +:+ py_str (user s) +:+ " " +:+ py_str (passwd s) +:+ nl.

Definition use_cmd (s : Service) : string :=
  "use sid=" +:+ py_str (sid s) +:+ nl.

Definition clientupdate_cmd (s : Service) (now : string) : string :=
  "clientupdate client_nickname=" +:+ py_str (nickname s) +:+ "_" +:+ now +:+ nl.

Definition whoami_cmd : string := "whoami" +:+ nl.

Definition clientmove_cmd (s : Service) (clid : string) : string :=
  "clientmove clid=" +:+ clid +:+ " cid=" +:+ py_str (channel_id s) +:+ nl.

(** [dial] is what the base class's [_connect] comes to, [now] the current
    time as [strftime] renders it for the nickname. *)
Definition _connect_with (send : option string -> M bool) (receive : M string)
  (disconnect : M unit) (dial : option socket) (now : string) : M unit :=
  let* _ := base_connect dial in
  try_except
    (let* me := self in
     let* _ := send (Some (login_cmd me)) in
     let* _ := receive in
     let* _ := send (Some (use_cmd me)) in
     let* _ := receive in
     let* _ := send (Some (clientupdate_cmd me now)) in
     let* _ := receive in
     if truthy (channel_id me) then
       let* _ := send (Some whoami_cmd) in
       let* answer := receive in
       let* clid := lift (index0 (findall_client_id 0 answer)) in
       let* _ := send (Some (clientmove_cmd me clid)) in
       let* _ := receive in
       ret tt
     else ret tt)
    (fun e =>
       let* _ := disconnect in
       error (Exc e)).

Definition _connect (depth : nat) (dial : option socket) (now : string)
  (s : Service) : outcome unit * Service :=
  match depth with
  | O => raise RecursionError s
  | S d => _connect_with (_send d) (_receive d) (_disconnect d) dial now s
  end.

(** ** Numbers from text: [int] and [float] *)

(** What [int] and [float] make of a text before they read it: characters
    below 127 stay, white space from beyond ASCII becomes a blank, a decimal
    digit of any script its ASCII digit, and the text is cut at the first
    character that is none of these, with a question mark in its place.
    [skip] counts the bytes of the current character still to be passed
    over. *)
Fixpoint ascii_number (skip : nat) (s : string) : string :=
  match s with
  | "" => ""
  | String c s' =>
      match skip with
      | S k => ascii_number k s'
      | O =>
          match char_at s with
          | Some (cp, len) =>
              if (cp <? 127)%N then String c (ascii_number 0 s')
              else if unicode_space cp
              then String " " (ascii_number (len - 1) s')
              else
                match decimal_value cp with
                | Some v =>
                    String (ascii_of_N (48 + v)) (ascii_number (len - 1) s')
                | None => "?"
                end
          | None => "?"
          end
      end
  end.

(** The white space [int] and [float] skip at both ends: tab to carriage
    return, and the blank. *)
Definition is_space (c : ascii) : bool :=
  byte_in 9 13 c || byte_in 32 32 c.

Fixpoint lstrip (s : string) : string :=
  match s with
  | String c s' => if is_space c then lstrip s' else s
  | "" => ""
  end.

Definition str_rev (s : string) : string :=
  string_of_list_ascii (rev (list_ascii_of_string s)).

Definition strip (s : string) : string :=
  str_rev (lstrip (str_rev (lstrip s))).

Definition digit_val (c : ascii) : Z := Z.of_N (N_of_ascii c) - 48.

(** A run of digits in which single underscores may separate digits. The
    scan stops at the first other character and gives the value, the number
    of digits and the rest; [None] for a misplaced underscore. *)
Fixpoint scan_digits (acc : Z) (n : nat) (after_digit : bool) (s : string)
  : option (Z * nat * string) :=
  match s with
  | String c s' =>
      if is_digit c then scan_digits (10 * acc + digit_val c) (S n) true s'
      else if Ascii.eqb c "_" then
        if after_digit then scan_digits acc n false s' else None
      else if after_digit || (n =? 0)%nat then Some (acc, n, s) else None
  | "" => if after_digit || (n =? 0)%nat then Some (acc, n, "") else None
  end.

Definition split_sign (s : string) : bool * string :=
  match s with
  | String "-" s' => (true, s')
  | String "+" s' => (false, s')
  | _ => (false, s)
  end.

(** The most digits [int] reads from text (the default of the interpreter
    since 3.11). *)
Definition int_max_str_digits : Z := 4300.

(** [int(s)] for text [s], base ten: surrounding white space, an optional
    sign, digits with single underscores between them, no more of them than
    [int_max_str_digits]. *)
Definition py_int (s : string) : outcome Z :=
  let '(neg, body) := split_sign (strip (ascii_number 0 s)) in
  match scan_digits 0 0 false body with
  | Some (v, S n, "") =>
      if int_max_str_digits <? Z.of_nat (S n) then Raise ValueError
      else Ret (if neg then - v else v)
  | _ => Raise ValueError
  end.

Definition prec : Z := 53.
Definition emax : Z := 1024.

(** The double nearest to [m * 10 ^ e10] (ties to even), for [m >= 0]. *)
Definition decimal_to_float (neg : bool) (m : Z) (e10 : Z) : spec_float :=
  match m with
  | Zpos p =>
      if 0 <=? e10
      then binary_normalize prec emax
             ((if neg then - m else m) * 10 ^ e10) 0 false
      else SFdiv prec emax (S754_finite neg p 0)
                 (S754_finite false (Z.to_pos (10 ^ (- e10))) 0)
  | _ => S754_zero neg
  end.

Definition lower (c : ascii) : ascii :=
  if byte_in 65 90 c then ascii_of_N (N_of_ascii c + 32) else c.

Fixpoint lower_str (s : string) : string :=
  match s with
  | String c s' => String (lower c) (lower_str s')
  | "" => ""
  end.

(** The exponent part: nothing, or [e] or [E], a sign and digits. *)
Definition scan_exponent (s : string) : option Z :=
  match s with
  | "" => Some 0
  | String c s' =>
      if Ascii.eqb (lower c) "e" then
        let '(neg, body) := split_sign s' in
        match scan_digits 0 0 false body with
        | Some (v, S _, "") => Some (if neg then - v else v)
        | _ => None
        end
      else None
  end.

(** [float(s)] for text [s]: surrounding white space, an optional sign, then
    [inf], [infinity] or [nan] in any case, or digits with an optional
    fraction and exponent; the value is rounded to the nearest double. *)
Definition py_float (s : string) : outcome spec_float :=
  let '(neg, body) := split_sign (strip (ascii_number 0 s)) in
  let word := lower_str body in
  if String.eqb word "inf" || String.eqb word "infinity"
  then Ret (S754_infinity neg)
  else if String.eqb word "nan" then Ret S754_nan
  else
    match scan_digits 0 0 false body with
    | Some (i, ni, rest) =>
        let frac :=
          match rest with
          | String "." rest' => scan_digits i 0 false rest'
          | _ => Some (i, O, rest)
          end in
        match frac with
        | Some (m, nf, rest') =>
            if ((ni + nf)%nat =? 0)%nat then Raise ValueError
            else
              match scan_exponent rest' with
              | Some e => Ret (decimal_to_float neg m (e - Z.of_nat nf))
              | None => Raise ValueError
              end
        | None => Raise ValueError
        end
    | None => Raise ValueError
    end.

(** An [int] as a [float]; exact for the two factors used below. *)
Definition float_of_Z (z : Z) : spec_float := binary_normalize prec emax z 0 false.

Definition fmul (x : spec_float) (z : Z) : spec_float :=
  SFmul prec emax x (float_of_Z z).

(** ** The metrics extractor: [_get_data] *)

(** [s.split(sep)] for a non-empty [sep]; [cur] is the piece being read and
    [skip] the characters of a separator still to be passed over. *)
Fixpoint py_split_go (sep : string) (skip : nat) (cur : string) (s : string)
  : list string :=
  match s with
  | "" => [cur]
  | String c s' =>
      match skip with
      | S k => py_split_go sep k cur s'
      | O =>
          if startswith s sep
          then cur :: py_split_go sep (String.length sep - 1) "" s'
          else py_split_go sep 0 (cur +:+ String c "") s'
      end
  end.

Definition py_split (sep : string) (s : string) : list string :=
  py_split_go sep 0 "" s.

(** [x.split("=", 1) if "=" in x else (x, "")], in one pass: the text before
    the first [=] and the text after it. *)
Fixpoint key_value (x : string) : string * string :=
  match x with
  | "" => ("", "")
  | String c x' =>
      if Ascii.eqb c "=" then ("", x')
      else let '(k, v) := key_value x' in (String c k, v)
  end.

(** [dict(pairs)]: later pairs overwrite earlier ones. *)
Definition dict_of (pairs : list (string * string)) : gmap string string :=
  foldl (fun d kv => <[kv.1 := kv.2]> d) ∅ pairs.

(** [raw.split(eol)[0].split(" ")], turned into the dictionary [d]. *)
Definition status_fields (raw : string) : gmap string string :=
  dict_of (map key_value (py_split " " (hd "" (py_split eol raw)))).

Inductive mval : Type :=
| MInt (z : Z)
| MFloat (f : spec_float).

(** [int(d[k])] and [float(d[k])] *)
Definition field_int (d : gmap string string) (k : string) : outcome Z :=
  match d !! k with
  | Some v => py_int v
  | None => Raise KeyError
  end.

Definition field_float (d : gmap string string) (k : string)
  : outcome spec_float :=
  match d !! k with
  | Some v => py_float v
  | None => Raise KeyError
  end.

Section Extractor.

(** [_get_raw_data] belongs to the base class of the host framework: it
    makes sure the session is connected, sends the request and gives back
    what [_receive] returns, or [None]. *)
Variable _get_raw_data : M (option string).

Definition _get_data : M (option (gmap string mval)) :=
  fun s =>
    match _get_raw_data s with
    | (Raise e, s') =>
        if is_ValueError e || is_AttributeError e
        then (let* _ := error (Msg "No data received.") in ret None) s'
        else (Raise e, s')
    | (Hang, s') => (Hang, s')
    | (Ret raw, s') =>
        try_except
          (let* text :=
             lift (match raw with
                   | Some t => Ret t
                   | None => Raise AttributeError
                   end) in
           let d := status_fields text in
           let data : gmap string mval := ∅ in
           let* total := lift (field_int d "virtualserver_clientsonline") in
           let data := <["connected_total" := MInt total]> data in
           let* queries :=
             lift (field_int d "virtualserver_queryclientsonline") in
           let data := <["connected_queries" := MInt queries]> data in
           let data := <["connected_users" := MInt (total - queries)]> data in
           let* ping := lift (field_float d "virtualserver_total_ping") in
           let data := <["ping" := MFloat (fmul ping 1000)]> data in
           let* v :=
             lift (field_int d "connection_bandwidth_sent_last_second_total") in
           let data := <["bandwidth_total_sent" := MInt v]> data in
           let* v :=
             lift (field_int d
                     "connection_bandwidth_received_last_second_total") in
           let data := <["bandwidth_total_received" := MInt v]> data in
           let* v :=
             lift (field_int d "connection_filetransfer_bandwidth_sent") in
           let data := <["bandwidth_filetransfer_sent" := MInt v]> data in
           let* v :=
             lift (field_int d "connection_filetransfer_bandwidth_received") in
           let data := <["bandwidth_filetransfer_received" := MInt v]> data in
           let* f :=
             lift (field_float d "virtualserver_total_packetloss_speech") in
           let data := <["packetloss_speech" := MFloat (fmul f 100000)]> data in
           let* f :=
             lift (field_float d "virtualserver_total_packetloss_keepalive") in
           let data :=
             <["packetloss_keepalive" := MFloat (fmul f 100000)]> data in
           let* f :=
             lift (field_float d "virtualserver_total_packetloss_control") in
           let data := <["packetloss_control" := MFloat (fmul f 100000)]> data in
           let* f :=
             lift (field_float d "virtualserver_total_packetloss_total") in
           let data := <["packetloss_total" := MFloat (fmul f 100000)]> data in
           ret (Some data))
          (fun e => let* _ := error (Exc e) in ret None)
          s'
    end.

End Extractor.

(** The fields [_get_data] reads as integers and as floats. *)
Definition int_fields : list string :=
  [ "virtualserver_clientsonline"; "virtualserver_queryclientsonline";
    "connection_bandwidth_sent_last_second_total";
    "connection_bandwidth_received_last_second_total";
    "connection_filetransfer_bandwidth_sent";
    "connection_filetransfer_bandwidth_received" ].

Definition float_fields : list string :=
  [ "virtualserver_total_ping"; "virtualserver_total_packetloss_speech";
    "virtualserver_total_packetloss_keepalive";
    "virtualserver_total_packetloss_control";
    "virtualserver_total_packetloss_total" ].

(** ** Start-up validation: [check] *)

Definition set_user (v : cfgval) (s : Service) : Service :=
  mkService (configuration s) (host s) v (passwd s) (sid s)
            (nickname s) (channel_id s) (request s) (request_is_bytes s) (_sock s) (wire s) (errors s).

Definition set_passwd (v : cfgval) (s : Service) : Service :=
  mkService (configuration s) (host s) (user s) v (sid s)
            (nickname s) (channel_id s) (request s) (request_is_bytes s) (_sock s) (wire s) (errors s).

Definition set_sid (v : cfgval) (s : Service) : Service :=
  mkService (configuration s) (host s) (user s) (passwd s) v
            (nickname s) (channel_id s) (request s) (request_is_bytes s) (_sock s) (wire s) (errors s).

Definition set_nickname (v : cfgval) (s : Service) : Service :=
  mkService (configuration s) (host s) (user s) (passwd s) (sid s)
            v (channel_id s) (request s) (request_is_bytes s) (_sock s) (wire s) (errors s).

Definition set_channel_id (v : cfgval) (s : Service) : Service :=
  mkService (configuration s) (host s) (user s) (passwd s) (sid s)
            (nickname s) v (request s) (request_is_bytes s) (_sock s) (wire s) (errors s).

Definition assign (set : cfgval -> Service -> Service) (v : cfgval) : M unit :=
  fun s => (Ret tt, set v s).

(** [self.configuration[k]] *)
Definition config_item (k : string) : M cfgval :=
  fun s =>
    match configuration s !! k with
    | Some v => (Ret v, s)
    | None => (Raise KeyError, s)
    end.

(** [v == ''] *)
Definition is_empty_text (v : cfgval) : bool :=
  match v with
  | CStr "" => true
  | _ => false
  end.

Definition is_KeyError (e : exn) : bool :=
  match e with
  | KeyError => true
  | _ => false
  end.

(** [try: m  except KeyError: h] *)
Definition try_except_KeyError {A} (m : M A) (h : M A) : M A :=
  fun s =>
    match m s with
    | (Raise e, s') => if is_KeyError e then h s' else (Raise e, s')
    | r => r
    end.

(** [pid.isdigit()] *)
Fixpoint all_digits (s : string) : bool :=
  match s with
  | "" => true
  | String c s' => is_digit c && all_digits s'
  end.

Definition isdigit (s : string) : bool :=
  negb (String.eqb s "") && all_digits s.

(** The [for pid in pids] loop; the result is [ts3_running]. An entry of
    [/proc] comes with what reading its [cmdline] gives, [None] when that
    raises [IOError]. *)
Fixpoint scan_cmdlines (pids : list (string * option string)) : M bool :=
  match pids with
  | [] => ret false
  | (_, Some cmdline) :: rest =>
      if contains cmdline "ts3server" then ret true else scan_cmdlines rest
  | (_, None) :: rest =>
      let* _ := error (Exc OSError) in
      scan_cmdlines rest
  end.

Definition is_local (h : string) : bool :=
  String.eqb h "localhost" || String.eqb h "127.0.0.1".

(** The two shapes of [try] block in [check]: a setting that has to be
    there and not be the empty text, and a setting with a fallback. *)
Definition required_item (key : string) (set : cfgval -> Service -> Service)
  (complaint : string) : M bool :=
  try_except_KeyError
    (let* v := config_item key in
     let* _ := assign set v in
     if is_empty_text v then raise KeyError else ret true)
    (let* _ := error (Msg complaint) in
     ret false).

Definition optional_item (key : string) (set : cfgval -> Service -> Service)
  (otherwise : M unit) : M unit :=
  try_except_KeyError
    (let* v := config_item key in assign set v)
    otherwise.

Section Validation.

(** [_parse_config] belongs to the base class of the host framework. *)
Variable _parse_config : M unit.

(** [proc]: the entries of [/proc] at the time of the call. *)
Definition check (proc : list (string * option string)) : M bool :=
  let* _ := _parse_config in
  let* have_user :=
    required_item "user" set_user
      "Please specify a TeamSpeak Server query user inside the ts3.conf!" in
  if negb have_user then ret false else
  let* have_pass :=
    required_item "pass" set_passwd
      "Please specify a TeamSpeak Server query password inside the ts3.conf!" in
  if negb have_pass then ret false else
  let* _ := optional_item "sid" set_sid (assign set_sid (CInt 1)) in
  let* _ :=
    optional_item "nickname" set_nickname
      (assign set_nickname (CStr "netdata")) in
  let* _ := optional_item "channel_id" set_channel_id (ret tt) in
  let* me := self in
  if is_local (host me) then
    let pids := filter (fun e => isdigit e.1 = true) proc in
    let* ts3_running := scan_cmdlines pids in
    if negb ts3_running then
      let* _ :=
        error (Msg "No local TeamSpeak server running. Disabling plugin...") in
      ret false
    else ret true
  else ret true.

End Validation.

(** ** Vocabulary for the statements *)

(** The state a session is left in after some traffic: the events [evs]
    added to the wire and [k] as the socket. *)
Definition after (evs : list event) (k : option socket) (s : Service)
  : Service :=
  set_wire (wire s ++ evs) (set_sock k s).

(** A reply that one read hands over whole: it fits the read size, decodes,
    and ends in a terminator. *)
Definition whole_reply (r : string) : Prop :=
  (String.length r <= 4096)%nat /\ utf8_ok r = true /\ _check_raw_data r = true.

(** A chunk one read hands over: not empty, within the read size, and
    decodable on its own. *)
Definition readable_chunk (c : string) : Prop :=
  (0 < String.length c <= 4096)%nat /\ utf8_ok c = true.

Definition whole_replyb (r : string) : bool :=
  (String.length r <=? 4096)%nat && utf8_ok r && _check_raw_data r.

Definition readable_chunkb (c : string) : bool :=
  (0 <? String.length c)%nat && (String.length c <=? 4096)%nat && utf8_ok c.

Fixpoint concat_str (l : list string) : string :=
  match l with
  | [] => ""
  | c :: l' => c +:+ concat_str l'
  end.

(** The text one character per chunk. *)
Fixpoint bytewise (s : string) : list string :=
  match s with
  | "" => []
  | String c s' => String c "" :: bytewise s'
  end.

(** No chunk boundary before the last one leaves gathered text that ends in
    a terminator; [acc] is the text gathered before [chunks]. *)
Fixpoint stops_only_at_end (acc : string) (chunks : list string) : bool :=
  match chunks with
  | [] => true
  | c :: rest =>
      match rest with
      | [] => true
      | _ :: _ =>
          negb (_check_raw_data (acc +:+ c)) &&
          stops_only_at_end (acc +:+ c) rest
      end
  end.

(** A session on which no write can succeed: the object asks for a request
    to be sent, and there is no socket or the socket refuses every write. *)
Definition broken (s : Service) : Prop :=
  request s <> "" /\
  (_sock s = None \/
   exists k, _sock s = Some k /\ tx_script k = [] /\ tx_rest k = false).

(** The traffic of the first three steps of [_connect]: dialling, then
    login, server selection and nickname update, each followed by its
    reply. *)
Definition greeting (s : Service) (now r1 r2 r3 : string) : list event :=
  [Dial true; Tx (login_cmd s); Rx r1; Tx (use_cmd s); Rx r2;
   Tx (clientupdate_cmd s now); Rx r3].

(** The commands of the connect sequence in their order; [clid] is the
    client id that goes into clientmove. *)
Definition connect_cmds (s : Service) (now clid : string) : list string :=
  [login_cmd s; use_cmd s; clientupdate_cmd s now] ++
  (if truthy (channel_id s) then [whoami_cmd; clientmove_cmd s clid] else []).

(** The traffic of steps that go through: each command and its reply. *)
Fixpoint exchanges (cmds replies : list string) : list event :=
  match cmds, replies with
  | c :: cs, r :: rs => Tx c :: Rx r :: exchanges cs rs
  | _, _ => []
  end.

(** A round in which the read of [_receive] raises: [recv] itself raises,
    or it hands over bytes, within the read size, that do not decode. With
    it the exception and what the read has put on the wire. *)
Definition failing_read (f : rx) : option (exn * list event) :=
  match f with
  | RecvFails => Some (OSError, [])
  | Data b =>
      if (0 <? String.length b)%nat && (String.length b <=? 4096)%nat &&
         negb (utf8_ok b)
      then Some (UnicodeDecodeError, [Rx b])
      else None
  | Silent | SelectFails => None
  end.

(** A configured object: [check] has stored the credentials. *)
Definition configured (u p : string) (channel : cfgval) : Service :=
  set_channel_id channel
    (set_passwd (CStr p) (set_user (CStr u) (init_service ∅))).

(** The record [_get_data] builds, from the values already coerced and
    scaled, in the order of the assignments. *)
Definition metrics_record (total queries : Z) (ping : spec_float)
  (sent received ft_sent ft_received : Z)
  (speech keepalive control loss : spec_float) : gmap string mval :=
  <["packetloss_total" := MFloat loss]>
  (<["packetloss_control" := MFloat control]>
  (<["packetloss_keepalive" := MFloat keepalive]>
  (<["packetloss_speech" := MFloat speech]>
  (<["bandwidth_filetransfer_received" := MInt ft_received]>
  (<["bandwidth_filetransfer_sent" := MInt ft_sent]>
  (<["bandwidth_total_received" := MInt received]>
  (<["bandwidth_total_sent" := MInt sent]>
  (<["ping" := MFloat ping]>
  (<["connected_users" := MInt (total - queries)]>
  (<["connected_queries" := MInt queries]>
  (<["connected_total" := MInt total]> ∅))))))))))).

(** A status line is valid when every field [_get_data] reads is there and
    coerces to its number type. *)
Definition valid_status (d : gmap string string) : Prop :=
  Forall (fun k => exists z, field_int d k = Ret z) int_fields /\
  Forall (fun k => exists f, field_float d k = Ret f) float_fields.

(** A required field that is missing, or whose text is not a number of the
    type [_get_data] coerces it to. *)
Definition bad_field (d : gmap string string) (k : string) : Prop :=
  (k ∈ int_fields /\
   (d !! k = None \/ exists v, d !! k = Some v /\ py_int v = Raise ValueError)) \/
  (k ∈ float_fields /\
   (d !! k = None \/ exists v, d !! k = Some v /\ py_float v = Raise ValueError)).

(** The scenario of the specification. *)
Definition scenario_line : string :=
  "virtualserver_clientsonline=42 virtualserver_queryclientsonline=2 virtualserver_total_ping=0.05 connection_bandwidth_sent_last_second_total=1000 connection_bandwidth_received_last_second_total=2000 connection_filetransfer_bandwidth_sent=0 connection_filetransfer_bandwidth_received=0 virtualserver_total_packetloss_speech=0.001 virtualserver_total_packetloss_keepalive=0 virtualserver_total_packetloss_control=0 virtualserver_total_packetloss_total=0.001"
  +:+ eol +:+ "msg=ok" +:+ eol.

(** An entry of [/proc] that counts as a running server: a numeric name
    whose command line can be read and mentions [ts3server]. *)
Definition cmdline_hit (e : string * option string) : bool :=
  match e.2 with
  | Some cmdline => contains cmdline "ts3server"
  | None => false
  end.

Definition ts3_process (e : string * option string) : bool :=
  isdigit e.1 && cmdline_hit e.

(** Two states of the object that differ at most in the stored settings and
    in the recorded errors: same configuration, host, socket and traffic. *)
Definition same_session (s s' : Service) : Prop :=
  configuration s' = configuration s /\ host s' = host s /\
  _sock s' = _sock s /\ wire s' = wire s.

(** A setter of [check]: it stores a setting and nothing else. *)
Definition stores_setting (set : cfgval -> Service -> Service) : Prop :=
  forall v s, same_session s (set v s) /\ errors (set v s) = errors s.

(** A setting that passes [check]: present, and not the empty text. *)
Definition given (s : Service) (key : string) : bool :=
  match configuration s !! key with
  | Some v => negb (is_empty_text v)
  | None => false
  end.

(** A computation that comes to a value or an exception from every state:
    its loops stay within their bound. *)
Definition settles {A} (m : M A) : Prop :=
  forall s, fst (m s) <> Hang.

(** ** Vocabulary for the further properties *)

(** No chunk boundary leaves gathered text that ends in a terminator;
    [acc] is the text gathered before [chunks]. *)
Fixpoint never_complete (acc : string) (chunks : list string) : bool :=
  match chunks with
  | [] => true
  | c :: rest =>
      negb (_check_raw_data (acc +:+ c)) && never_complete (acc +:+ c) rest
  end.

(** The text [n] times over. *)
Fixpoint repeat_str (n : nat) (s : string) : string :=
  match n with
  | O => ""
  | S n' => s +:+ repeat_str n' s
  end.

(** [c in s], for one character. *)
Fixpoint has_char (c : ascii) (s : string) : bool :=
  match s with
  | "" => false
  | String x s' => Ascii.eqb c x || has_char c s'
  end.

(** A status line as the server writes it: [key=value] tokens with single
    spaces between them. *)
Definition render_field (kv : string * string) : string :=
  kv.1 +:+ "=" +:+ kv.2.

Fixpoint join_space (tokens : list string) : string :=
  match tokens with
  | [] => ""
  | [t] => t
  | t :: rest => t +:+ " " +:+ join_space rest
  end.

(** A field the line can carry: no space in it and no [=] in its name. *)
Definition plain_field (kv : string * string) : bool :=
  negb (has_char "=" kv.1) && negb (has_char " " kv.1) &&
  negb (has_char " " kv.2).

(** What the scan of the command lines logs: one error for every
    unreadable entry met before the first one that mentions the server. *)
Fixpoint scan_log (pids : list (string * option string)) : list logmsg :=
  match pids with
  | [] => []
  | (_, Some cmdline) :: rest =>
      if contains cmdline "ts3server" then [] else scan_log rest
  | (_, None) :: rest => Exc OSError :: scan_log rest
  end.

Definition user_complaint : string :=
  "Please specify a TeamSpeak Server query user inside the ts3.conf!".

Definition pass_complaint : string :=
  "Please specify a TeamSpeak Server query password inside the ts3.conf!".

Definition no_server_complaint : string :=
  "No local TeamSpeak server running. Disabling plugin...".

(** The last part of [check], from the test of the host on. *)
Definition local_test (proc : list (string * option string)) : M bool :=
  let* me := self in
  if is_local (host me) then
    let pids := filter (fun e => isdigit e.1 = true) proc in
    let* ts3_running := scan_cmdlines pids in
    if negb ts3_running then
      let* _ :=
        error (Msg "No local TeamSpeak server running. Disabling plugin...") in
      ret false
    else ret true
  else ret true.

(** The object once [check] has stored the credentials [u] and [p] and the
    three optional settings of the configuration of [s0]. *)
Definition stored_settings (s0 : Service) (u p : cfgval) : Service :=
  let t :=
    set_nickname (default (CStr "netdata") (configuration s0 !! "nickname"))
      (set_sid (default (CInt 1) (configuration s0 !! "sid"))
         (set_passwd p (set_user u s0))) in
  match configuration s0 !! "channel_id" with
  | Some c => set_channel_id c t
  | None => t
  end.

(** [ORDER] and [CHARTS], reduced to what the extractor has to match: the
    charts in order, each with the ids of its lines. *)
Definition ORDER : list string :=
  ["users"; "bandwidth_total"; "bandwidth_filetransfer"; "ping"; "packetloss"].

Definition CHARTS : list (string * list string) :=
  [ ("users", ["connected_total"; "connected_users"; "connected_queries"]);
    ("bandwidth_total", ["bandwidth_total_received"; "bandwidth_total_sent"]);
    ("bandwidth_filetransfer",
     ["bandwidth_filetransfer_received"; "bandwidth_filetransfer_sent"]);
    ("ping", ["ping"]);
    ("packetloss",
     ["packetloss_speech"; "packetloss_keepalive"; "packetloss_control";
      "packetloss_total"]) ].

(** The ids of all lines of all charts. *)
Definition chart_lines : list string := concat (map snd CHARTS).

(** * Properties *)

(** ** Properties of the text helpers *)

Lemma endswith_intro (p suf : string) : endswith (p +:+ suf) suf = true.
Proof.
  induction p as [|c p IH]; simpl.
  - destruct suf; simpl.
    + reflexivity.
    + rewrite Ascii.eqb_refl, String.eqb_refl. reflexivity.
  - rewrite IH. apply orb_true_r.
Qed.

Lemma endswith_elim (s suf : string) :
  endswith s suf = true -> exists p, s = p +:+ suf.
Proof.
  induction s as [|c s IH]; intros H.
  - cbn [endswith] in H. rewrite orb_false_r in H.
    apply String.eqb_eq in H. subst suf. exists "". reflexivity.
  - cbn [endswith] in H. apply orb_true_iff in H as [H|H].
    + apply String.eqb_eq in H. exists "". rewrite H. reflexivity.
    + destruct (IH H) as [p ->]. exists (String c p). reflexivity.
Qed.

Lemma endswith_spec (s suf : string) :
  endswith s suf = true <-> exists p, s = p +:+ suf.
Proof.
  split.
  - apply endswith_elim.
  - intros [p ->]. apply endswith_intro.
Qed.

Lemma check_raw_data_spec (data : string) :
  _check_raw_data data = true <->
  (exists p, data = p +:+ term_ok) \/
  (exists p, data = p +:+ term_invalid_channel).
Proof.
  unfold _check_raw_data. rewrite <- !endswith_spec.
  destruct (endswith data term_ok), (endswith data term_invalid_channel);
    simpl; intuition congruence.
Qed.




(** ** Text, continued *)

Lemma app_str_nil_r (a : string) : a +:+ "" = a.
Proof. induction a as [|c a IH]; [reflexivity | exact (f_equal (String c) IH)]. Qed.

Lemma app_str_assoc (a b c : string) : (a +:+ b) +:+ c = a +:+ (b +:+ c).
Proof. induction a as [|x a IH]; [reflexivity | exact (f_equal (String x) IH)]. Qed.

Lemma take_str_all (n : nat) (s : string) :
  (String.length s <= n)%nat -> take_str n s = s.
Proof.
  revert n. induction s as [|c s IH]; intros [|n] H; simpl in *;
    try reflexivity; try lia.
  rewrite IH by lia. reflexivity.
Qed.

Lemma length_drop_str (n : nat) (s : string) :
  String.length (drop_str n s) = (String.length s - n)%nat.
Proof.
  revert n. induction s as [|c s IH]; intros [|n]; simpl; try reflexivity.
  apply IH.
Qed.

Lemma length_take_str (n : nat) (s : string) :
  String.length (take_str n s) = Nat.min n (String.length s).
Proof.
  revert n. induction s as [|c s IH]; intros [|n]; simpl; try reflexivity.
  now rewrite IH.
Qed.

Lemma check_raw_data_nonempty (data : string) :
  _check_raw_data data = true -> data <> "".
Proof. intros H ->. discriminate H. Qed.

(** ** UTF-8: validity of a concatenation *)

Lemma utf8_run_app (a b : string) (st : utf8_state) :
  utf8_run st (a +:+ b) =
  match utf8_run st a with
  | Some st' => utf8_run st' b
  | None => None
  end.
Proof.
  revert st. induction a as [|c a IH]; intros st; simpl.
  - reflexivity.
  - destruct (utf8_step st c); [apply IH | reflexivity].
Qed.

Lemma utf8_ok_app (a b : string) :
  utf8_ok a = true -> utf8_ok b = true -> utf8_ok (a +:+ b) = true.
Proof.
  unfold utf8_ok. rewrite utf8_run_app.
  destruct (utf8_run U0 a) as [[]|]; intros Ha Hb; try discriminate Ha.
  exact Hb.
Qed.

(** ** Stepping through a computation *)

Lemma bind_ok {A B} (m : M A) (k : A -> M B) (s s' : Service) (a : A) :
  m s = (Ret a, s') -> bind m k s = k a s'.
Proof. intros H. unfold bind. now rewrite H. Qed.

Lemma bind_raise {A B} (m : M A) (k : A -> M B) (s s' : Service) (e : exn) :
  m s = (Raise e, s') -> bind m k s = (Raise e, s').
Proof. intros H. unfold bind. now rewrite H. Qed.

Lemma bind_raise_fst {A B} (m : M A) (k : A -> M B) (s : Service) (e : exn) :
  fst (m s) = Raise e -> fst (bind m k s) = Raise e.
Proof.
  intros H. unfold bind. destruct (m s) as [[a|e'|] s']; simpl in *;
    congruence.
Qed.

Lemma try_ok {A} (m : M A) (h : exn -> M A) (s s' : Service) (a : A) :
  m s = (Ret a, s') -> try_except m h s = (Ret a, s').
Proof. intros H. unfold try_except. now rewrite H. Qed.

Lemma try_raise {A} (m : M A) (h : exn -> M A) (s s' : Service) (e : exn) :
  m s = (Raise e, s') -> try_except m h s = h e s'.
Proof. intros H. unfold try_except. now rewrite H. Qed.

Lemma after_after (e1 e2 : list event) (k1 k2 : option socket) (s : Service) :
  after e2 k2 (after e1 k1 s) = after (e1 ++ e2) k2 s.
Proof. unfold after, set_wire, set_sock. simpl. now rewrite app_assoc. Qed.

Lemma sock_after evs k s : _sock (after evs k s) = k.
Proof. reflexivity. Qed.

Lemma request_after evs k s : request (after evs k s) = request s.
Proof. reflexivity. Qed.

Lemma whole_replyb_spec (r : string) : whole_replyb r = true -> whole_reply r.
Proof.
  unfold whole_replyb, whole_reply. rewrite !andb_true_iff, Nat.leb_le. tauto.
Qed.

Lemma readable_chunkb_spec (c : string) :
  readable_chunkb c = true -> readable_chunk c.
Proof.
  unfold readable_chunkb, readable_chunk.
  rewrite !andb_true_iff, Nat.leb_le, Nat.ltb_lt. tauto.
Qed.

Lemma readable_chunks_spec (chunks : list string) :
  forallb readable_chunkb chunks = true -> Forall readable_chunk chunks.
Proof.
  induction chunks as [|c cs IH]; simpl; [constructor|].
  rewrite andb_true_iff. intros [Hc Hcs].
  constructor; [now apply readable_chunkb_spec | now apply IH].
Qed.

(** ** One pass of the receive loop *)

Lemma select_data (s : Service) (k : socket) (b : string) :
  _sock s = Some k -> next_rx k = Data b ->
  select_readable s = (Ret true, s).
Proof. intros Hk Hb. unfold select_readable. now rewrite Hk, Hb. Qed.

Lemma recv_whole (s : Service) (k : socket) (b : string) (tl : list rx) :
  _sock s = Some k -> rx_script k = Data b :: tl ->
  (String.length b <= 4096)%nat ->
  sock_recv 4096 s = (Ret b, after [Rx b] (Some (set_rx tl k)) s).
Proof.
  intros Hk Hs Hlen. unfold sock_recv, next_rx. rewrite Hk, Hs.
  rewrite (take_str_all 4096 b Hlen).
  destruct (Nat.ltb_spec 4096 (String.length b)) as [Hlt|_]; [lia|].
  unfold pop_rx. rewrite Hs. reflexivity.
Qed.

Lemma receive_pass (disconnect : M unit) (fuel : nat) (data : string)
  (s : Service) (k : socket) (b : string) (tl : list rx) :
  _sock s = Some k -> rx_script k = Data b :: tl -> readable_chunk b ->
  receive_loop disconnect (S fuel) data s =
  if _check_raw_data (data +:+ b)
  then (Ret (data +:+ b), after [Rx b] (Some (set_rx tl k)) s)
  else receive_loop disconnect fuel (data +:+ b)
         (after [Rx b] (Some (set_rx tl k)) s).
Proof.
  intros Hk Hs [[Hpos Hlen] Hutf].
  cbn [receive_loop].
  assert (Hsel : select_readable s = (Ret true, s)).
  { apply (select_data s k b Hk). unfold next_rx. now rewrite Hs. }
  rewrite (bind_ok _ _ s s (Some true)).
  2:{ apply try_ok. rewrite (bind_ok _ _ s s true Hsel). reflexivity. }
  rewrite (bind_ok _ _ _ _ b (recv_whole s k b tl Hk Hs Hlen)).
  destruct (Nat.eqb_spec (String.length b) 0) as [H0|_]; [lia|].
  unfold lift at 1, decode_utf8. rewrite Hutf.
  unfold bind at 1.
  destruct (_check_raw_data (data +:+ b)); reflexivity.
Qed.

(** C2, amended: the receive loop stops with a complete response exactly
    when the accumulated text ends in [msg=ok] or in
    [msg=invalid\schannelID] followed by line feed then carriage return (the
    order the source spells). A pass that reads a chunk returns the
    accumulated text when it ends so, and goes round again when it does
    not. *)
Theorem C2_loop_stops_on_terminator (disconnect : M unit) (fuel : nat)
  (data : string) (s : Service) (k : socket) (b : string) (tl : list rx) :
  _sock s = Some k -> rx_script k = Data b :: tl -> readable_chunk b ->
  let data' := data +:+ b in
  let s' := after [Rx b] (Some (set_rx tl k)) s in
  (_check_raw_data data' = true <->
     (exists p, data' = p +:+ "msg=ok" +:+ String LF (String CR "")) \/
     (exists p, data' = p +:+ "msg=invalid\schannelID" +:+ String LF (String CR ""))) /\
  (_check_raw_data data' = true ->
     receive_loop disconnect (S fuel) data s = (Ret data', s')) /\
  (_check_raw_data data' = false ->
     receive_loop disconnect (S fuel) data s =
     receive_loop disconnect fuel data' s').
Proof.
  intros Hk Hs Hb data' s'. split; [|split].
  - apply check_raw_data_spec.
  - intros Hc. rewrite (receive_pass _ _ _ s k b tl Hk Hs Hb).
    fold data'. now rewrite Hc.
  - intros Hc. rewrite (receive_pass _ _ _ s k b tl Hk Hs Hb).
    fold data'. now rewrite Hc.
Qed.

Lemma C2_loop_stops_on_terminator_witness :
  let b := "error id=0 msg=ok" +:+ eol in
  let k := Socket [] true [Data b] Hangup in
  let s := set_sock (Some k) (init_service ∅) in
  (_sock s = Some k /\ rx_script k = [Data b] /\ readable_chunk b) /\
  receive_loop (ret tt) 1 "" s = (Ret b, after [Rx b] (Some (set_rx [] k)) s).
Proof.
  intros b k s.
  assert (Hb : readable_chunk b).
  { apply readable_chunkb_spec. vm_compute. reflexivity. }
  split; [repeat split; try reflexivity; apply Hb|].
  apply (C2_loop_stops_on_terminator (ret tt) 0 "" s k b [] eq_refl eq_refl Hb).
  reflexivity.
Defined.

(** C2 as stated fails: text ending in [msg=ok] followed by carriage return
    then line feed is not taken as complete, while text ending in [msg=ok]
    followed by line feed then carriage return, which ends in neither of the
    two terminators the claim names, is. *)
Lemma C2_counterexample :
  _check_raw_data ("msg=ok" +:+ String CR (String LF "")) = false /\
  _check_raw_data ("msg=ok" +:+ String LF (String CR "")) = true.
Proof. split; reflexivity. Qed.

(** ** Reassembly of a fragmented response *)

Lemma receive_loop_chunks (disconnect : M unit) (chunks : list string) :
  forall (fuel : nat) (data : string) (s : Service) (k : socket) (tl : list rx),
  chunks <> [] ->
  _sock s = Some k ->
  rx_script k = (map Data chunks ++ tl)%list ->
  Forall readable_chunk chunks ->
  _check_raw_data (data +:+ concat_str chunks) = true ->
  (forall pre post, chunks = (pre ++ post)%list -> pre <> [] -> post <> [] ->
     _check_raw_data (data +:+ concat_str pre) = false) ->
  (length chunks <= fuel)%nat ->
  receive_loop disconnect fuel data s =
  (Ret (data +:+ concat_str chunks),
   after (map Rx chunks) (Some (set_rx tl k)) s).
Proof.
  induction chunks as [|c cs IH]; intros fuel data s k tl Hne Hk Hs Hall Hend Hpre Hfuel.
  - congruence.
  - destruct fuel as [|fuel]; [simpl in Hfuel; lia|].
    apply Forall_cons in Hall as [Hc Hcs].
    rewrite (receive_pass disconnect fuel data s k c (map Data cs ++ tl)%list Hk Hs Hc).
    destruct cs as [|c2 cs].
    + simpl in Hend |- *. rewrite app_str_nil_r in Hend |- *.
      rewrite Hend. reflexivity.
    + assert (Hfalse : _check_raw_data (data +:+ c) = false).
      { rewrite <- (app_str_nil_r c).
        apply (Hpre [c] (c2 :: cs)); [reflexivity|discriminate|discriminate]. }
      rewrite Hfalse.
      rewrite (IH fuel (data +:+ c) _ (set_rx (map Data (c2 :: cs) ++ tl)%list k) tl).
      * rewrite after_after. cbn [concat_str map app].
        rewrite !app_str_assoc. reflexivity.
      * discriminate.
      * reflexivity.
      * reflexivity.
      * exact Hcs.
      * rewrite app_str_assoc. exact Hend.
      * intros pre post Heq Hp Hq. rewrite app_str_assoc.
        apply (Hpre (c :: pre) post); [simpl; now rewrite Heq|discriminate|exact Hq].
      * simpl in Hfuel |- *. lia.
Qed.

Lemma rx_budget_chunks (s : Service) (k : socket) (chunks : list string)
  (tl : list rx) :
  _sock s = Some k -> rx_script k = (map Data chunks ++ tl)%list ->
  (length chunks <= rx_budget s)%nat.
Proof.
  intros Hk Hs. unfold rx_budget. rewrite Hk, Hs. clear Hk Hs.
  induction chunks as [|c cs IH]; simpl in *; lia.
Qed.

Lemma concat_str_readable (chunks : list string) :
  Forall readable_chunk chunks -> utf8_ok (concat_str chunks) = true.
Proof.
  induction 1 as [|c cs [_ Hc] _ IH]; simpl; [reflexivity|].
  now apply utf8_ok_app.
Qed.

(** C1, amended: when every chunk is one read (not empty, at most 4096 bytes,
    decodable on its own) and the text gathered at no earlier chunk boundary
    already ends in a terminator, [_receive] returns the whole text, the
    chunks joined in order; and a single delivery of the same text, when it
    fits one read, returns that same text. *)
Theorem C1_fragmented_receive (d : nat) (s : Service) (k : socket)
  (chunks : list string) (tl : list rx) :
  _sock s = Some k ->
  rx_script k = (map Data chunks ++ tl)%list ->
  Forall readable_chunk chunks ->
  _check_raw_data (concat_str chunks) = true ->
  (forall pre post, chunks = (pre ++ post)%list -> pre <> [] -> post <> [] ->
     _check_raw_data (concat_str pre) = false) ->
  _receive (S d) s =
    (Ret (concat_str chunks), after (map Rx chunks) (Some (set_rx tl k)) s) /\
  ((String.length (concat_str chunks) <= 4096)%nat ->
   _receive (S d) (set_sock (Some (set_rx (Data (concat_str chunks) :: tl) k)) s) =
    (Ret (concat_str chunks),
     after [Rx (concat_str chunks)] (Some (set_rx tl k)) s)).
Proof.
  intros Hk Hs Hall Hend Hpre.
  assert (Hne : chunks <> []).
  { intros ->. discriminate Hend. }
  split.
  - cbn [_receive]. unfold _receive_with.
    apply (receive_loop_chunks _ chunks _ "" s k tl); auto.
    eapply rx_budget_chunks; eauto.
  - intros Hlen. cbn [_receive]. unfold _receive_with.
    set (text := concat_str chunks) in *.
    set (s1 := set_sock _ s).
    rewrite (receive_loop_chunks _ [text] _ "" s1
               (set_rx (Data text :: tl) k) tl).
    + simpl. rewrite app_str_nil_r. reflexivity.
    + discriminate.
    + reflexivity.
    + reflexivity.
    + constructor; [|constructor]. split.
      * split; [|exact Hlen].
        destruct text; [discriminate Hend | simpl; lia].
      * apply concat_str_readable, Hall.
    + simpl. now rewrite app_str_nil_r.
    + intros [|p [|q pre]] [|r post] Heq Hp Hq; try congruence;
        simpl in Heq; discriminate Heq.
    + unfold rx_budget, s1. simpl. lia.
Qed.

Lemma stops_only_at_end_spec (chunks : list string) :
  forall acc, stops_only_at_end acc chunks = true ->
  forall pre post, chunks = (pre ++ post)%list -> pre <> [] -> post <> [] ->
  _check_raw_data (acc +:+ concat_str pre) = false.
Proof.
  induction chunks as [|c rest IH]; intros acc H pre post Heq Hp Hq.
  - destruct pre; [congruence | discriminate Heq].
  - destruct pre as [|p pre]; [congruence|].
    injection Heq as -> Hrest.
    destruct rest as [|r rest].
    + destruct pre; destruct post; try congruence; discriminate Hrest.
    + cbn [stops_only_at_end] in H. apply andb_true_iff in H as [H1 H2].
      apply negb_true_iff in H1.
      destruct pre as [|p' pre].
      * simpl. now rewrite app_str_nil_r.
      * cbn [concat_str]. rewrite <- app_str_assoc.
        apply (IH (acc +:+ p) H2 (p' :: pre) post Hrest); [discriminate|exact Hq].
Qed.

Lemma C1_fragmented_receive_witness :
  let text := "error id=0 msg=ok" +:+ eol in
  let chunks := bytewise text in
  let k := Socket [] true (map Data chunks) Quiet in
  let s := set_sock (Some k) (init_service ∅) in
  concat_str chunks = text /\
  _receive 1 s = (Ret text, after (map Rx chunks) (Some (set_rx [] k)) s) /\
  _receive 1 (set_sock (Some (set_rx [Data text] k)) s) =
    (Ret text, after [Rx text] (Some (set_rx [] k)) s).
Proof.
  intros text chunks k s.
  split; [reflexivity|].
  assert (Hall : Forall readable_chunk chunks).
  { apply readable_chunks_spec. vm_compute. reflexivity. }
  assert (Hpre : forall pre post, chunks = (pre ++ post)%list ->
            pre <> [] -> post <> [] -> _check_raw_data (concat_str pre) = false).
  { apply (stops_only_at_end_spec chunks ""). reflexivity. }
  destruct (C1_fragmented_receive 0 s k chunks []) as [H1 H2].
  - reflexivity.
  - reflexivity.
  - exact Hall.
  - reflexivity.
  - exact Hpre.
  - split; [exact H1|]. apply H2. apply Nat.leb_le. vm_compute. reflexivity.
Defined.

(** C1 as stated fails: a text that ends in a terminator and also carries
    one earlier comes back whole from a single delivery, but cut at the
    first terminator when a chunk boundary falls there. *)
Lemma C1_counterexample :
  let reply := "error id=0 msg=ok" +:+ eol in
  let text := reply +:+ reply in
  let session script :=
    set_sock (Some (Socket [] true script Quiet)) (init_service ∅) in
  concat_str [reply; reply] = text /\
  _check_raw_data text = true /\
  fst (_receive 1 (session [Data text])) = Ret text /\
  fst (_receive 1 (session [Data reply; Data reply])) = Ret reply /\
  reply <> text.
Proof. repeat split; try reflexivity. discriminate. Qed.

(** A character of more than one byte that straddles two reads makes
    [_receive] raise: each read is decoded on its own. *)
Example receive_split_character :
  let text := String "195" (String "169" ("msg=ok" +:+ eol)) in
  let session script :=
    set_sock (Some (Socket [] true script Quiet)) (init_service ∅) in
  fst (_receive 1 (session [Data text])) = Ret text /\
  fst (_receive 1 (session (map Data (bytewise text)))) = Raise UnicodeDecodeError.
Proof. split; reflexivity. Qed.

(** ** Sending and receiving one whole reply *)

Lemma request_wanted_nonempty (s : Service) :
  request s <> "" -> request_wanted s = true.
Proof.
  intros Hreq. apply String.eqb_neq in Hreq. unfold request_wanted.
  rewrite Hreq. now rewrite andb_false_r.
Qed.

Lemma send_accepted (d : nat) (cmd : string) (s : Service) (k : socket) :
  _sock s = Some k -> next_tx k = true -> request s <> "" -> cmd <> "" ->
  _send (S d) (Some cmd) s = (Ret true, after [Tx cmd] (Some (pop_tx k)) s).
Proof.
  intros Hk Htx Hreq Hcmd.
  apply request_wanted_nonempty in Hreq. apply String.eqb_neq in Hcmd.
  cbn [_send]. unfold _send_with, bind at 1, self.
  rewrite Hreq.
  unfold try_except, bind, sock_send, request_or.
  rewrite Hcmd, Hk, Htx. reflexivity.
Qed.

Lemma whole_reply_chunk (r : string) : whole_reply r -> readable_chunk r.
Proof.
  intros (Hlen & Hutf & Hend). repeat split; auto.
  destruct r; [discriminate Hend | simpl; lia].
Qed.

Lemma receive_whole_reply (d : nat) (s : Service) (k : socket) (r : string)
  (tl : list rx) :
  _sock s = Some k -> rx_script k = Data r :: tl -> whole_reply r ->
  _receive (S d) s = (Ret r, after [Rx r] (Some (set_rx tl k)) s).
Proof.
  intros Hk Hs Hr. cbn [_receive]. unfold _receive_with.
  rewrite (receive_loop_chunks _ [r] _ "" s k tl).
  - simpl. now rewrite app_str_nil_r.
  - discriminate.
  - exact Hk.
  - exact Hs.
  - constructor; [now apply whole_reply_chunk | constructor].
  - simpl. rewrite app_str_nil_r. apply Hr.
  - intros [|p [|q pre]] [|x post] Heq Hp Hq; try congruence;
      simpl in Heq; discriminate Heq.
  - unfold rx_budget. rewrite Hk, Hs. simpl. lia.
Qed.

Lemma disconnect_answered (d : nat) (s : Service) (k : socket) (r : string)
  (tl : list rx) :
  _sock s = Some k -> rx_script k = Data r :: tl -> whole_reply r ->
  next_tx k = true -> request s <> "" ->
  _disconnect (S (S d)) s = (Ret tt, after [Tx quit_cmd; Rx r; Close] None s).
Proof.
  intros Hk Hs Hr Htx Hreq. cbn [_disconnect]. unfold _disconnect_with.
  rewrite (bind_ok _ _ _ _ _ (send_accepted d quit_cmd s k Hk Htx Hreq ltac:(discriminate))).
  rewrite (bind_ok _ _ _ _ _
             (receive_whole_reply d (after [Tx quit_cmd] (Some (pop_tx k)) s)
                (pop_tx k) r tl eq_refl Hs Hr)).
  rewrite after_after. unfold base_disconnect. rewrite sock_after.
  unfold after, set_wire, set_sock. cbn. rewrite <- app_assoc. reflexivity.
Qed.

(** ** A session that is already broken *)

Lemma disconnect_broken (depth : nat) :
  forall s : Service, broken s ->
  fst (_disconnect depth s) = Raise RecursionError /\
  forall req, fst (_send depth req s) = Raise RecursionError.
Proof.
  induction depth as [|d IH]; intros s Hs; [split; reflexivity|].
  assert (Hsend : forall req, fst (_send (S d) req s) = Raise RecursionError).
  { intros req. destruct Hs as [Hreq Hsock].
    pose proof Hreq as Hreq'. apply request_wanted_nonempty in Hreq'.
    cbn [_send]. unfold _send_with, bind at 1, self.
    rewrite Hreq'. unfold try_except, bind at 1, sock_send.
    destruct Hsock as [Hnone | (k & Hk & Hscript & Hrest)].
    - rewrite Hnone. apply bind_raise_fst. apply IH. split; auto.
    - rewrite Hk. unfold next_tx. rewrite Hscript, Hrest.
      apply bind_raise_fst. apply IH. split; [exact Hreq|].
      right. exists (pop_tx k). unfold pop_tx. rewrite Hscript. auto. }
  split; [|exact Hsend].
  cbn [_disconnect]. unfold _disconnect_with. apply bind_raise_fst.
  destruct d as [|d']; [reflexivity|]. apply IH, Hs.
Qed.

(** C7 (the source falls short of it): on a session that was never
    connected or has been disconnected ([_sock] is [None]), and on one whose
    socket refuses every write, [_disconnect] does not complete: sending
    [quit] raises inside [_send], whose handler calls [_disconnect] again,
    and the nesting ends in [RecursionError], whatever the depth bound. *)
Theorem C7_disconnect_raises (depth : nat) (s : Service) :
  request s <> "" ->
  (_sock s = None \/
   exists k, _sock s = Some k /\ tx_script k = [] /\ tx_rest k = false) ->
  fst (_disconnect depth s) = Raise RecursionError.
Proof. intros Hreq Hsock. apply disconnect_broken. split; assumption. Qed.

Lemma C7_disconnect_raises_witness :
  (request (init_service ∅) <> "" /\ _sock (init_service ∅) = None) /\
  fst (_disconnect 1000 (init_service ∅)) = Raise RecursionError.
Proof.
  assert (H : request (init_service ∅) <> "") by discriminate.
  split; [split; [exact H | reflexivity]|].
  apply (C7_disconnect_raises 1000 (init_service ∅) H). left. reflexivity.
Defined.

(** Calling [_disconnect] twice in a row: the first call completes and
    closes the socket, the second one raises. *)
Example disconnect_twice :
  let k := Socket [] true [Data ("error id=0 msg=ok" +:+ eol)] Hangup in
  let s := set_sock (Some k) (init_service ∅) in
  fst (_disconnect 1000 s) = Ret tt /\
  _sock (snd (_disconnect 1000 s)) = None /\
  fst (_disconnect 1000 (snd (_disconnect 1000 s))) = Raise RecursionError.
Proof. vm_compute. repeat split. Qed.

(** ** Time-out *)

Lemma select_silent (s : Service) (k : socket) (tl : list rx) :
  _sock s = Some k -> rx_script k = Silent :: tl ->
  select_readable s = (Ret false, set_sock (Some (set_rx tl k)) s).
Proof.
  intros Hk Hs. unfold select_readable, next_rx, pop_rx. now rewrite Hk, Hs.
Qed.

Lemma receive_loop_timeout (d fuel : nat) (data : string) (s : Service)
  (k : socket) (r : string) (tl : list rx) :
  _sock s = Some k -> rx_script k = Silent :: Data r :: tl ->
  next_tx k = true -> request s <> "" -> whole_reply r ->
  receive_loop (_disconnect (S (S d))) (S fuel) data s =
  (Ret data,
   set_errors (errors s ++ [Msg "Socket timed out."])
     (after [Tx quit_cmd; Rx r; Close] None s)).
Proof.
  intros Hk Hs Htx Hreq Hr. cbn [receive_loop].
  rewrite (bind_ok _ _ s (set_sock (Some (set_rx (Data r :: tl) k)) s) (Some false)).
  2:{ apply try_ok.
      rewrite (bind_ok _ _ _ _ _ (select_silent s k _ Hk Hs)). reflexivity. }
  unfold bind at 1, error.
  rewrite (bind_ok _ _ _ _ _
             (disconnect_answered d
                (set_errors (errors (set_sock (Some (set_rx (Data r :: tl) k)) s)
                             ++ [Msg "Socket timed out."])
                   (set_sock (Some (set_rx (Data r :: tl) k)) s))
                (set_rx (Data r :: tl) k) r tl
                eq_refl eq_refl Hr Htx Hreq)).
  reflexivity.
Qed.

(** C6, amended: when [select] runs into its limit, [_receive] records the
    time-out and calls [_disconnect]; when the quit exchange of that call
    goes through (the write is accepted and answered by one whole reply),
    the socket is closed and forgotten, and [_receive] returns the text
    gathered so far (empty if nothing had arrived) as an ordinary value. *)
Theorem C6_timeout_returns_gathered_text (d fuel : nat) (data : string)
  (s : Service) (k : socket) (r : string) (tl : list rx) :
  _sock s = Some k -> rx_script k = Silent :: Data r :: tl ->
  next_tx k = true -> request s <> "" -> whole_reply r ->
  let final :=
    set_errors (errors s ++ [Msg "Socket timed out."])
      (after [Tx quit_cmd; Rx r; Close] None s) in
  _receive (S (S (S d))) s = (Ret "", final) /\
  receive_loop (_disconnect (S (S d))) (S fuel) data s = (Ret data, final) /\
  _sock final = None.
Proof.
  intros Hk Hs Htx Hreq Hr final. split; [|split].
  - cbn [_receive]. unfold _receive_with, rx_budget. rewrite Hk.
    apply (receive_loop_timeout d _ "" s k r tl Hk Hs Htx Hreq Hr).
  - apply (receive_loop_timeout d fuel data s k r tl Hk Hs Htx Hreq Hr).
  - reflexivity.
Qed.

Lemma C6_timeout_returns_gathered_text_witness :
  let r := "error id=0 msg=ok" +:+ eol in
  let k := Socket [] true [Silent; Data r] Quiet in
  let s := set_sock (Some k) (init_service ∅) in
  (_sock s = Some k /\ rx_script k = [Silent; Data r] /\ next_tx k = true /\
   request s <> "" /\ whole_reply r) /\
  _receive 3 s =
    (Ret "",
     set_errors (errors s ++ [Msg "Socket timed out."])
       (after [Tx quit_cmd; Rx r; Close] None s)).
Proof.
  intros r k s.
  assert (Hreq : request s <> "") by discriminate.
  assert (Hr : whole_reply r).
  { apply whole_replyb_spec. vm_compute. reflexivity. }
  split; [repeat split; auto; apply Hr|].
  apply (C6_timeout_returns_gathered_text 0 0 "" s k r []
           eq_refl eq_refl eq_refl Hreq Hr).
Defined.

(** C6 as stated fails: the socket is not readable within the wait of
    [_receive], and [_receive] still returns an ordinary text value (the
    empty text) rather than failing with a time-out error. *)
Lemma C6_counterexample :
  let k := Socket [] true [Silent; Data ("error id=0 msg=ok" +:+ eol)] Quiet in
  let s := set_sock (Some k) (init_service ∅) in
  next_rx k = Silent /\ fst (_receive 3 s) = Ret "".
Proof. split; reflexivity. Qed.

(** On a peer that accepts writes and never answers, the time-out handling
    nests without end: [_receive] calls [_disconnect], which sends [quit]
    and calls [_receive], which times out again. Whatever the depth bound,
    the call ends in [RecursionError] and the socket is still in place. *)
Lemma receive_silent_peer (depth : nat) :
  forall s : Service,
  _sock s = Some (Socket [] true [] Quiet) -> request s <> "" ->
  (exists s', _receive depth s = (Raise RecursionError, s') /\
              _sock s' = Some (Socket [] true [] Quiet)) /\
  (exists s', _disconnect depth s = (Raise RecursionError, s') /\
              _sock s' = Some (Socket [] true [] Quiet)).
Proof.
  induction depth as [|d IH]; intros s Hk Hreq.
  - split; exists s; split; auto.
  - split.
    + cbn [_receive]. unfold _receive_with, rx_budget. rewrite Hk.
      cbn [rx_script map list_sum receive_loop].
      set (s1 := set_sock (Some (Socket [] true [] Quiet)) s).
      rewrite (bind_ok _ _ s s1 (Some false)).
      2:{ apply try_ok. unfold bind, select_readable. rewrite Hk. reflexivity. }
      rewrite (bind_ok _ _ s1 (set_errors (errors s1 ++ [Msg "Socket timed out."]) s1)
                 tt eq_refl).
      destruct (IH (set_errors (errors s1 ++ [Msg "Socket timed out."]) s1)
                  eq_refl Hreq) as [_ (s' & Hd & Hs')].
      exists s'. split; [|exact Hs'].
      apply (bind_raise _ _ _ _ _ Hd).
    + cbn [_disconnect]. unfold _disconnect_with.
      destruct d as [|d'].
      * exists s. split; auto.
      * rewrite (bind_ok _ _ _ _ _
                   (send_accepted d' quit_cmd s _ Hk eq_refl Hreq ltac:(discriminate))).
        destruct (IH (after [Tx quit_cmd] (Some (pop_tx (Socket [] true [] Quiet))) s)
                    eq_refl Hreq) as [(s' & Hr & Hs') _].
        exists s'. split; [|exact Hs'].
        apply (bind_raise _ _ _ _ _ Hr).
Qed.

(** ** The connect sequence *)

Lemma login_cmd_nonempty s : login_cmd s <> "".
Proof. discriminate. Qed.

Lemma use_cmd_nonempty s : use_cmd s <> "".
Proof. discriminate. Qed.

Lemma clientupdate_cmd_nonempty s now : clientupdate_cmd s now <> "".
Proof. discriminate. Qed.

Lemma clientmove_cmd_nonempty s clid : clientmove_cmd s clid <> "".
Proof. discriminate. Qed.

(** One statement of the sequence: a write the socket accepts, or a read
    that meets one whole reply. *)
Ltac exchange_step Hreq :=
  lazymatch goal with
  | |- bind (_send _ _) _ _ = _ =>
      erewrite bind_ok;
      [| eapply send_accepted;
         [ reflexivity | reflexivity | exact Hreq
         | first [ apply login_cmd_nonempty | apply use_cmd_nonempty
                 | apply clientupdate_cmd_nonempty
                 | apply clientmove_cmd_nonempty | discriminate ] ] ]
  | |- bind (_receive _) _ _ = _ =>
      erewrite bind_ok;
      [| eapply receive_whole_reply;
         [ reflexivity | reflexivity | assumption ] ]
  end.

Lemma login_cmd_after evs k s : login_cmd (after evs k s) = login_cmd s.
Proof. reflexivity. Qed.

Lemma use_cmd_after evs k s : use_cmd (after evs k s) = use_cmd s.
Proof. reflexivity. Qed.

Lemma clientupdate_cmd_after evs k s now :
  clientupdate_cmd (after evs k s) now = clientupdate_cmd s now.
Proof. reflexivity. Qed.

Lemma clientmove_cmd_after evs k s clid :
  clientmove_cmd (after evs k s) clid = clientmove_cmd s clid.
Proof. reflexivity. Qed.

Lemma channel_id_after evs k s : channel_id (after evs k s) = channel_id s.
Proof. reflexivity. Qed.

Lemma errors_after evs k s : errors (after evs k s) = errors s.
Proof. reflexivity. Qed.

Lemma after_set_errors evs k l s :
  after evs k (set_errors l s) = set_errors l (after evs k s).
Proof. reflexivity. Qed.

(** Bring the state of the goal back to the form [after evs k s]. *)
Ltac tidy :=
  rewrite ?after_after;
  cbn [pop_tx set_tx set_rx tail tx_script tx_rest rx_script rx_rest].

Ltac exchange Hreq := exchange_step Hreq; tidy.

Section Connect.

Variables (d : nat) (s : Service) (rxr : rx_end) (now : string).
Variables (r1 r2 r3 r4 r5 : string) (tl : list rx).
Hypothesis Hreq : request s <> "".
Hypothesis H1 : whole_reply r1.
Hypothesis H2 : whole_reply r2.
Hypothesis H3 : whole_reply r3.
Hypothesis H4 : whole_reply r4.
Hypothesis H5 : whole_reply r5.

Let script := Data r1 :: Data r2 :: Data r3 :: Data r4 :: Data r5 :: tl.
Let k := Socket [] true script rxr.

Lemma connect_without_channel :
  truthy (channel_id s) = false ->
  _connect (S (S (S d))) (Some k) now s =
  (Ret tt,
   after (greeting s now r1 r2 r3)
     (Some (Socket [] true (Data r4 :: Data r5 :: tl) rxr)) s).
Proof.
  intros Hch. cbn [_connect]. unfold _connect_with.
  rewrite (bind_ok _ _ s (after [Dial true] (Some k) s) tt eq_refl).
  apply try_ok.
  rewrite (bind_ok self _ _ _ _ eq_refl). cbv beta.
  rewrite login_cmd_after, use_cmd_after, clientupdate_cmd_after,
    channel_id_after, Hch.
  do 6 exchange Hreq.
  reflexivity.
Qed.

Lemma connect_with_channel (clid : string) (more : list string) :
  truthy (channel_id s) = true ->
  findall_client_id 0 r4 = clid :: more ->
  _connect (S (S (S d))) (Some k) now s =
  (Ret tt,
   after (greeting s now r1 r2 r3 ++
          [Tx whoami_cmd; Rx r4; Tx (clientmove_cmd s clid); Rx r5])
     (Some (Socket [] true tl rxr)) s).
Proof.
  intros Hch Hid. cbn [_connect]. unfold _connect_with.
  rewrite (bind_ok _ _ s (after [Dial true] (Some k) s) tt eq_refl).
  apply try_ok.
  rewrite (bind_ok self _ _ _ _ eq_refl). cbv beta.
  rewrite login_cmd_after, use_cmd_after, clientupdate_cmd_after,
    channel_id_after, Hch.
  do 8 exchange Hreq.
  unfold lift at 1, bind at 1. rewrite Hid. cbn [index0].
  rewrite clientmove_cmd_after.
  do 2 exchange Hreq.
  reflexivity.
Qed.

Lemma connect_without_client_id :
  truthy (channel_id s) = true ->
  findall_client_id 0 r4 = [] ->
  _connect (S (S (S d))) (Some k) now s =
  (Ret tt,
   set_errors (errors s ++ [Exc IndexError])
     (after (greeting s now r1 r2 r3 ++
             [Tx whoami_cmd; Rx r4; Tx quit_cmd; Rx r5; Close])
        None s)).
Proof.
  intros Hch Hid. cbn [_connect]. unfold _connect_with.
  rewrite (bind_ok _ _ s (after [Dial true] (Some k) s) tt eq_refl).
  erewrite try_raise.
  2:{ rewrite (bind_ok self _ _ _ _ eq_refl). cbv beta.
      rewrite login_cmd_after, use_cmd_after, clientupdate_cmd_after,
        channel_id_after, Hch.
      do 8 exchange Hreq.
      unfold lift at 1, bind at 1. rewrite Hid. cbn [index0].
      reflexivity. }
  erewrite bind_ok.
  2:{ eapply disconnect_answered;
        [reflexivity | reflexivity | exact H5 | reflexivity | exact Hreq]. }
  tidy. unfold error. rewrite errors_after. reflexivity.
Qed.

End Connect.

(** The client id is whatever digits follow the first [client_id=], none
    included: clientmove then goes out with an empty client id. *)
Example connect_empty_client_id :
  let ok := "error id=0 msg=ok" +:+ eol in
  let me := "client_id=" +:+ eol +:+ ok in
  let s := configured "serveradmin" "secret" (CInt 5) in
  findall_client_id 0 me = [""] /\
  wire (snd (_connect 3 (Some (Socket [] true
                [Data ok; Data ok; Data ok; Data me; Data ok] Quiet)) "now" s)) =
  [Dial true; Tx ("login serveradmin secret" +:+ nl); Rx ok;
   Tx ("use sid=1" +:+ nl); Rx ok;
   Tx ("clientupdate client_nickname=netdata_now" +:+ nl); Rx ok;
   Tx ("whoami" +:+ nl); Rx me; Tx ("clientmove clid= cid=5" +:+ nl); Rx ok].
Proof. vm_compute. split; reflexivity. Qed.

(** A write that raises does not stop the sequence by itself: [_send]
    handles it, tears the session down and returns [False], and [_connect]
    goes on to the receive, which finds no socket and ends in
    [RecursionError]; that error leaves [_connect]. *)
Example connect_after_failed_write :
  let ok := "error id=0 msg=ok" +:+ eol in
  let k := Socket [false] true [Data ok] Quiet in
  let s := configured "serveradmin" "secret" CNone in
  fst (_connect 50 (Some k) "now" s) = Raise RecursionError /\
  wire (snd (_connect 50 (Some k) "now" s)) =
    [Dial true; Tx quit_cmd; Rx ok; Close] /\
  _sock (snd (_connect 50 (Some k) "now" s)) = None.
Proof. vm_compute. repeat split. Qed.

(** ** The extractor *)

Lemma py_int_outcome (v : string) :
  (exists z, py_int v = Ret z) \/ py_int v = Raise ValueError.
Proof.
  unfold py_int. destruct (split_sign (strip _)) as [neg body].
  destruct (scan_digits 0 0 false body) as [[[z [|n]] [|c rest]]|]; eauto.
  destruct (_ <? _); eauto.
Qed.

Lemma py_float_outcome (v : string) :
  (exists f, py_float v = Ret f) \/ py_float v = Raise ValueError.
Proof.
  unfold py_float. destruct (split_sign (strip _)) as [neg body].
  destruct (_ || _); [eauto|].
  destruct (String.eqb _ "nan"); [eauto|].
  destruct (scan_digits 0 0 false body) as [[[i ni] rest]|]; [|eauto].
  match goal with
  | |- context [match ?fr with Some _ => _ | None => _ end] =>
      destruct fr as [[[m nf] rest']|]; [|eauto]
  end.
  destruct (_ =? _)%nat; [eauto|].
  destruct (scan_exponent rest'); eauto.
Qed.

Lemma field_int_outcome (d : gmap string string) (k : string) :
  (exists z, field_int d k = Ret z) \/ (exists e, field_int d k = Raise e).
Proof.
  unfold field_int. destruct (d !! k) as [v|]; [|eauto].
  destruct (py_int_outcome v) as [? | ->]; eauto.
Qed.

Lemma field_float_outcome (d : gmap string string) (k : string) :
  (exists f, field_float d k = Ret f) \/ (exists e, field_float d k = Raise e).
Proof.
  unfold field_float. destruct (d !! k) as [v|]; [|eauto].
  destruct (py_float_outcome v) as [? | ->]; eauto.
Qed.

Lemma bad_field_not_valid (d : gmap string string) (k : string) :
  bad_field d k -> ~ valid_status d.
Proof.
  intros Hbad [Hi Hf].
  destruct Hbad as [[Hin Hk]|[Hin Hk]].
  - rewrite Forall_forall in Hi. destruct (Hi k Hin) as [z Hz].
    unfold field_int in Hz.
    destruct Hk as [Hk|(v & Hk & Hv)]; rewrite Hk in Hz; congruence.
  - rewrite Forall_forall in Hf. destruct (Hf k Hin) as [f Hz].
    unfold field_float in Hz.
    destruct Hk as [Hk|(v & Hk & Hv)]; rewrite Hk in Hz; congruence.
Qed.

Ltac failed_field E :=
  right; split;
  [ intros [Hi Hf]; unfold int_fields, float_fields in Hi, Hf;
    repeat rewrite Forall_cons in Hi; repeat rewrite Forall_cons in Hf;
    decompose [and ex] Hi; decompose [and ex] Hf; congruence
  | eexists; reflexivity ].

Lemma get_data_cases (_get_raw_data : M (option string)) (s s' : Service)
  (raw : string) :
  _get_raw_data s = (Ret (Some raw), s') ->
  let d := status_fields raw in
  (exists total queries ping sent received ft_sent ft_received
          speech keepalive control loss,
     valid_status d /\
     field_int d "virtualserver_clientsonline" = Ret total /\
     field_int d "virtualserver_queryclientsonline" = Ret queries /\
     field_float d "virtualserver_total_ping" = Ret ping /\
     field_float d "virtualserver_total_packetloss_speech" = Ret speech /\
     field_float d "virtualserver_total_packetloss_total" = Ret loss /\
     _get_data _get_raw_data s =
     (Ret (Some (metrics_record total queries (fmul ping 1000)
                   sent received ft_sent ft_received
                   (fmul speech 100000) (fmul keepalive 100000)
                   (fmul control 100000) (fmul loss 100000))), s')) \/
  (~ valid_status d /\
   exists e, _get_data _get_raw_data s =
             (Ret None, set_errors (errors s' ++ [Exc e]) s')).
Proof.
  intros Hraw d. unfold _get_data. rewrite Hraw.
  unfold try_except, bind, lift, ret, error. cbv beta iota.
  subst d. set (d := status_fields raw). clearbody d.
  destruct (field_int_outcome d "virtualserver_clientsonline") as [[z1 E1]|[e E]];
    [rewrite E1; cbv beta iota | rewrite E; failed_field E].
  destruct (field_int_outcome d "virtualserver_queryclientsonline") as [[z2 E2]|[e E]];
    [rewrite E2; cbv beta iota | rewrite E; failed_field E].
  destruct (field_float_outcome d "virtualserver_total_ping") as [[f1 E3]|[e E]];
    [rewrite E3; cbv beta iota | rewrite E; failed_field E].
  destruct (field_int_outcome d "connection_bandwidth_sent_last_second_total") as [[z3 E4]|[e E]];
    [rewrite E4; cbv beta iota | rewrite E; failed_field E].
  destruct (field_int_outcome d "connection_bandwidth_received_last_second_total") as [[z4 E5]|[e E]];
    [rewrite E5; cbv beta iota | rewrite E; failed_field E].
  destruct (field_int_outcome d "connection_filetransfer_bandwidth_sent") as [[z5 E6]|[e E]];
    [rewrite E6; cbv beta iota | rewrite E; failed_field E].
  destruct (field_int_outcome d "connection_filetransfer_bandwidth_received") as [[z6 E7]|[e E]];
    [rewrite E7; cbv beta iota | rewrite E; failed_field E].
  destruct (field_float_outcome d "virtualserver_total_packetloss_speech") as [[f2 E8]|[e E]];
    [rewrite E8; cbv beta iota | rewrite E; failed_field E].
  destruct (field_float_outcome d "virtualserver_total_packetloss_keepalive") as [[f3 E9]|[e E]];
    [rewrite E9; cbv beta iota | rewrite E; failed_field E].
  destruct (field_float_outcome d "virtualserver_total_packetloss_control") as [[f4 E10]|[e E]];
    [rewrite E10; cbv beta iota | rewrite E; failed_field E].
  destruct (field_float_outcome d "virtualserver_total_packetloss_total") as [[f5 E11]|[e E]];
    [rewrite E11; cbv beta iota | rewrite E; failed_field E].
  left. exists z1, z2, f1, z3, z4, z5, z6, f2, f3, f4, f5.
  split; [split; repeat constructor; eexists; eassumption|].
  repeat split; try assumption; reflexivity.
Qed.

(** C4: the scenario line yields the record of the specification: the
    counts as integers, ping 0.05 scaled by 1000 to the double 50.0, the
    packet-loss ratios 0.001 scaled by 100000 to the double 100.0. *)
Theorem C4_scenario_record (_get_raw_data : M (option string))
  (s s' : Service) :
  _get_raw_data s = (Ret (Some scenario_line), s') ->
  exists data,
    _get_data _get_raw_data s = (Ret (Some data), s') /\
    data !! "connected_total" = Some (MInt 42) /\
    data !! "connected_queries" = Some (MInt 2) /\
    data !! "connected_users" = Some (MInt 40) /\
    data !! "ping" = Some (MFloat (float_of_Z 50)) /\
    data !! "bandwidth_total_sent" = Some (MInt 1000) /\
    data !! "bandwidth_total_received" = Some (MInt 2000) /\
    data !! "packetloss_speech" = Some (MFloat (float_of_Z 100)) /\
    data !! "packetloss_total" = Some (MFloat (float_of_Z 100)) /\
    data = metrics_record 42 2 (float_of_Z 50) 1000 2000 0 0
             (float_of_Z 100) (S754_zero false) (S754_zero false)
             (float_of_Z 100).
Proof.
  intros Hraw.
  exists (metrics_record 42 2 (float_of_Z 50) 1000 2000 0 0
            (float_of_Z 100) (S754_zero false) (S754_zero false)
            (float_of_Z 100)).
  split.
  - unfold _get_data. rewrite Hraw. vm_compute. reflexivity.
  - repeat split; vm_compute; reflexivity.
Qed.

Lemma C4_scenario_record_witness :
  let grd : M (option string) := ret (Some scenario_line) in
  let s := init_service ∅ in
  grd s = (Ret (Some scenario_line), s) /\
  exists data,
    _get_data grd s = (Ret (Some data), s) /\
    data !! "connected_users" = Some (MInt 40) /\
    data !! "ping" = Some (MFloat (S754_finite false 7036874417766400 (-47))).
Proof.
  intros grd s. split; [reflexivity|].
  destruct (C4_scenario_record grd s s eq_refl)
    as (data & Hd & _ & _ & Hu & Hp & _).
  exists data. repeat split; assumption.
Defined.

(** C5: on a valid status line [_get_data] produces a record in which
    [connected_users] is [connected_total] minus [connected_queries], these
    two being the integer values of [virtualserver_clientsonline] and
    [virtualserver_queryclientsonline]; it is not negative when the total is
    at least the number of queries. *)
Theorem C5_connected_users (_get_raw_data : M (option string))
  (s s' : Service) (raw : string) :
  _get_raw_data s = (Ret (Some raw), s') ->
  valid_status (status_fields raw) ->
  exists data total queries,
    _get_data _get_raw_data s = (Ret (Some data), s') /\
    field_int (status_fields raw) "virtualserver_clientsonline" = Ret total /\
    field_int (status_fields raw) "virtualserver_queryclientsonline" = Ret queries /\
    data !! "connected_total" = Some (MInt total) /\
    data !! "connected_queries" = Some (MInt queries) /\
    data !! "connected_users" = Some (MInt (total - queries)) /\
    (queries <= total -> 0 <= total - queries).
Proof.
  intros Hraw Hvalid.
  destruct (get_data_cases _get_raw_data s s' raw Hraw)
    as [(t & q & p & bs & br & fs & fr & ls & lk & lc & lt &
         _ & Ht & Hq & _ & _ & _ & Hdata) | [Hbad _]]; [|contradiction].
  exists (metrics_record t q (fmul p 1000) bs br fs fr
            (fmul ls 100000) (fmul lk 100000) (fmul lc 100000)
            (fmul lt 100000)), t, q.
  repeat split; try assumption; try reflexivity. lia.
Qed.

Lemma valid_status_scenario : valid_status (status_fields scenario_line).
Proof.
  split; repeat constructor; eexists; vm_compute; reflexivity.
Qed.

Lemma C5_connected_users_witness :
  let grd : M (option string) := ret (Some scenario_line) in
  let s := init_service ∅ in
  (grd s = (Ret (Some scenario_line), s) /\
   valid_status (status_fields scenario_line)) /\
  exists data,
    _get_data grd s = (Ret (Some data), s) /\
    data !! "connected_users" = Some (MInt (42 - 2)).
Proof.
  intros grd s. split; [split; [reflexivity | exact valid_status_scenario]|].
  destruct (C5_connected_users grd s s scenario_line eq_refl valid_status_scenario)
    as (data & t & q & Hd & Ht & Hq & _ & _ & Hu & _).
  exists data. split; [exact Hd|].
  assert (t = 42) by (vm_compute in Ht; congruence).
  assert (q = 2) by (vm_compute in Hq; congruence).
  subst t q. exact Hu.
Defined.

(** C8: when a required field of the first data line is missing or does
    not coerce, [_get_data] yields no record: it returns [None], having
    recorded the error, and raises nothing. *)
Theorem C8_malformed_yields_nothing (_get_raw_data : M (option string))
  (s s' : Service) (raw k : string) :
  _get_raw_data s = (Ret (Some raw), s') ->
  bad_field (status_fields raw) k ->
  exists e,
    _get_data _get_raw_data s =
    (Ret None, set_errors (errors s' ++ [Exc e]) s').
Proof.
  intros Hraw Hbad.
  destruct (get_data_cases _get_raw_data s s' raw Hraw)
    as [(t & q & p & bs & br & fs & fr & ls & lk & lc & lt & Hvalid & _)
       | [_ He]];
    [|exact He].
  exfalso. exact (bad_field_not_valid _ _ Hbad Hvalid).
Qed.

Lemma C8_malformed_yields_nothing_witness :
  let raw :=
    "virtualserver_queryclientsonline=2 virtualserver_total_ping=0.05"
    +:+ eol +:+ "msg=ok" +:+ eol in
  let grd : M (option string) := ret (Some raw) in
  let s := init_service ∅ in
  (grd s = (Ret (Some raw), s) /\
   bad_field (status_fields raw) "virtualserver_clientsonline") /\
  _get_data grd s = (Ret None, set_errors (errors s ++ [Exc KeyError]) s).
Proof.
  intros raw grd s.
  assert (Hbad : bad_field (status_fields raw) "virtualserver_clientsonline").
  { left. split; [apply list_elem_of_here | left; vm_compute; reflexivity]. }
  split; [split; [reflexivity | exact Hbad]|].
  destruct (C8_malformed_yields_nothing grd s s raw _ eq_refl Hbad) as [e He].
  rewrite He. vm_compute in He. congruence.
Defined.

(** A value that is text, not a number, for a field read with [int]. *)
Example get_data_non_numeric :
  let raw := "virtualserver_clientsonline=many" +:+ eol in
  bad_field (status_fields raw) "virtualserver_clientsonline" /\
  fst (_get_data (ret (Some raw)) (init_service ∅)) = Ret None.
Proof.
  split; [|vm_compute; reflexivity].
  left. split; [apply list_elem_of_here|].
  right. exists "many". split; vm_compute; reflexivity.
Qed.

(** ** Start-up validation *)

Lemma same_session_refl s : same_session s s.
Proof. repeat split. Qed.

Lemma same_session_trans s1 s2 s3 :
  same_session s1 s2 -> same_session s2 s3 -> same_session s1 s3.
Proof. unfold same_session. intuition congruence. Qed.

Lemma same_session_errors (l : list logmsg) (s : Service) :
  same_session s (set_errors l s).
Proof. repeat split. Qed.

Lemma stores_user : stores_setting set_user.
Proof. repeat split. Qed.

Lemma stores_passwd : stores_setting set_passwd.
Proof. repeat split. Qed.

Lemma stores_sid : stores_setting set_sid.
Proof. repeat split. Qed.

Lemma stores_nickname : stores_setting set_nickname.
Proof. repeat split. Qed.

Lemma stores_channel_id : stores_setting set_channel_id.
Proof. repeat split. Qed.

Lemma required_item_spec (key : string) (set : cfgval -> Service -> Service)
  (complaint : string) (s : Service) :
  stores_setting set ->
  exists s',
    required_item key set complaint s = (Ret (given s key), s') /\
    same_session s s' /\
    (given s key = true -> errors s' = errors s).
Proof.
  intros Hset. unfold required_item, try_except_KeyError, bind, config_item,
    assign, given.
  destruct (configuration s !! key) as [v|].
  - destruct (Hset v s) as [Hsame Herr].
    destruct (is_empty_text v); cbn.
    + eexists. split; [reflexivity|]. split; [|discriminate].
      eapply same_session_trans; [exact Hsame | apply same_session_errors].
    + eexists. split; [reflexivity|]. split; [exact Hsame | intros _; exact Herr].
  - cbn. eexists. split; [reflexivity|].
    split; [apply same_session_errors | discriminate].
Qed.

Lemma optional_item_spec (key : string) (set : cfgval -> Service -> Service)
  (otherwise : M unit) (s : Service) :
  stores_setting set ->
  (exists s1, otherwise s = (Ret tt, s1) /\ same_session s s1 /\
              errors s1 = errors s) ->
  exists s',
    optional_item key set otherwise s = (Ret tt, s') /\
    same_session s s' /\ errors s' = errors s.
Proof.
  intros Hset Hother. unfold optional_item, try_except_KeyError, bind,
    config_item, assign.
  destruct (configuration s !! key) as [v|]; cbn.
  - destruct (Hset v s) as [Hsame Herr]. eauto.
  - exact Hother.
Qed.

Lemma assign_spec (set : cfgval -> Service -> Service) (v : cfgval)
  (s : Service) :
  stores_setting set ->
  exists s1, assign set v s = (Ret tt, s1) /\ same_session s s1 /\
             errors s1 = errors s.
Proof. intros Hset. destruct (Hset v s). unfold assign. eauto. Qed.

Lemma scan_cmdlines_spec (pids : list (string * option string)) :
  forall s, exists s',
    scan_cmdlines pids s = (Ret (existsb cmdline_hit pids), s') /\
    same_session s s'.
Proof.
  induction pids as [|[pid [cmdline|]] rest IH]; intros s.
  - exists s. split; [reflexivity | apply same_session_refl].
  - cbn [scan_cmdlines existsb]. unfold cmdline_hit at 1. cbn [snd].
    destruct (contains cmdline "ts3server").
    + exists s. split; [reflexivity | apply same_session_refl].
    + apply IH.
  - cbn [scan_cmdlines existsb]. unfold cmdline_hit at 1. cbn [snd orb].
    destruct (IH (set_errors (errors s ++ [Exc OSError]) s)) as (s' & Hs' & Hsame).
    exists s'. split; [|exact Hsame].
    unfold bind, error. exact Hs'.
Qed.

Lemma existsb_filter_isdigit (proc : list (string * option string)) :
  existsb cmdline_hit (filter (fun e => isdigit e.1 = true) proc) =
  existsb ts3_process proc.
Proof.
  induction proc as [|e rest IH]; [reflexivity|].
  rewrite filter_cons. unfold ts3_process at 1. cbn [existsb].
  destruct (decide (isdigit e.1 = true)) as [H|H].
  - rewrite H. cbn [existsb andb]. now rewrite IH.
  - apply not_true_is_false in H. rewrite H. cbn [andb orb]. exact IH.
Qed.

Lemma is_local_spec (h : string) :
  is_local h = true <-> h = "localhost" \/ h = "127.0.0.1".
Proof.
  unfold is_local. rewrite orb_true_iff, !String.eqb_eq. reflexivity.
Qed.

Section CheckProperties.

Variable _parse_config : M unit.
Variables s s0 : Service.
Hypothesis Hparse : _parse_config s = (Ret tt, s0).

(** Without usable credentials [check] answers [False] and has touched
    neither the socket nor the transport. *)
Lemma check_without_credentials (proc : list (string * option string)) :
  given s0 "user" = false \/ given s0 "pass" = false ->
  exists s', check _parse_config proc s = (Ret false, s') /\
             same_session s0 s'.
Proof.
  intros Hmiss. unfold check. rewrite (bind_ok _ _ _ _ _ Hparse).
  destruct (required_item_spec "user" set_user
              "Please specify a TeamSpeak Server query user inside the ts3.conf!"
              s0 stores_user) as (s1 & Hu & Hsame1 & _).
  rewrite (bind_ok _ _ _ _ _ Hu).
  destruct (given s0 "user") eqn:Huser; cbn [negb].
  2:{ exists s1. split; [reflexivity | exact Hsame1]. }
  destruct (required_item_spec "pass" set_passwd
              "Please specify a TeamSpeak Server query password inside the ts3.conf!"
              s1 stores_passwd) as (s2 & Hp & Hsame2 & _).
  rewrite (bind_ok _ _ _ _ _ Hp).
  assert (Hpass : given s1 "pass" = false).
  { destruct Hmiss as [Hm|Hm]; [discriminate Hm|].
    unfold given in *. destruct Hsame1 as [-> _]. exact Hm. }
  rewrite Hpass. cbn [negb].
  exists s2. split; [reflexivity|].
  eapply same_session_trans; eassumption.
Qed.

(** With credentials, [check] gets as far as the test of the host. *)
Lemma check_with_credentials :
  given s0 "user" = true -> given s0 "pass" = true ->
  exists s5,
    same_session s0 s5 /\ errors s5 = errors s0 /\
    forall proc,
    check _parse_config proc s =
    (if is_local (host s0) then
       let* ts3_running :=
         scan_cmdlines (filter (fun e => isdigit e.1 = true) proc) in
       if negb ts3_running then
         let* _ :=
           error (Msg "No local TeamSpeak server running. Disabling plugin...") in
         ret false
       else ret true
     else ret true) s5.
Proof.
  intros Huser Hpass.
  destruct (required_item_spec "user" set_user
              "Please specify a TeamSpeak Server query user inside the ts3.conf!"
              s0 stores_user) as (s1 & Hu & Hsame1 & He1).
  destruct (required_item_spec "pass" set_passwd
              "Please specify a TeamSpeak Server query password inside the ts3.conf!"
              s1 stores_passwd) as (s2 & Hp & Hsame2 & He2).
  assert (Hpass1 : given s1 "pass" = true).
  { unfold given in *. destruct Hsame1 as [-> _]. exact Hpass. }
  destruct (optional_item_spec "sid" set_sid (assign set_sid (CInt 1)) s2
              stores_sid (assign_spec _ _ _ stores_sid))
    as (s3 & H3 & Hsame3 & He3).
  destruct (optional_item_spec "nickname" set_nickname
              (assign set_nickname (CStr "netdata")) s3
              stores_nickname (assign_spec _ _ _ stores_nickname))
    as (s4 & H4 & Hsame4 & He4).
  destruct (optional_item_spec "channel_id" set_channel_id (ret tt) s4
              stores_channel_id
              (ex_intro _ s4 (conj eq_refl (conj (same_session_refl s4) eq_refl))))
    as (s5 & H5 & Hsame5 & He5).
  assert (Hsame : same_session s0 s5).
  { repeat (eapply same_session_trans; [eassumption|]). apply same_session_refl. }
  exists s5. split; [exact Hsame|]. split.
  - rewrite He5, He4, He3, (He2 Hpass1), (He1 Huser). reflexivity.
  - intros proc. unfold check. rewrite (bind_ok _ _ _ _ _ Hparse).
    rewrite (bind_ok _ _ _ _ _ Hu), Huser. cbn [negb].
    rewrite (bind_ok _ _ _ _ _ Hp), Hpass1. cbn [negb].
    rewrite (bind_ok _ _ _ _ _ H3), (bind_ok _ _ _ _ _ H4),
      (bind_ok _ _ _ _ _ H5).
    rewrite (bind_ok self _ s5 s5 s5 eq_refl). cbv beta.
    destruct Hsame as (_ & -> & _). reflexivity.
Qed.

End CheckProperties.

(** C9: with the user or the password set to the empty text, [check]
    returns [False], and it has made no connection attempt: the socket and
    the record of the transport are as [_parse_config] left them. *)
Theorem C9_empty_credentials_disable (_parse_config : M unit)
  (proc : list (string * option string)) (s s0 : Service) :
  _parse_config s = (Ret tt, s0) ->
  configuration s0 !! "user" = Some (CStr "") \/
  configuration s0 !! "pass" = Some (CStr "") ->
  exists s',
    check _parse_config proc s = (Ret false, s') /\
    _sock s' = _sock s0 /\ wire s' = wire s0.
Proof.
  intros Hparse Hempty.
  destruct (check_without_credentials _parse_config s s0 Hparse proc)
    as (s' & Hcheck & _ & _ & Hsock & Hwire).
  - unfold given. destruct Hempty as [-> | ->]; [left | right]; reflexivity.
  - exists s'. auto.
Qed.

Lemma C9_empty_credentials_disable_witness :
  let cfg : gmap string cfgval :=
    <["pass" := CStr ""]> (<["user" := CStr "serveradmin"]> ∅) in
  let s := init_service cfg in
  let proc := [("1", Some "/opt/ts3/ts3server")] in
  ((ret tt : M unit) s = (Ret tt, s) /\
   configuration s !! "pass" = Some (CStr "")) /\
  exists s',
    check (ret tt) proc s = (Ret false, s') /\
    _sock s' = None /\ wire s' = [].
Proof.
  intros cfg s proc.
  split; [split; reflexivity|].
  apply (C9_empty_credentials_disable (ret tt) proc s s eq_refl).
  right. reflexivity.
Defined.

(** C10: with credentials in place, on the host [localhost] or
    [127.0.0.1] the answer of [check] is whether some numeric entry of
    [/proc] has a readable command line that mentions [ts3server]; on any
    other host [check] answers [True] without looking at the processes. *)
Theorem C10_local_host_needs_process (_parse_config : M unit)
  (proc : list (string * option string)) (s s0 : Service) :
  _parse_config s = (Ret tt, s0) ->
  given s0 "user" = true -> given s0 "pass" = true ->
  (host s0 = "localhost" \/ host s0 = "127.0.0.1" ->
   fst (check _parse_config proc s) = Ret (existsb ts3_process proc)) /\
  (host s0 <> "localhost" -> host s0 <> "127.0.0.1" ->
   exists s',
     errors s' = errors s0 /\
     forall proc', check _parse_config proc' s = (Ret true, s')).
Proof.
  intros Hparse Huser Hpass.
  destruct (check_with_credentials _parse_config s s0 Hparse Huser Hpass)
    as (s5 & _ & Herr & Hcheck).
  split.
  - intros Hlocal. apply is_local_spec in Hlocal.
    rewrite Hcheck, Hlocal.
    destruct (scan_cmdlines_spec (filter (fun e => isdigit e.1 = true) proc) s5)
      as (s6 & Hscan & _).
    rewrite (bind_ok _ _ _ _ _ Hscan), existsb_filter_isdigit.
    destruct (existsb ts3_process proc); reflexivity.
  - intros Hn1 Hn2.
    assert (Hremote : is_local (host s0) = false).
    { apply not_true_is_false. rewrite is_local_spec. tauto. }
    exists s5. split; [exact Herr|].
    intros proc'. rewrite Hcheck, Hremote. reflexivity.
Qed.

Lemma C10_local_host_needs_process_witness :
  let cfg : gmap string cfgval :=
    <["pass" := CStr "secret"]> (<["user" := CStr "serveradmin"]> ∅) in
  let s := init_service cfg in
  let proc := [("1", Some "/sbin/init"); ("self", Some "ts3server");
               ("77", None)] in
  ((ret tt : M unit) s = (Ret tt, s) /\
   given s "user" = true /\ given s "pass" = true /\ host s = "127.0.0.1") /\
  fst (check (ret tt) proc s) = Ret false.
Proof.
  intros cfg s proc.
  split; [repeat split|].
  destruct (C10_local_host_needs_process (ret tt) proc s s eq_refl eq_refl eq_refl)
    as [Hlocal _].
  rewrite Hlocal; [reflexivity | right; reflexivity].
Defined.

(** The same configuration passes when a server process is listed, and
    passes on a remote host whatever is listed. *)
Example check_local_with_server :
  let cfg : gmap string cfgval :=
    <["pass" := CStr "secret"]> (<["user" := CStr "serveradmin"]> ∅) in
  fst (check (ret tt) [("1", Some "/sbin/init"); ("4242", Some "./ts3server")]
         (init_service cfg)) = Ret true /\
  fst (check (fun s => (Ret tt, mkService (configuration s) "ts.example.org"
                                  (user s) (passwd s) (sid s) (nickname s)
                                  (channel_id s) (request s)
                                  (request_is_bytes s) (_sock s)
                                  (wire s) (errors s)))
         [] (init_service cfg)) = Ret true.
Proof. split; vm_compute; reflexivity. Qed.

(** ** The bound on the receive loop is never reached *)

Lemma settles_bind {A B} (m : M A) (k : A -> M B) :
  settles m -> (forall a, settles (k a)) -> settles (bind m k).
Proof.
  intros Hm Hk s. unfold bind. specialize (Hm s).
  destruct (m s) as [[a|e|] s']; cbn in *; [apply Hk | discriminate | congruence].
Qed.

Lemma settles_try {A} (m : M A) (h : exn -> M A) :
  settles m -> (forall e, settles (h e)) -> settles (try_except m h).
Proof.
  intros Hm Hh s. unfold try_except. specialize (Hm s).
  destruct (m s) as [[a|e|] s']; cbn in *; [discriminate | apply Hh | congruence].
Qed.

Lemma settles_ret {A} (a : A) : settles (ret a).
Proof. intros s. discriminate. Qed.

Lemma settles_raise {A} (e : exn) : settles (@raise A e).
Proof. intros s. discriminate. Qed.

Lemma settles_error (m : logmsg) : settles (error m).
Proof. intros s. discriminate. Qed.

Lemma settles_sock_send (b : string) : settles (sock_send b).
Proof.
  intros s. unfold sock_send. destruct (_sock s) as [k|]; [|discriminate].
  destruct (next_tx k); discriminate.
Qed.

Lemma settles_base_disconnect : settles base_disconnect.
Proof.
  intros s. unfold base_disconnect. destruct (_sock s); discriminate.
Qed.

Lemma next_rx_data (k : socket) (b : string) :
  next_rx k = Data b -> b <> "" -> exists tl, rx_script k = Data b :: tl.
Proof.
  unfold next_rx. destruct (rx_script k) as [|e tl].
  - destruct (rx_rest k); intros H; inversion H; congruence.
  - intros -> _. eauto.
Qed.

Lemma take_str_empty (n : nat) (b : string) :
  String.length (take_str (S n) b) = 0%nat -> b = "".
Proof. destruct b; [reflexivity | discriminate]. Qed.

Lemma list_sum_cons (x : nat) (l : list nat) :
  list_sum (x :: l) = (x + list_sum l)%nat.
Proof. reflexivity. Qed.

Lemma receive_loop_settles (disconnect : M unit) :
  settles disconnect ->
  forall (fuel : nat) (data : string) (s : Service),
  (rx_budget s <= fuel)%nat ->
  fst (receive_loop disconnect fuel data s) <> Hang.
Proof.
  intros Hdisc. induction fuel as [|fuel IH]; intros data s Hfuel.
  - unfold rx_budget in Hfuel. destruct (_sock s); cbv beta iota in Hfuel; lia.
  - cbn [receive_loop].
    assert (Hquit : forall (s1 : Service) (o : option bool),
              fst ((let* _ := disconnect in ret o) s1) <> Hang).
    { intros s1 o. apply settles_bind; [exact Hdisc | intros; apply settles_ret]. }
    unfold bind at 1, try_except, bind at 1, select_readable.
    destruct (_sock s) as [k|] eqn:Hk.
    2:{ specialize (Hquit s None). unfold bind in Hquit |- *.
        destruct (disconnect s) as [[[]|e|] s1]; cbn in *; congruence. }
    destruct (next_rx k) as [b| | |] eqn:Hnext.
    + unfold ret at 1. unfold bind at 1, sock_recv. rewrite Hk, Hnext.
      destruct (Nat.eqb_spec (String.length (take_str 4096 b)) 0) as [Hz|Hnz];
        [discriminate|].
      unfold bind at 1, lift, decode_utf8.
      destruct (utf8_ok (take_str 4096 b)); [|discriminate].
      destruct (_check_raw_data _); [discriminate|].
      apply IH.
      assert (Hb : b <> "") by (intros ->; apply Hnz; reflexivity).
      destruct (next_rx_data k b Hnext Hb) as [tl Hs].
      unfold rx_budget in *. rewrite Hk, Hs in Hfuel.
      cbn [_sock set_wire set_sock map list_sum rx_weight] in *.
      destruct (Nat.ltb_spec 4096 (String.length b)) as [Hlt|Hle].
      * rewrite Hs. cbn [rx_script set_rx map list_sum rx_weight tail].
        rewrite list_sum_cons in Hfuel |- *. rewrite length_drop_str. lia.
      * unfold pop_rx. rewrite Hs. cbn [rx_script set_rx tail].
        rewrite list_sum_cons in Hfuel. lia.
    + unfold ret at 1.
      apply settles_bind; [apply settles_error|]. intros _.
      apply settles_bind; [exact Hdisc | intros; apply settles_ret].
    + specialize (Hquit (set_sock (Some (pop_rx k)) s) None).
      unfold bind in Hquit |- *.
      destruct (disconnect _) as [[[]|e|] s1]; cbn in *; congruence.
    + unfold ret at 1. unfold bind at 1, sock_recv. rewrite Hk, Hnext.
      discriminate.
Qed.

Lemma receive_with_settles (disconnect : M unit) :
  settles disconnect -> settles (_receive_with disconnect).
Proof.
  intros Hdisc s. unfold _receive_with.
  apply receive_loop_settles; [exact Hdisc | lia].
Qed.

Lemma send_with_settles (disconnect : M unit) (req : option string) :
  settles disconnect -> settles (_send_with disconnect req).
Proof.
  intros Hdisc. unfold _send_with.
  apply settles_bind; [intros s; discriminate|]. intros me.
  destruct (request_wanted _); [|apply settles_ret].
  apply settles_try.
  - apply settles_bind; [apply settles_sock_send | intros; apply settles_ret].
  - intros e. apply settles_bind; [exact Hdisc|]. intros _.
    apply settles_bind; [apply settles_error | intros; apply settles_ret].
Qed.

(** Whatever the socket does, the three session methods come to a value
    or an exception: the model of the [while True] loop never runs out of
    its bound. *)
Theorem receive_never_hangs (depth : nat) :
  settles (_receive depth) /\ settles (_disconnect depth) /\
  forall req, settles (_send depth req).
Proof.
  induction depth as [|d (Hr & Hd & Hs)].
  - repeat split; intros; intros s; discriminate.
  - split; [|split].
    + intros s. cbn [_receive]. now apply receive_with_settles.
    + intros s. cbn [_disconnect]. unfold _disconnect_with.
      apply settles_bind; [apply Hs|]. intros _.
      apply settles_bind; [apply Hr|]. intros _.
      apply settles_base_disconnect.
    + intros req s. cbn [_send]. now apply send_with_settles.
Qed.

Theorem connect_never_hangs (depth : nat) (dial : option socket)
  (now : string) : settles (_connect depth dial now).
Proof.
  destruct depth as [|d]; intros s; [discriminate|].
  destruct (receive_never_hangs d) as (Hr & Hd & Hs).
  cbn [_connect]. unfold _connect_with.
  apply settles_bind; [intros s1; discriminate|]. intros _.
  apply settles_try.
  - apply settles_bind; [intros s1; discriminate|]. intros me.
    repeat (apply settles_bind; [first [apply Hs | apply Hr]|]; intros _).
    destruct (truthy _); [|apply settles_ret].
    apply settles_bind; [apply Hs|]. intros _.
    apply settles_bind; [apply Hr|]. intros answer.
    apply settles_bind.
    { intros s1. unfold lift, index0. destruct (findall_client_id 0 answer); discriminate. }
    intros clid.
    apply settles_bind; [apply Hs|]. intros _.
    apply settles_bind; [apply Hr|]. intros _. apply settles_ret.
  - intros e. apply settles_bind; [apply Hd | intros; apply settles_error].
Qed.

(** * Further properties of the session methods *)

(** ** Reads that do not complete a response *)

Lemma receive_loop_partial (disconnect : M unit) (chunks : list string) :
  forall (fuel : nat) (data : string) (s : Service) (k : socket) (tl : list rx),
  _sock s = Some k ->
  rx_script k = (map Data chunks ++ tl)%list ->
  Forall readable_chunk chunks ->
  never_complete data chunks = true ->
  receive_loop disconnect (length chunks + fuel) data s =
  receive_loop disconnect fuel (data +:+ concat_str chunks)
    (after (map Rx chunks) (Some (set_rx tl k)) s).
Proof.
  induction chunks as [|c cs IH]; intros fuel data s k tl Hk Hs Hall Hnever.
  - cbn [length concat_str map Nat.add]. rewrite app_str_nil_r.
    simpl in Hs. f_equal.
    unfold after, set_wire, set_sock, set_rx. cbn. rewrite app_nil_r.
    destruct s as [c0 h u p sd nk ch rq rb sk w er]. cbn in *. subst sk.
    destruct k; cbn in *. now subst.
  - apply Forall_cons in Hall as [Hc Hcs].
    cbn [never_complete] in Hnever. apply andb_true_iff in Hnever as [Hfalse Hrest].
    apply negb_true_iff in Hfalse.
    cbn [length Nat.add].
    rewrite (receive_pass disconnect _ data s k c (map Data cs ++ tl)%list Hk Hs Hc).
    rewrite Hfalse.
    rewrite (IH fuel (data +:+ c)
               (after [Rx c] (Some (set_rx (map Data cs ++ tl)%list k)) s)
               (set_rx (map Data cs ++ tl)%list k) tl
               eq_refl eq_refl Hcs Hrest).
    rewrite after_after. cbn [concat_str map app]. rewrite app_str_assoc.
    reflexivity.
Qed.

Lemma rx_budget_script (s : Service) (k : socket) (chunks : list string)
  (e : rx) (tl : list rx) :
  _sock s = Some k -> rx_script k = (map Data chunks ++ e :: tl)%list ->
  exists fuel, rx_budget s = (length chunks + S fuel)%nat.
Proof.
  intros Hk Hs. unfold rx_budget. rewrite Hk, Hs.
  exists (list_sum (map rx_weight (map Data chunks ++ e :: tl)%list) - length chunks)%nat.
  assert (length chunks < list_sum (map rx_weight (map Data chunks ++ e :: tl)%list))%nat;
    [|lia].
  clear. induction chunks as [|c cs IH]; cbn [map app length].
  - rewrite list_sum_cons. destruct e; simpl; lia.
  - rewrite list_sum_cons. simpl rx_weight. lia.
Qed.

(** What [_receive] does after reading chunks that complete nothing: it is
    at the next round with all of them gathered. *)
Lemma receive_partial (d : nat) (s : Service) (k : socket)
  (chunks : list string) (e : rx) (tl : list rx) :
  _sock s = Some k ->
  rx_script k = (map Data chunks ++ e :: tl)%list ->
  Forall readable_chunk chunks ->
  never_complete "" chunks = true ->
  exists fuel,
    _receive (S d) s =
    receive_loop (_disconnect d) (S fuel) (concat_str chunks)
      (after (map Rx chunks) (Some (set_rx (e :: tl) k)) s).
Proof.
  intros Hk Hs Hall Hnever.
  destruct (rx_budget_script s k chunks e tl Hk Hs) as [fuel Hfuel].
  exists fuel. cbn [_receive]. unfold _receive_with. rewrite Hfuel.
  apply (receive_loop_partial _ chunks (S fuel) "" s k (e :: tl) Hk Hs Hall Hnever).
Qed.

Lemma receive_closed (d : nat) (s : Service) (k : socket)
  (chunks : list string) (tl : list rx) :
  _sock s = Some k ->
  rx_script k = (map Data chunks ++ Data "" :: tl)%list ->
  Forall readable_chunk chunks ->
  never_complete "" chunks = true ->
  _receive (S d) s =
  (Ret (concat_str chunks),
   after (map Rx chunks ++ [Rx ""]) (Some (set_rx tl k)) s).
Proof.
  intros Hk Hs Hall Hnever.
  destruct (receive_partial d s k chunks (Data "") tl Hk Hs Hall Hnever)
    as [fuel ->].
  cbn [receive_loop].
  set (k1 := set_rx (Data "" :: tl) k).
  set (s1 := after _ _ s).
  rewrite (bind_ok _ _ s1 s1 (Some true)).
  2:{ apply try_ok. unfold bind, select_readable. reflexivity. }
  rewrite (bind_ok _ _ _ _ _
             (recv_whole s1 k1 "" tl eq_refl eq_refl ltac:(simpl; lia))).
  cbn [String.length Nat.eqb]. unfold s1. rewrite after_after. reflexivity.
Qed.

(** X1. The peer closes before a terminator has arrived: [_receive]
    returns the text gathered so far as an ordinary value; it logs nothing
    and leaves the socket in place. *)
Theorem receive_peer_closed (d : nat) (s : Service) (k : socket)
  (chunks : list string) (tl : list rx) :
  _sock s = Some k ->
  rx_script k = (map Data chunks ++ Data "" :: tl)%list ->
  Forall readable_chunk chunks ->
  never_complete "" chunks = true ->
  _receive (S d) s =
  (Ret (concat_str chunks),
   after (map Rx chunks ++ [Rx ""]) (Some (set_rx tl k)) s) /\
  errors (snd (_receive (S d) s)) = errors s.
Proof.
  intros Hk Hs Hall Hnever.
  rewrite (receive_closed d s k chunks tl Hk Hs Hall Hnever).
  split; reflexivity.
Qed.

(** X2. A read that raises is not handled: the error leaves [_receive],
    the text gathered so far is lost, and the socket stays in place. *)
Theorem receive_recv_error (d : nat) (s : Service) (k : socket)
  (chunks : list string) (tl : list rx) :
  _sock s = Some k ->
  rx_script k = (map Data chunks ++ RecvFails :: tl)%list ->
  Forall readable_chunk chunks ->
  never_complete "" chunks = true ->
  _receive (S d) s =
  (Raise OSError, after (map Rx chunks) (Some (set_rx tl k)) s).
Proof.
  intros Hk Hs Hall Hnever.
  destruct (receive_partial d s k chunks RecvFails tl Hk Hs Hall Hnever)
    as [fuel ->].
  cbn [receive_loop].
  set (s1 := after _ _ s).
  rewrite (bind_ok _ _ s1 s1 (Some true)).
  2:{ apply try_ok. unfold bind, select_readable. reflexivity. }
  apply bind_raise. reflexivity.
Qed.

(** X3. A read whose bytes do not decode on their own makes [_receive]
    raise [UnicodeDecodeError]; the bytes are consumed and the socket stays
    in place. *)
Theorem receive_undecodable_read (d : nat) (s : Service) (k : socket)
  (chunks : list string) (bad : string) (tl : list rx) :
  _sock s = Some k ->
  rx_script k = (map Data chunks ++ Data bad :: tl)%list ->
  Forall readable_chunk chunks ->
  never_complete "" chunks = true ->
  (0 < String.length bad <= 4096)%nat -> utf8_ok bad = false ->
  _receive (S d) s =
  (Raise UnicodeDecodeError,
   after (map Rx chunks ++ [Rx bad]) (Some (set_rx tl k)) s).
Proof.
  intros Hk Hs Hall Hnever [Hpos Hlen] Hbad.
  destruct (receive_partial d s k chunks (Data bad) tl Hk Hs Hall Hnever)
    as [fuel ->].
  cbn [receive_loop].
  set (k1 := set_rx (Data bad :: tl) k).
  set (s1 := after _ _ s).
  rewrite (bind_ok _ _ s1 s1 (Some true)).
  2:{ apply try_ok. unfold bind, select_readable. reflexivity. }
  rewrite (bind_ok _ _ _ _ _ (recv_whole s1 k1 bad tl eq_refl eq_refl Hlen)).
  destruct (Nat.eqb_spec (String.length bad) 0) as [H0|_]; [lia|].
  unfold lift, decode_utf8. rewrite Hbad. unfold bind.
  unfold s1. rewrite after_after. reflexivity.
Qed.

Lemma select_fails (s : Service) (k : socket) (tl : list rx) :
  _sock s = Some k -> rx_script k = SelectFails :: tl ->
  select_readable s = (Raise OSError, set_sock (Some (set_rx tl k)) s).
Proof.
  intros Hk Hs. unfold select_readable, next_rx, pop_rx. now rewrite Hk, Hs.
Qed.

(** X4. [select] raises after some text has arrived: [_receive] calls
    [_disconnect] and, once the quit exchange has gone through, returns the
    gathered text; nothing is logged. *)
Theorem receive_select_error (d : nat) (s : Service) (k : socket)
  (chunks : list string) (r : string) (tl : list rx) :
  _sock s = Some k ->
  rx_script k = (map Data chunks ++ SelectFails :: Data r :: tl)%list ->
  Forall readable_chunk chunks ->
  never_complete "" chunks = true ->
  next_tx k = true -> request s <> "" -> whole_reply r ->
  _receive (S (S (S d))) s =
  (Ret (concat_str chunks),
   after (map Rx chunks ++ [Tx quit_cmd; Rx r; Close]) None s).
Proof.
  intros Hk Hs Hall Hnever Htx Hreq Hr.
  destruct (receive_partial (S (S d)) s k chunks SelectFails (Data r :: tl)
              Hk Hs Hall Hnever) as [fuel ->].
  cbn [receive_loop].
  set (k1 := set_rx (SelectFails :: Data r :: tl) k).
  set (s1 := after _ _ s).
  set (s2 := set_sock (Some (set_rx (Data r :: tl) k1)) s1).
  assert (Hsel : (let* r0 := select_readable in ret (Some r0)) s1 =
                 (Raise OSError, s2)).
  { apply bind_raise. apply (select_fails s1 k1 _ eq_refl eq_refl). }
  assert (Hquit : _disconnect (S (S d)) s2 =
                  (Ret tt, after [Tx quit_cmd; Rx r; Close] None s2)).
  { apply (disconnect_answered d s2 (set_rx (Data r :: tl) k1) r tl
             eq_refl eq_refl Hr Htx Hreq). }
  rewrite (bind_ok _ _ s1 (after [Tx quit_cmd; Rx r; Close] None s2) None).
  2:{ rewrite (try_raise _ _ _ _ _ Hsel).
      rewrite (bind_ok _ _ _ _ _ Hquit). reflexivity. }
  unfold ret. f_equal. unfold s2, s1.
  change (set_sock (Some (set_rx (Data r :: tl) k1))
            (after (map Rx chunks) (Some k1) s))
    with (after (map Rx chunks) (Some (set_rx (Data r :: tl) k1)) s).
  rewrite after_after. reflexivity.
Qed.


(** ** Reads larger than the read size *)

Lemma take_drop_str (n : nat) (s : string) :
  take_str n s +:+ drop_str n s = s.
Proof.
  revert n. induction s as [|c s IH]; intros [|n]; try reflexivity.
  cbn [take_str drop_str]. exact (f_equal (String c) (IH n)).
Qed.

Lemma recv_front (s : Service) (k : socket) (b : string) (tl : list rx) :
  _sock s = Some k -> rx_script k = Data b :: tl ->
  (4096 < String.length b)%nat ->
  sock_recv 4096 s =
  (Ret (take_str 4096 b),
   after [Rx (take_str 4096 b)]
     (Some (set_rx (Data (drop_str 4096 b) :: tl) k)) s).
Proof.
  intros Hk Hs Hlen. unfold sock_recv, next_rx. rewrite Hk, Hs.
  destruct (Nat.ltb_spec 4096 (String.length b)) as [_|Hle]; [|lia].
  cbn [tail]. reflexivity.
Qed.

(** X6. A delivery of more than 4096 bytes (and at most twice as many),
    whose first 4096 bytes and whose remainder each decode on their own, is
    taken in two reads and put together again: the first read takes 4096
    bytes, the second the rest, and [_receive] returns the whole text when
    it ends in a terminator and its first 4096 bytes do not. *)
Theorem receive_oversized_delivery (d : nat) (s : Service) (k : socket)
  (b : string) (tl : list rx) :
  _sock s = Some k -> rx_script k = Data b :: tl ->
  (4096 < String.length b <= 4096 + 4096)%nat ->
  utf8_ok (take_str 4096 b) = true -> utf8_ok (drop_str 4096 b) = true ->
  _check_raw_data (take_str 4096 b) = false ->
  _check_raw_data b = true ->
  _receive (S d) s =
  (Ret b,
   after [Rx (take_str 4096 b); Rx (drop_str 4096 b)]
     (Some (set_rx tl k)) s).
Proof.
  intros Hk Hs [Hlo Hhi] Hu1 Hu2 Hc1 Hc.
  cbn [_receive]. unfold _receive_with, rx_budget. rewrite Hk, Hs.
  cbn [map rx_weight]. rewrite list_sum_cons. cbn [Nat.add].
  set (rest := (String.length b + list_sum (map rx_weight tl))%nat).
  remember (S rest) as fuel eqn:Hfuel.
  cbn [receive_loop].
  rewrite (bind_ok _ _ s s (Some true)).
  2:{ apply try_ok. unfold bind.
      rewrite (select_data s k b Hk); [reflexivity|].
      unfold next_rx. now rewrite Hs. }
  rewrite (bind_ok _ _ _ _ _ (recv_front s k b tl Hk Hs Hlo)).
  destruct (Nat.eqb_spec (String.length (take_str 4096 b)) 0) as [H0|_].
  { rewrite length_take_str in H0. lia. }
  unfold lift at 1, decode_utf8. rewrite Hu1. unfold bind at 1.
  change ("" +:+ take_str 4096 b) with (take_str 4096 b). rewrite Hc1.
  assert (Hrest : readable_chunk (drop_str 4096 b)).
  { split; [|exact Hu2]. rewrite length_drop_str. lia. }
  subst fuel.
  rewrite (receive_pass _ _ _
             (after [Rx (take_str 4096 b)]
                (Some (set_rx (Data (drop_str 4096 b) :: tl) k)) s)
             (set_rx (Data (drop_str 4096 b) :: tl) k)
             (drop_str 4096 b) tl eq_refl eq_refl Hrest).
  rewrite take_drop_str, Hc, after_after. reflexivity.
Qed.

(** ** Replies one after the other *)

(** X7. Two replies that arrive in reads of their own are handed out by
    two calls of [_receive], the first reply by the first call and the
    second by the second. *)
Theorem receive_twice_in_order (d : nat) (s : Service) (k : socket)
  (r1 r2 : string) (tl : list rx) :
  _sock s = Some k -> rx_script k = Data r1 :: Data r2 :: tl ->
  whole_reply r1 -> whole_reply r2 ->
  (let* a := _receive (S d) in
   let* b := _receive (S d) in
   ret (a, b)) s =
  (Ret (r1, r2), after [Rx r1; Rx r2] (Some (set_rx tl k)) s).
Proof.
  intros Hk Hs H1 H2.
  rewrite (bind_ok _ _ _ _ _ (receive_whole_reply d s k r1 _ Hk Hs H1)).
  rewrite (bind_ok _ _ _ _ _
             (receive_whole_reply d (after [Rx r1] (Some (set_rx (Data r2 :: tl) k)) s)
                (set_rx (Data r2 :: tl) k) r2 tl eq_refl eq_refl H2)).
  rewrite after_after. reflexivity.
Qed.

(** ** Writes *)


Lemma send_refused (d : nat) (req : option string) (s : Service)
  (k : socket) (txs : list bool) (r : string) (tl : list rx) :
  request s <> "" -> _sock s = Some k ->
  tx_script k = false :: txs -> next_tx (set_tx txs k) = true ->
  rx_script k = Data r :: tl -> whole_reply r ->
  _send (S (S (S d))) req s =
  (Ret false,
   set_errors (errors s ++ [Exc OSError])
     (after [Tx quit_cmd; Rx r; Close] None s)).
Proof.
  intros Hreq Hk Htx Hnext Hs Hr.
  pose proof Hreq as Hreq'. apply request_wanted_nonempty in Hreq'.
  cbn [_send]. unfold _send_with, bind at 1, self.
  rewrite Hreq'.
  set (k1 := set_tx txs k).
  assert (Hw : (let* _ := sock_send (request_or req (request s)) in ret true) s =
               (Raise OSError, set_sock (Some k1) s)).
  { unfold bind, sock_send, next_tx, pop_tx. rewrite Hk, Htx. reflexivity. }
  rewrite (try_raise _ _ _ _ _ Hw).
  rewrite (bind_ok _ _ _ _ _
             (disconnect_answered d (set_sock (Some k1) s) k1 r tl
                eq_refl Hs Hr Hnext Hreq)).
  reflexivity.
Qed.

(** X9. A write that raises is answered inside [_send]: quit is sent (the
    next write being accepted) and its reply read, the socket is closed and
    forgotten, the error is logged, and [_send] returns [False] instead of
    raising. *)
Theorem send_failed_write (d : nat) (req : option string) (s : Service)
  (k : socket) (txs : list bool) (r : string) (tl : list rx) :
  request s <> "" -> _sock s = Some k ->
  tx_script k = false :: txs -> next_tx (set_tx txs k) = true ->
  rx_script k = Data r :: tl -> whole_reply r ->
  _send (S (S (S d))) req s =
  (Ret false,
   set_errors (errors s ++ [Exc OSError])
     (after [Tx quit_cmd; Rx r; Close] None s)).
Proof.
  intros Hreq Hk Htx Hnext Hs Hr.
  apply (send_refused d req s k txs r tl Hreq Hk Htx Hnext Hs Hr).
Qed.

(** ** A session without a socket *)

Lemma send_no_socket (disconnect : M unit) (req : option string) (s : Service) :
  _sock s = None ->
  disconnect s = (Raise RecursionError, s) ->
  _send_with disconnect req s = (Ret true, s) \/
  _send_with disconnect req s = (Raise RecursionError, s).
Proof.
  intros Hnone Hdisc. unfold _send_with.
  rewrite (bind_ok self _ s s s eq_refl). cbv beta.
  destruct (request_wanted s); [|left; reflexivity].
  right.
  assert (Hw : (let* _ := sock_send (request_or req (request s)) in ret true) s =
               (Raise AttributeError, s)).
  { unfold bind, sock_send. now rewrite Hnone. }
  rewrite (try_raise _ _ _ _ _ Hw).
  apply (bind_raise _ _ _ _ _ Hdisc).
Qed.

Lemma no_socket_raises (depth : nat) :
  forall s : Service, _sock s = None ->
  _disconnect depth s = (Raise RecursionError, s) /\
  _receive depth s = (Raise RecursionError, s).
Proof.
  induction depth as [depth IH] using lt_wf_ind. intros s Hnone.
  destruct depth as [|d]; [split; reflexivity|].
  assert (Hrecv : _receive (S d) s = (Raise RecursionError, s)).
  { cbn [_receive]. unfold _receive_with, rx_budget. rewrite Hnone.
    cbn [receive_loop].
    assert (Hsel : (let* r := select_readable in ret (Some r)) s =
                   (Raise TypeError, s)).
    { unfold bind, select_readable. now rewrite Hnone. }
    apply bind_raise. rewrite (try_raise _ _ _ _ _ Hsel).
    apply bind_raise. apply (IH d); [lia | exact Hnone]. }
  split; [|exact Hrecv].
  cbn [_disconnect]. unfold _disconnect_with.
  destruct d as [|d']; [reflexivity|].
  cbn [_send].
  destruct (send_no_socket (_disconnect d') (Some quit_cmd) s Hnone) as [Hs|Hs].
  - apply (IH d'); [lia | exact Hnone].
  - rewrite (bind_ok _ _ _ _ _ Hs). apply bind_raise.
    apply (IH (S d')); [lia | exact Hnone].
  - apply (bind_raise _ _ _ _ _ Hs).
Qed.

(** X10. Without a socket, [_disconnect] and [_receive] both end in
    [RecursionError], whatever [self.request] is and whatever the depth
    bound; the object is left as it was: nothing is logged. *)
Theorem no_socket_disconnect_receive (depth : nat) (s : Service) :
  _sock s = None ->
  _disconnect depth s = (Raise RecursionError, s) /\
  _receive depth s = (Raise RecursionError, s).
Proof. apply no_socket_raises. Qed.

(** X11. When the base class could not open a socket, [_connect] does not
    return: the login step fails, the handler calls [_disconnect], and the
    [RecursionError] of that call leaves [_connect]; nothing is written and
    the error is not logged. *)
Theorem connect_without_socket (d : nat) (now : string) (s : Service) :
  _connect (S d) None now s =
  (Raise RecursionError, after [Dial false] None s).
Proof.
  set (s0 := after [Dial false] None s).
  cbn [_connect]. unfold _connect_with.
  rewrite (bind_ok (base_connect None) _ s s0 tt eq_refl).
  destruct (no_socket_raises d s0 eq_refl) as [Hdisc Hrecv].
  assert (Hbody : exists e,
            (let* me := self in
             let* _ := _send d (Some (login_cmd me)) in
             let* _ := _receive d in
             let* _ := _send d (Some (use_cmd me)) in
             let* _ := _receive d in
             let* _ := _send d (Some (clientupdate_cmd me now)) in
             let* _ := _receive d in
             if truthy (channel_id me) then
               let* _ := _send d (Some whoami_cmd) in
               let* answer := _receive d in
               let* clid := lift (index0 (findall_client_id 0 answer)) in
               let* _ := _send d (Some (clientmove_cmd me clid)) in
               let* _ := _receive d in
               ret tt
             else ret tt) s0 = (Raise e, s0)).
  { rewrite (bind_ok self _ s0 s0 s0 eq_refl). cbv beta.
    destruct d as [|d']; [exists RecursionError; reflexivity|].
    cbn [_send].
    destruct (no_socket_raises d' s0 eq_refl) as [Hdisc' _].
    destruct (send_no_socket (_disconnect d') (Some (login_cmd s0)) s0
                eq_refl Hdisc') as [Hs|Hs].
    - exists RecursionError. rewrite (bind_ok _ _ _ _ _ Hs).
      apply (bind_raise _ _ _ _ _ Hrecv).
    - exists RecursionError. apply (bind_raise _ _ _ _ _ Hs). }
  destruct Hbody as [e Hbody].
  rewrite (try_raise _ _ _ _ _ Hbody).
  apply (bind_raise _ _ _ _ _ Hdisc).
Qed.

(** ** Disconnecting from a peer that closes *)

(** X12. [_disconnect] completes when the quit write is accepted and the
    peer, instead of answering, closes (after any unterminated text): the
    socket is closed and forgotten. *)
Theorem disconnect_peer_closed (d : nat) (s : Service) (k : socket)
  (chunks : list string) (tl : list rx) :
  _sock s = Some k -> next_tx k = true -> request s <> "" ->
  rx_script k = (map Data chunks ++ Data "" :: tl)%list ->
  Forall readable_chunk chunks ->
  never_complete "" chunks = true ->
  _disconnect (S (S d)) s =
  (Ret tt, after (Tx quit_cmd :: map Rx chunks ++ [Rx ""; Close]) None s).
Proof.
  intros Hk Htx Hreq Hs Hall Hnever.
  cbn [_disconnect]. unfold _disconnect_with.
  rewrite (bind_ok _ _ _ _ _
             (send_accepted d quit_cmd s k Hk Htx Hreq ltac:(discriminate))).
  rewrite (bind_ok _ _ _ _ _
             (receive_closed d (after [Tx quit_cmd] (Some (pop_tx k)) s)
                (pop_tx k) chunks tl eq_refl Hs Hall Hnever)).
  rewrite after_after.
  match goal with
  | |- base_disconnect (after ?E (Some ?K) s) = _ =>
      change (base_disconnect (after E (Some K) s))
        with (Ret tt, after [Close] None (after E (Some K) s))
  end.
  rewrite after_after. cbn [app]. rewrite <- app_assoc. reflexivity.
Qed.

(** ** The client id *)

Lemma findall_none_iff (text : string) :
  findall_client_id 0 text = [] <-> contains text client_id_key = false.
Proof.
  induction text as [|c text IH].
  - split; reflexivity.
  - cbn [findall_client_id contains].
    destruct (startswith (String c text) client_id_key).
    + split; discriminate.
    + cbn [orb]. exact IH.
Qed.

(** X13. With a channel configured, on a socket that accepts the writes
    and answers each command with one whole reply, [_connect] ends with the
    session torn down exactly when the answer to whoami holds no
    [client_id=]; otherwise the session stays up. *)
Theorem connect_torn_down_iff_no_client_id (d : nat) (s : Service)
  (rxr : rx_end) (now r1 r2 r3 r4 r5 : string) (tl : list rx) :
  request s <> "" ->
  whole_reply r1 -> whole_reply r2 -> whole_reply r3 ->
  whole_reply r4 -> whole_reply r5 ->
  truthy (channel_id s) = true ->
  let k :=
    Socket [] true (Data r1 :: Data r2 :: Data r3 :: Data r4 :: Data r5 :: tl)
           rxr in
  fst (_connect (S (S (S d))) (Some k) now s) = Ret tt /\
  (_sock (snd (_connect (S (S (S d))) (Some k) now s)) = None <->
   contains r4 client_id_key = false).
Proof.
  intros Hreq H1 H2 H3 H4 H5 Hch k.
  destruct (findall_client_id 0 r4) as [|clid more] eqn:Hid.
  - unfold k.
    rewrite (connect_without_client_id d s rxr now r1 r2 r3 r4 r5 tl
               Hreq H1 H2 H3 H4 H5 Hch Hid).
    split; [reflexivity|]. split; [intros _|reflexivity].
    now apply findall_none_iff.
  - unfold k.
    rewrite (connect_with_channel d s rxr now r1 r2 r3 r4 r5 tl
               Hreq H1 H2 H3 H4 H5 clid more Hch Hid).
    split; [reflexivity|]. split; [discriminate|].
    intros Hno. apply findall_none_iff in Hno. congruence.
Qed.

(** * Further properties of the extractor *)

(** X14. What [_get_data] makes of a failing transport: [None] from
    [_get_raw_data], or an exception of it that is a [ValueError] (the
    [UnicodeDecodeError] of [_receive] is one) or an [AttributeError], give
    no record and a log entry; any other exception of [_get_raw_data] is not
    caught and leaves [_get_data]. *)
Theorem get_data_transport_failures (_get_raw_data : M (option string))
  (s s' : Service) :
  (_get_raw_data s = (Ret None, s') ->
   _get_data _get_raw_data s =
   (Ret None, set_errors (errors s' ++ [Exc AttributeError]) s')) /\
  (forall e, _get_raw_data s = (Raise e, s') ->
     (e = ValueError \/ e = UnicodeDecodeError \/ e = AttributeError ->
      _get_data _get_raw_data s =
      (Ret None, set_errors (errors s' ++ [Msg "No data received."]) s')) /\
     (e <> ValueError -> e <> UnicodeDecodeError -> e <> AttributeError ->
      _get_data _get_raw_data s = (Raise e, s'))).
Proof.
  split.
  - intros H. unfold _get_data. rewrite H. reflexivity.
  - intros e H. unfold _get_data. rewrite H. split.
    + intros [-> | [-> | ->]]; reflexivity.
    + intros H1 H2 H3. destruct e; try reflexivity; congruence.
Qed.

(** ** Only the first line is read *)

Lemma startswith_nil (s : string) : startswith s "" = true.
Proof. destruct s; reflexivity. Qed.

Lemma startswith_eol (c : ascii) (l tail : string) :
  startswith (String c l) eol = false ->
  startswith (String c (l +:+ eol +:+ tail)) eol = false.
Proof.
  unfold eol. cbn [startswith].
  destruct (Ascii.eqb LF c); [|reflexivity]. cbn [andb].
  destruct l as [|c1 l']; intros H; [reflexivity|].
  change (String c1 l' +:+ String LF (String CR "") +:+ tail)
    with (String c1 (l' +:+ String LF (String CR "") +:+ tail)).
  cbn [startswith] in H |- *. rewrite startswith_nil in H |- *. exact H.
Qed.

Lemma first_line_go (line tail cur : string) :
  contains line eol = false ->
  hd "" (py_split_go eol 0 cur (line +:+ eol +:+ tail)) = cur +:+ line.
Proof.
  revert cur. induction line as [|c l IH]; intros cur Hno.
  - rewrite app_str_nil_r.
    change ("" +:+ eol +:+ tail) with (String LF (String CR tail)).
    cbn [py_split_go startswith eol]. rewrite startswith_nil. reflexivity.
  - cbn [contains] in Hno. apply orb_false_iff in Hno as [Hhere Hlater].
    change (String c l +:+ eol +:+ tail) with (String c (l +:+ eol +:+ tail)).
    cbn [py_split_go]. rewrite (startswith_eol c l tail Hhere).
    rewrite (IH _ Hlater). rewrite app_str_assoc. reflexivity.
Qed.

Lemma status_fields_first_line (line tail : string) :
  contains line eol = false ->
  status_fields (line +:+ eol +:+ tail) =
  dict_of (map key_value (py_split " " line)).
Proof.
  intros Hno. unfold status_fields, py_split.
  now rewrite (first_line_go line tail "" Hno).
Qed.

Lemma single_line_go (line cur : string) :
  contains line eol = false ->
  py_split_go eol 0 cur line = [cur +:+ line].
Proof.
  revert cur. induction line as [|c l IH]; intros cur Hno.
  - now rewrite app_str_nil_r.
  - cbn [contains] in Hno. apply orb_false_iff in Hno as [Hhere Hlater].
    cbn [py_split_go]. rewrite Hhere, (IH _ Hlater), app_str_assoc.
    reflexivity.
Qed.

(** X15. [_get_data] reads the first line only: whatever follows the first
    line end, the status line of the reply included, makes no difference to
    what it returns. *)
Theorem get_data_reads_first_line (line tail : string) (s : Service) :
  contains line eol = false ->
  _get_data (ret (Some (line +:+ eol +:+ tail))) s =
  _get_data (ret (Some line)) s.
Proof.
  intros Hno.
  assert (Hsame : status_fields (line +:+ eol +:+ tail) = status_fields line).
  { rewrite (status_fields_first_line line tail Hno).
    unfold status_fields, py_split.
    now rewrite (single_line_go line "" Hno). }
  unfold _get_data, ret, try_except, bind at 1, lift at 1. cbv beta iota zeta.
  unfold bind at 1, lift at 1. cbv beta iota zeta.
  rewrite Hsame. reflexivity.
Qed.

(** ** Fields of a status line *)

Lemma dict_of_snoc (pairs : list (string * string)) (k v : string) :
  dict_of (pairs ++ [(k, v)]) = <[k := v]> (dict_of pairs).
Proof. unfold dict_of. now rewrite foldl_app. Qed.

(** X16. When a field occurs more than once, the last occurrence is the
    one [_get_data] sees. *)
Theorem dict_of_last_wins (before after_ : list (string * string))
  (k v : string) :
  Forall (fun kv => kv.1 <> k) after_ ->
  dict_of (before ++ (k, v) :: after_) !! k = Some v.
Proof.
  induction after_ as [|[k' v'] rest IH] using rev_ind; intros Hlater.
  - rewrite dict_of_snoc. apply lookup_insert_eq.
  - apply Forall_app in Hlater as [Hrest Hlast].
    apply Forall_cons in Hlast as [Hne _]. cbn in Hne.
    change (before ++ (k, v) :: rest ++ [(k', v')])%list
      with (before ++ ((k, v) :: rest) ++ [(k', v')])%list.
    rewrite app_assoc, dict_of_snoc, lookup_insert_ne by exact Hne.
    apply IH, Hrest.
Qed.

Lemma key_value_render (k v : string) :
  has_char "=" k = false -> key_value (k +:+ "=" +:+ v) = (k, v).
Proof.
  induction k as [|c k IH]; intros Hk.
  - reflexivity.
  - cbn [has_char] in Hk. apply orb_false_iff in Hk as [Hc Hk].
    change (String c k +:+ "=" +:+ v) with (String c (k +:+ "=" +:+ v)).
    cbn [key_value]. rewrite Ascii.eqb_sym, Hc, (IH Hk). reflexivity.
Qed.

Lemma split_space_token (t rest cur : string) :
  has_char " " t = false ->
  py_split_go " " 0 cur (t +:+ String " " rest) =
  (cur +:+ t) :: py_split_go " " 0 "" rest.
Proof.
  revert cur. induction t as [|c t IH]; intros cur Ht.
  - rewrite app_str_nil_r.
    change ("" +:+ String " " rest) with (String " " rest).
    cbn [py_split_go startswith]. rewrite startswith_nil. reflexivity.
  - cbn [has_char] in Ht. apply orb_false_iff in Ht as [Hc Ht].
    change (String c t +:+ String " " rest)
      with (String c (t +:+ String " " rest)).
    cbn [py_split_go startswith]. rewrite Hc. cbn [andb].
    rewrite (IH _ Ht), app_str_assoc. reflexivity.
Qed.

Lemma split_space_last (t cur : string) :
  has_char " " t = false -> py_split_go " " 0 cur t = [cur +:+ t].
Proof.
  revert cur. induction t as [|c t IH]; intros cur Ht.
  - now rewrite app_str_nil_r.
  - cbn [has_char] in Ht. apply orb_false_iff in Ht as [Hc Ht].
    cbn [py_split_go startswith]. rewrite Hc. cbn [andb].
    rewrite (IH _ Ht), app_str_assoc. reflexivity.
Qed.

Lemma split_join_space (tokens : list string) :
  tokens <> [] ->
  Forall (fun t => has_char " " t = false) tokens ->
  py_split " " (join_space tokens) = tokens.
Proof.
  unfold py_split. induction tokens as [|t rest IH]; intros Hne Hall; [congruence|].
  apply Forall_cons in Hall as [Ht Hrest].
  destruct rest as [|t2 rest].
  - cbn [join_space]. now rewrite split_space_last.
  - change (join_space (t :: t2 :: rest))
      with (t +:+ String " " (join_space (t2 :: rest))).
    rewrite (split_space_token t _ "" Ht).
    now rewrite IH.
Qed.

Lemma has_char_app (c : ascii) (a b : string) :
  has_char c (a +:+ b) = has_char c a || has_char c b.
Proof.
  induction a as [|x a IH]; [reflexivity|].
  change (String x a +:+ b) with (String x (a +:+ b)).
  cbn [has_char]. now rewrite IH, orb_assoc.
Qed.

(** X17. A status line written as [key=value] tokens with single spaces
    between them is read back as exactly those fields (the last occurrence
    of a repeated key winning), whatever lines follow it. *)
Theorem status_line_round_trip (pairs : list (string * string))
  (tail : string) :
  pairs <> [] ->
  forallb plain_field pairs = true ->
  contains (join_space (map render_field pairs)) eol = false ->
  status_fields (join_space (map render_field pairs) +:+ eol +:+ tail) =
  dict_of pairs.
Proof.
  intros Hne Hplain Hno.
  rewrite (status_fields_first_line _ tail Hno).
  rewrite forallb_forall in Hplain.
  rewrite split_join_space.
  - f_equal. rewrite map_map.
    rewrite <- (map_id pairs) at 2. apply map_ext_in.
    intros [k v] Hin. specialize (Hplain _ Hin).
    unfold plain_field in Hplain. cbn in Hplain.
    rewrite !andb_true_iff, !negb_true_iff in Hplain.
    destruct Hplain as [[Hk _] _].
    apply (key_value_render k v Hk).
  - destruct pairs; [congruence | discriminate].
  - apply Forall_forall. intros t Ht.
    apply list_elem_of_In, in_map_iff in Ht as ([k v] & <- & Hin).
    specialize (Hplain _ Hin).
    unfold plain_field in Hplain. cbn in Hplain.
    rewrite !andb_true_iff, !negb_true_iff in Hplain.
    destruct Hplain as [[_ Hk] Hv].
    unfold render_field. cbn [fst snd].
    rewrite !has_char_app, Hk, Hv. reflexivity.
Qed.

(** ** The scan of the processes *)

Lemma scan_cmdlines_log (pids : list (string * option string)) :
  forall s,
    scan_cmdlines pids s =
    (Ret (existsb cmdline_hit pids), set_errors (errors s ++ scan_log pids) s).
Proof.
  induction pids as [|[pid [cmdline|]] rest IH]; intros s.
  - cbn. rewrite app_nil_r. destruct s; reflexivity.
  - cbn [scan_cmdlines existsb scan_log]. unfold cmdline_hit at 1. cbn [snd].
    destruct (contains cmdline "ts3server").
    + cbn. rewrite app_nil_r. destruct s; reflexivity.
    + apply IH.
  - cbn [scan_cmdlines existsb scan_log]. unfold cmdline_hit at 1. cbn [snd orb].
    unfold bind, error. rewrite IH. f_equal.
    unfold set_errors. cbn. rewrite <- app_assoc. reflexivity.
Qed.

(** * Further properties of the start-up validation *)

Lemma required_item_value (key : string) (set : cfgval -> Service -> Service)
  (complaint : string) (s : Service) :
  required_item key set complaint s =
  match configuration s !! key with
  | Some v =>
      if is_empty_text v
      then (Ret false,
            set_errors (errors (set v s) ++ [Msg complaint])%list (set v s))
      else (Ret true, set v s)
  | None => (Ret false, set_errors (errors s ++ [Msg complaint])%list s)
  end.
Proof.
  unfold required_item, try_except_KeyError, bind, config_item, assign.
  destruct (configuration s !! key) as [v|]; [|reflexivity].
  destruct (is_empty_text v); reflexivity.
Qed.

Lemma optional_item_value (key : string) (set : cfgval -> Service -> Service)
  (otherwise : M unit) (s : Service) :
  optional_item key set otherwise s =
  match configuration s !! key with
  | Some v => (Ret tt, set v s)
  | None => otherwise s
  end.
Proof.
  unfold optional_item, try_except_KeyError, bind, config_item, assign.
  destruct (configuration s !! key) as [v|]; reflexivity.
Qed.

(** X18. A missing or empty credential is complained about once and
    [check] answers [False]: the user first, and the password only when the
    user is there; nothing else is logged and the processes are not looked
    at. *)
Theorem check_first_missing_credential (_parse_config : M unit)
  (proc : list (string * option string)) (s s0 : Service) :
  _parse_config s = (Ret tt, s0) ->
  (given s0 "user" = false ->
   exists s', check _parse_config proc s = (Ret false, s') /\
              errors s' = (errors s0 ++ [Msg user_complaint])%list /\
              passwd s' = passwd s0) /\
  (given s0 "user" = true -> given s0 "pass" = false ->
   exists s', check _parse_config proc s = (Ret false, s') /\
              errors s' = (errors s0 ++ [Msg pass_complaint])%list /\
              Some (user s') = configuration s0 !! "user").
Proof.
  intros Hparse. split.
  - intros Hu. unfold check. rewrite (bind_ok _ _ _ _ _ Hparse).
    unfold bind at 1. rewrite required_item_value.
    unfold given in Hu. destruct (configuration s0 !! "user") as [v|].
    + apply negb_false_iff in Hu. rewrite Hu.
      eexists. split; [reflexivity|]. split; reflexivity.
    + eexists. split; [reflexivity|]. split; reflexivity.
  - intros Hu Hp. unfold check. rewrite (bind_ok _ _ _ _ _ Hparse).
    unfold bind at 1. rewrite required_item_value.
    unfold given in Hu, Hp.
    destruct (configuration s0 !! "user") as [u|] eqn:Hcu; [|discriminate].
    apply negb_true_iff in Hu. rewrite Hu. cbn [negb].
    unfold bind at 1. rewrite required_item_value.
    change (configuration (set_user u s0)) with (configuration s0).
    destruct (configuration s0 !! "pass") as [p|].
    + apply negb_false_iff in Hp. rewrite Hp.
      eexists. split; [reflexivity|]. split; reflexivity.
    + eexists. split; [reflexivity|]. split; reflexivity.
Qed.

Lemma check_with_settings (_parse_config : M unit)
  (proc : list (string * option string)) (s s0 : Service) (u p : cfgval) :
  _parse_config s = (Ret tt, s0) ->
  configuration s0 !! "user" = Some u -> is_empty_text u = false ->
  configuration s0 !! "pass" = Some p -> is_empty_text p = false ->
  check _parse_config proc s = local_test proc (stored_settings s0 u p).
Proof.
  intros Hparse Hu Hune Hp Hpne.
  unfold check. rewrite (bind_ok _ _ _ _ _ Hparse).
  unfold bind at 1. rewrite required_item_value, Hu, Hune. cbn [negb].
  unfold bind at 1. rewrite required_item_value.
  change (configuration (set_user u s0)) with (configuration s0).
  rewrite Hp, Hpne. cbn [negb].
  unfold bind at 1. rewrite optional_item_value.
  change (configuration (set_passwd p (set_user u s0))) with (configuration s0).
  unfold stored_settings.
  destruct (configuration s0 !! "sid") as [i|] eqn:Hsid; cbn [default assign];
    unfold bind at 1; rewrite optional_item_value;
    cbn [configuration set_sid set_passwd set_user];
    (destruct (configuration s0 !! "nickname") as [n|] eqn:Hnick;
     cbn [default assign];
     unfold bind at 1; rewrite optional_item_value;
     cbn [configuration set_nickname set_sid set_passwd set_user];
     destruct (configuration s0 !! "channel_id") as [c|]; reflexivity).
Qed.

Lemma local_test_frame (proc : list (string * option string)) (t : Service) :
  local_test proc t =
  if is_local (host t) then
    (Ret (existsb ts3_process proc),
     set_errors (errors t ++ scan_log (filter (fun e => isdigit e.1 = true) proc)
                 ++ (if existsb ts3_process proc then []
                     else [Msg no_server_complaint]))%list t)
  else (Ret true, t).
Proof.
  unfold local_test. rewrite (bind_ok self _ t t t eq_refl). cbv beta.
  destruct (is_local (host t)); [|reflexivity]. cbv zeta.
  rewrite (bind_ok _ _ _ _ _
             (scan_cmdlines_log (filter (fun e => isdigit e.1 = true) proc) t)).
  rewrite existsb_filter_isdigit.
  destruct (existsb ts3_process proc); cbn [negb].
  - rewrite app_nil_r. reflexivity.
  - unfold bind, error, ret. f_equal. unfold set_errors. cbn.
    rewrite <- app_assoc. reflexivity.
Qed.

(** X19. With both credentials in place, [check] leaves the settings
    stored, whatever it answers: user and password as configured, the server
    id as configured or 1, the nickname as configured or netdata, the
    channel id as configured or as it was. *)
Theorem check_stores_settings (_parse_config : M unit)
  (proc : list (string * option string)) (s s0 : Service) (u p : cfgval) :
  _parse_config s = (Ret tt, s0) ->
  configuration s0 !! "user" = Some u -> is_empty_text u = false ->
  configuration s0 !! "pass" = Some p -> is_empty_text p = false ->
  let s' := snd (check _parse_config proc s) in
  user s' = u /\ passwd s' = p /\
  sid s' = default (CInt 1) (configuration s0 !! "sid") /\
  nickname s' = default (CStr "netdata") (configuration s0 !! "nickname") /\
  channel_id s' = default (channel_id s0) (configuration s0 !! "channel_id").
Proof.
  intros Hparse Hu Hune Hp Hpne s'. subst s'.
  rewrite (check_with_settings _ proc s s0 u p Hparse Hu Hune Hp Hpne).
  rewrite local_test_frame. unfold stored_settings.
  destruct (is_local _);
    destruct (configuration s0 !! "channel_id"); repeat split.
Qed.

(** X20. On a local host, with both credentials in place, [check] logs one
    error for every numeric entry of [/proc] whose command line cannot be
    read and that comes before the first server process, then the complaint
    that no server runs if none was found, and nothing else; entries with a
    name that is not a number are never read. *)
Theorem check_local_scan_log (_parse_config : M unit)
  (proc : list (string * option string)) (s s0 : Service) :
  _parse_config s = (Ret tt, s0) ->
  given s0 "user" = true -> given s0 "pass" = true ->
  is_local (host s0) = true ->
  errors (snd (check _parse_config proc s)) =
  (errors s0 ++ scan_log (filter (fun e => isdigit e.1 = true) proc) ++
   (if existsb ts3_process proc then [] else [Msg no_server_complaint]))%list.
Proof.
  intros Hparse Hu Hp Hlocal. unfold given in Hu, Hp.
  destruct (configuration s0 !! "user") as [u|] eqn:Hcu; [|discriminate].
  destruct (configuration s0 !! "pass") as [p|] eqn:Hcp; [|discriminate].
  apply negb_true_iff in Hu, Hp.
  rewrite (check_with_settings _ proc s s0 u p Hparse Hcu Hu Hcp Hp).
  rewrite local_test_frame.
  assert (Hhost : host (stored_settings s0 u p) = host s0).
  { unfold stored_settings. destruct (configuration s0 !! "channel_id"); reflexivity. }
  assert (Herr : errors (stored_settings s0 u p) = errors s0).
  { unfold stored_settings. destruct (configuration s0 !! "channel_id"); reflexivity. }
  rewrite Hhost, Hlocal. cbn [snd set_errors errors]. now rewrite Herr.
Qed.

(** * Instances of the further properties *)

Ltac concrete := vm_compute; reflexivity.
Ltac chunks_ok := apply readable_chunks_spec; concrete.
Ltac reply_ok := apply whole_replyb_spec; concrete.
Ltac hyps :=
  repeat (lazymatch goal with |- _ /\ _ => split end);
  first [assumption | reflexivity].

Lemma receive_peer_closed_witness :
  let chunks := ["error id=0 "; "msg=o"] in
  let k := Socket [] true (map Data chunks ++ [Data ""])%list Quiet in
  let s := set_sock (Some k) (init_service ∅) in
  (Forall readable_chunk chunks /\ never_complete "" chunks = true) /\
  _receive 1 s =
  (Ret "error id=0 msg=o",
   after [Rx "error id=0 "; Rx "msg=o"; Rx ""] (Some (set_rx [] k)) s).
Proof.
  intros chunks k s.
  assert (Hall : Forall readable_chunk chunks) by chunks_ok.
  split; [split; [exact Hall | reflexivity]|].
  apply (receive_peer_closed 0 s k chunks [] eq_refl eq_refl Hall eq_refl).
Defined.

Lemma receive_recv_error_witness :
  let chunks := ["error id=0 "] in
  let k := Socket [] true (map Data chunks ++ [RecvFails])%list Quiet in
  let s := set_sock (Some k) (init_service ∅) in
  (Forall readable_chunk chunks /\ never_complete "" chunks = true) /\
  _receive 1 s =
  (Raise OSError, after [Rx "error id=0 "] (Some (set_rx [] k)) s).
Proof.
  intros chunks k s.
  assert (Hall : Forall readable_chunk chunks) by chunks_ok.
  split; [split; [exact Hall | reflexivity]|].
  apply (receive_recv_error 0 s k chunks [] eq_refl eq_refl Hall eq_refl).
Defined.

Lemma receive_undecodable_read_witness :
  let bad := String "195" "" in
  let k := Socket [] true [Data bad; Data (String "169" ("msg=ok" +:+ eol))] Quiet in
  let s := set_sock (Some k) (init_service ∅) in
  ((0 < String.length bad <= 4096)%nat /\ utf8_ok bad = false) /\
  _receive 1 s =
  (Raise UnicodeDecodeError,
   after [Rx bad]
     (Some (set_rx [Data (String "169" ("msg=ok" +:+ eol))] k)) s).
Proof.
  intros bad k s.
  assert (Hlen : (0 < String.length bad <= 4096)%nat).
  { split; [apply Nat.ltb_lt | apply Nat.leb_le]; concrete. }
  split; [split; [exact Hlen | reflexivity]|].
  apply (receive_undecodable_read 0 s k [] bad _ eq_refl eq_refl
           (List.Forall_nil _) eq_refl Hlen eq_refl).
Defined.

Lemma receive_select_error_witness :
  let r := "error id=0 msg=ok" +:+ eol in
  let chunks := ["virtualserver_"] in
  let k := Socket [] true (map Data chunks ++ [SelectFails; Data r])%list Quiet in
  let s := set_sock (Some k) (init_service ∅) in
  (Forall readable_chunk chunks /\ never_complete "" chunks = true /\
   next_tx k = true /\ request s <> "" /\ whole_reply r) /\
  _receive 3 s =
  (Ret "virtualserver_",
   after [Rx "virtualserver_"; Tx quit_cmd; Rx r; Close] None s).
Proof.
  intros r chunks k s.
  assert (Hall : Forall readable_chunk chunks) by chunks_ok.
  assert (Hr : whole_reply r) by reply_ok.
  assert (Hreq : request s <> "") by discriminate.
  split; [hyps|].
  apply (receive_select_error 0 s k chunks r [] eq_refl eq_refl Hall eq_refl
           eq_refl Hreq Hr).
Defined.


Lemma receive_oversized_delivery_witness :
  let b := repeat_str 512 "01234567" +:+ "error id=0 msg=ok" +:+ eol in
  let k := Socket [] true [Data b] Quiet in
  let s := set_sock (Some k) (init_service ∅) in
  ((4096 < String.length b <= 4096 + 4096)%nat /\
   _check_raw_data (take_str 4096 b) = false /\ _check_raw_data b = true) /\
  _receive 1 s =
  (Ret b,
   after [Rx (take_str 4096 b); Rx (drop_str 4096 b)] (Some (set_rx [] k)) s).
Proof.
  intros b k s.
  assert (Hlen : (4096 < String.length b <= 4096 + 4096)%nat).
  { split; [apply Nat.ltb_lt | apply Nat.leb_le]; concrete. }
  assert (Hc1 : _check_raw_data (take_str 4096 b) = false) by concrete.
  assert (Hc : _check_raw_data b = true) by concrete.
  split; [split; [exact Hlen | split; assumption]|].
  apply (receive_oversized_delivery 0 s k b [] eq_refl eq_refl Hlen);
    try assumption; concrete.
Defined.

Lemma receive_twice_in_order_witness :
  let r1 := "client_id=3" +:+ eol +:+ "error id=0 msg=ok" +:+ eol in
  let r2 := "error id=0 msg=ok" +:+ eol in
  let k := Socket [] true [Data r1; Data r2] Quiet in
  let s := set_sock (Some k) (init_service ∅) in
  (whole_reply r1 /\ whole_reply r2) /\
  (let* a := _receive 1 in let* b := _receive 1 in ret (a, b)) s =
  (Ret (r1, r2), after [Rx r1; Rx r2] (Some (set_rx [] k)) s).
Proof.
  intros r1 r2 k s.
  assert (H1 : whole_reply r1) by reply_ok.
  assert (H2 : whole_reply r2) by reply_ok.
  split; [hyps|].
  apply (receive_twice_in_order 0 s k r1 r2 [] eq_refl eq_refl H1 H2).
Defined.


Lemma send_failed_write_witness :
  let r := "error id=0 msg=ok" +:+ eol in
  let k := Socket [false] true [Data r] Quiet in
  let s := set_sock (Some k) (init_service ∅) in
  (request s <> "" /\ whole_reply r) /\
  _send 3 (Some ("whoami" +:+ nl)) s =
  (Ret false,
   set_errors (errors s ++ [Exc OSError])
     (after [Tx quit_cmd; Rx r; Close] None s)).
Proof.
  intros r k s.
  assert (Hreq : request s <> "") by discriminate.
  assert (Hr : whole_reply r) by reply_ok.
  split; [hyps|].
  apply (send_failed_write 0 _ s k [] r [] Hreq eq_refl eq_refl eq_refl eq_refl Hr).
Defined.

Lemma no_socket_disconnect_receive_witness :
  let s := init_service ∅ in
  _sock s = None /\
  _disconnect 1000 s = (Raise RecursionError, s) /\
  _receive 1000 s = (Raise RecursionError, s).
Proof.
  intros s. split; [reflexivity|].
  apply (no_socket_disconnect_receive 1000 s eq_refl).
Defined.

Lemma disconnect_peer_closed_witness :
  let k := Socket [] true [Data ""] Hangup in
  let s := set_sock (Some k) (init_service ∅) in
  (next_tx k = true /\ request s <> "") /\
  _disconnect 2 s =
  (Ret tt, after [Tx quit_cmd; Rx ""; Close] None s).
Proof.
  intros k s.
  assert (Hreq : request s <> "") by discriminate.
  split; [split; [reflexivity | exact Hreq]|].
  apply (disconnect_peer_closed 0 s k [] [] eq_refl eq_refl Hreq eq_refl
           (List.Forall_nil _) eq_refl).
Defined.

Lemma connect_torn_down_iff_no_client_id_witness :
  let ok := "error id=0 msg=ok" +:+ eol in
  let me := "error id=1794 msg=not\sconnected" +:+ eol +:+ ok in
  let s := configured "serveradmin" "secret" (CInt 5) in
  let k := Socket [] true [Data ok; Data ok; Data ok; Data me; Data ok] Quiet in
  (request s <> "" /\ whole_reply ok /\ whole_reply me /\
   truthy (channel_id s) = true /\ contains me client_id_key = false) /\
  _sock (snd (_connect 3 (Some k) "now" s)) = None.
Proof.
  intros ok me s k.
  assert (Hreq : request s <> "") by discriminate.
  assert (Hok : whole_reply ok) by reply_ok.
  assert (Hme : whole_reply me) by reply_ok.
  assert (Hno : contains me client_id_key = false) by concrete.
  split; [hyps|].
  apply (proj2 (connect_torn_down_iff_no_client_id 0 s Quiet "now"
                  ok ok ok me ok [] Hreq Hok Hok Hok Hme Hok eq_refl)).
  exact Hno.
Defined.

Lemma get_data_transport_failures_witness :
  let s := init_service ∅ in
  let broken_transport : M (option string) := raise OSError in
  broken_transport s = (Raise OSError, s) /\
  _get_data broken_transport s = (Raise OSError, s).
Proof.
  intros s broken_transport. split; [reflexivity|].
  apply (proj2 (get_data_transport_failures broken_transport s s) OSError eq_refl);
    discriminate.
Defined.

Lemma get_data_reads_first_line_witness :
  let line := "virtualserver_clientsonline=42" in
  let s := init_service ∅ in
  contains line eol = false /\
  _get_data (ret (Some (line +:+ eol +:+ "error id=0 msg=ok" +:+ eol))) s =
  _get_data (ret (Some line)) s.
Proof.
  intros line s. split; [reflexivity|].
  apply (get_data_reads_first_line line _ s eq_refl).
Defined.

Lemma dict_of_last_wins_witness :
  Forall (fun kv : string * string => kv.1 <> "a") [("b", "2")] /\
  dict_of ([("a", "1")] ++ ("a", "3") :: [("b", "2")]) !! "a" = Some "3".
Proof.
  assert (H : Forall (fun kv : string * string => kv.1 <> "a") [("b", "2")]).
  { repeat constructor. discriminate. }
  split; [exact H|].
  apply (dict_of_last_wins [("a", "1")] [("b", "2")] "a" "3" H).
Defined.

Lemma status_line_round_trip_witness :
  let pairs := [("virtualserver_clientsonline", "42");
                ("virtualserver_name", "My\sServer");
                ("virtualserver_clientsonline", "43")] in
  (pairs <> [] /\ forallb plain_field pairs = true /\
   contains (join_space (map render_field pairs)) eol = false) /\
  status_fields (join_space (map render_field pairs) +:+ eol +:+
                 "error id=0 msg=ok" +:+ eol) = dict_of pairs.
Proof.
  intros pairs.
  assert (Hne : pairs <> []) by discriminate.
  split; [split; [exact Hne | split; concrete]|].
  apply (status_line_round_trip pairs _ Hne); concrete.
Defined.

Lemma check_first_missing_credential_witness :
  let cfg : gmap string cfgval := <["pass" := CStr "secret"]> ∅ in
  let s := init_service cfg in
  ((ret tt : M unit) s = (Ret tt, s) /\ given s "user" = false) /\
  exists s', check (ret tt) [] s = (Ret false, s') /\
             errors s' = [Msg user_complaint] /\ passwd s' = CStr "".
Proof.
  intros cfg s. split; [split; reflexivity|].
  apply (proj1 (check_first_missing_credential (ret tt) [] s s eq_refl)).
  reflexivity.
Defined.

Lemma check_stores_settings_witness :
  let cfg : gmap string cfgval :=
    <["channel_id" := CInt 7]>
      (<["pass" := CStr "secret"]> (<["user" := CStr "serveradmin"]> ∅)) in
  let s := init_service cfg in
  ((ret tt : M unit) s = (Ret tt, s) /\
   configuration s !! "user" = Some (CStr "serveradmin") /\
   configuration s !! "pass" = Some (CStr "secret")) /\
  sid (snd (check (ret tt) [] s)) = CInt 1 /\
  nickname (snd (check (ret tt) [] s)) = CStr "netdata" /\
  channel_id (snd (check (ret tt) [] s)) = CInt 7.
Proof.
  intros cfg s. split; [repeat split|].
  destruct (check_stores_settings (ret tt) [] s s (CStr "serveradmin")
              (CStr "secret") eq_refl eq_refl eq_refl eq_refl eq_refl)
    as (_ & _ & Hsid & Hnick & Hch).
  repeat split; assumption.
Defined.

Lemma check_local_scan_log_witness :
  let cfg : gmap string cfgval :=
    <["pass" := CStr "secret"]> (<["user" := CStr "serveradmin"]> ∅) in
  let s := init_service cfg in
  let proc := [("1", Some "/sbin/init"); ("acpi", None); ("77", None);
               ("90", Some "./ts3server"); ("91", None)] in
  ((ret tt : M unit) s = (Ret tt, s) /\ given s "user" = true /\
   given s "pass" = true /\ is_local (host s) = true) /\
  errors (snd (check (ret tt) proc s)) = [Exc OSError].
Proof.
  intros cfg s proc. split; [repeat split|].
  apply (check_local_scan_log (ret tt) proc s s eq_refl eq_refl eq_refl eq_refl).
Defined.

(** * Further properties, continued *)

(** X21. [_connect] does not look at what [_send] returns. When the login
    write raises and the quit exchange of the teardown goes through, [_send]
    returns [False], [_connect] goes on to the receive, which finds no
    socket, and [_connect] ends in [RecursionError] with the session torn
    down; no further command is written. *)
Theorem connect_failed_login_write (d : nat) (now : string) (s : Service)
  (k : socket) (txs : list bool) (r : string) (tl : list rx) :
  request s <> "" ->
  tx_script k = false :: txs -> next_tx (set_tx txs k) = true ->
  rx_script k = Data r :: tl -> whole_reply r ->
  _connect (S (S (S (S d)))) (Some k) now s =
  (Raise RecursionError,
   set_errors (errors s ++ [Exc OSError])
     (after [Dial true; Tx quit_cmd; Rx r; Close] None s)).
Proof.
  intros Hreq Htx Hnext Hs Hr.
  cbn [_connect]. unfold _connect_with.
  set (s0 := after [Dial true] (Some k) s).
  rewrite (bind_ok (base_connect (Some k)) _ s s0 tt eq_refl).
  set (s1 := set_errors (errors s0 ++ [Exc OSError])
               (after [Tx quit_cmd; Rx r; Close] None s0)).
  assert (Hsend : _send (S (S (S d))) (Some (login_cmd s0)) s0 = (Ret false, s1)).
  { apply (send_refused d _ s0 k txs r tl Hreq eq_refl Htx Hnext Hs Hr). }
  destruct (no_socket_raises (S (S (S d))) s1 eq_refl) as [Hdisc Hrecv].
  erewrite try_raise.
  2:{ rewrite (bind_ok self _ s0 s0 s0 eq_refl). cbv beta.
      rewrite (bind_ok _ _ _ _ _ Hsend).
      apply (bind_raise _ _ _ _ _ Hrecv). }
  rewrite (bind_raise _ _ _ _ _ Hdisc).
  unfold s1, s0. rewrite errors_after, after_after. reflexivity.
Qed.

Lemma connect_failed_login_write_witness :
  let r := "error id=0 msg=ok" +:+ eol in
  let k := Socket [false] true [Data r] Quiet in
  let s := configured "serveradmin" "secret" CNone in
  (request s <> "" /\ whole_reply r) /\
  _connect 4 (Some k) "now" s =
  (Raise RecursionError,
   set_errors (errors s ++ [Exc OSError])
     (after [Dial true; Tx quit_cmd; Rx r; Close] None s)).
Proof.
  intros r k s.
  assert (Hreq : request s <> "") by discriminate.
  assert (Hr : whole_reply r) by reply_ok.
  split; [hyps|].
  apply (connect_failed_login_write 0 "now" s k [] r [] Hreq
           eq_refl eq_refl eq_refl Hr).
Defined.

(** X22. On a peer that accepts every write and never answers, [_receive]
    does not return: each time-out sends quit and waits again, one call
    inside the other, until [RecursionError], whatever the depth bound; the
    session is not torn down. *)
Theorem receive_never_answered (depth : nat) (s : Service) :
  _sock s = Some (Socket [] true [] Quiet) -> request s <> "" ->
  exists s',
    _receive depth s = (Raise RecursionError, s') /\
    _sock s' = Some (Socket [] true [] Quiet).
Proof.
  intros Hk Hreq. apply (receive_silent_peer depth s Hk Hreq).
Qed.

Lemma receive_never_answered_witness :
  let s := set_sock (Some (Socket [] true [] Quiet)) (init_service ∅) in
  request s <> "" /\
  exists s',
    _receive 200 s = (Raise RecursionError, s') /\
    _sock s' = Some (Socket [] true [] Quiet).
Proof.
  intros s.
  assert (Hreq : request s <> "") by discriminate.
  split; [exact Hreq|].
  apply (receive_never_answered 200 s eq_refl Hreq).
Defined.

(** X23. All or nothing: from any reply text [_get_data] returns either no
    record or a record that gives a value to every line of every chart in
    [CHARTS] and to nothing else. *)
Theorem get_data_record_matches_charts (_get_raw_data : M (option string))
  (s s' : Service) (raw : string) (data : gmap string mval) :
  _get_raw_data s = (Ret (Some raw), s') ->
  fst (_get_data _get_raw_data s) = Ret (Some data) ->
  Forall (fun k => is_Some (data !! k)) chart_lines /\
  size data = length chart_lines.
Proof.
  intros Hraw Hdata.
  destruct (get_data_cases _get_raw_data s s' raw Hraw)
    as [(t & q & p & bs & br & fs & fr & ls & lk & lc & lt & _ & _ & _ & _ & _ & _ & Hrec)
       | [_ [e He]]].
  - rewrite Hrec in Hdata. cbn [fst] in Hdata.
    injection Hdata as <-. split.
    + repeat constructor; eexists; reflexivity.
    + reflexivity.
  - rewrite He in Hdata. discriminate Hdata.
Qed.

Lemma scenario_has_record :
  exists data,
    fst (_get_data (ret (Some scenario_line)) (init_service ∅)) = Ret (Some data).
Proof.
  destruct (get_data_cases (ret (Some scenario_line)) (init_service ∅)
              (init_service ∅) scenario_line eq_refl)
    as [(t & q & p & bs & br & fs & fr & ls & lk & lc & lt & _ & _ & _ & _ & _ & _ & Hrec)
       | [Hbad _]].
  - eexists. rewrite Hrec. reflexivity.
  - destruct (Hbad valid_status_scenario).
Defined.

Lemma get_data_record_matches_charts_witness :
  let grd : M (option string) := ret (Some scenario_line) in
  let s := init_service ∅ in
  grd s = (Ret (Some scenario_line), s) /\
  exists data,
    fst (_get_data grd s) = Ret (Some data) /\
    Forall (fun k => is_Some (data !! k)) chart_lines /\
    size data = 12%nat.
Proof.
  intros grd s. split; [reflexivity|].
  destruct scenario_has_record as [data Hdata].
  exists data. split; [exact Hdata|].
  apply (get_data_record_matches_charts grd s s scenario_line data eq_refl Hdata).
Defined.

(** * The connect sequence and its failures *)

Lemma receive_raises (d : nat) (s : Service) (k : socket) (f : rx) (e : exn)
  (evs : list event) (tl : list rx) :
  _sock s = Some k -> rx_script k = f :: tl ->
  failing_read f = Some (e, evs) ->
  _receive (S d) s = (Raise e, after evs (Some (set_rx tl k)) s).
Proof.
  intros Hk Hs Hf.
  destruct (receive_partial d s k [] f tl Hk Hs ltac:(constructor) eq_refl)
    as [fuel ->].
  cbn [receive_loop map concat_str].
  set (s1 := after [] (Some (set_rx (f :: tl) k)) s).
  destruct f as [b| | |]; cbn [failing_read] in Hf; try discriminate.
  - destruct (0 <? String.length b)%nat eqn:Hpos; [|discriminate].
    destruct (String.length b <=? 4096)%nat eqn:Hlen; [|discriminate].
    destruct (utf8_ok b) eqn:Hbad; [discriminate|].
    cbn [andb negb] in Hf. injection Hf as <- <-.
    apply Nat.leb_le in Hlen. apply Nat.ltb_lt in Hpos.
    rewrite (bind_ok _ _ s1 s1 (Some true)).
    2:{ apply try_ok. unfold bind, select_readable. reflexivity. }
    rewrite (bind_ok _ _ _ _ _
               (recv_whole s1 (set_rx (Data b :: tl) k) b tl eq_refl eq_refl Hlen)).
    destruct (Nat.eqb_spec (String.length b) 0) as [H0|_]; [lia|].
    unfold lift, decode_utf8. rewrite Hbad. unfold bind.
    unfold s1. rewrite after_after. reflexivity.
  - injection Hf as <- <-.
    rewrite (bind_ok _ _ s1 s1 (Some true)).
    2:{ apply try_ok. unfold bind, select_readable. reflexivity. }
    apply bind_raise. unfold s1. reflexivity.
Qed.

Lemma connect_cmds_channel (s : Service) (now clid cmd : string) (n : nat) :
  connect_cmds s now clid !! n = Some cmd -> (3 <= n)%nat ->
  truthy (channel_id s) = true.
Proof.
  unfold connect_cmds. destruct (truthy (channel_id s)); [reflexivity|].
  intros H Hn. apply lookup_lt_Some in H. simpl in H. lia.
Qed.

(** Enter [_connect]: the base class has dialled. *)
Ltac dialled :=
  cbn [_connect];
  lazymatch goal with
  | |- _connect_with _ _ _ (Some ?k0) _ ?s0 = _ =>
      unfold _connect_with;
      rewrite (bind_ok _ _ s0 (after [Dial true] (Some k0) s0) tt eq_refl)
  end.

(** The body of [_connect] from its start through the statements that go
    through. *)
Ltac statements Hreq :=
  rewrite (bind_ok self _ _ _ _ eq_refl); cbv beta;
  rewrite ?login_cmd_after, ?use_cmd_after, ?clientupdate_cmd_after,
    ?channel_id_after;
  repeat exchange Hreq.

Lemma receive_timeout (d : nat) (s : Service) (k : socket) (r : string)
  (tl : list rx) :
  _sock s = Some k -> rx_script k = Silent :: Data r :: tl ->
  next_tx k = true -> request s <> "" -> whole_reply r ->
  _receive (S (S (S d))) s =
  (Ret "",
   set_errors (errors s ++ [Msg "Socket timed out."])
     (after [Tx quit_cmd; Rx r; Close] None s)).
Proof.
  intros Hk Hs Htx Hreq Hr.
  cbn [_receive]. unfold _receive_with, rx_budget. rewrite Hk.
  apply (receive_loop_timeout d _ "" s k r tl Hk Hs Htx Hreq Hr).
Qed.

Lemma send_without_socket (d : nat) (req : option string) (s : Service) :
  _sock s = None -> request s <> "" ->
  _send d req s = (Raise RecursionError, s).
Proof.
  intros Hnone Hreq. destruct d as [|d]; [reflexivity|].
  cbn [_send]. unfold _send_with.
  rewrite (bind_ok self _ s s s eq_refl). cbv beta.
  rewrite (request_wanted_nonempty s Hreq).
  assert (Hw : (let* _ := sock_send (request_or req (request s)) in ret true) s =
               (Raise AttributeError, s)).
  { unfold bind, sock_send. now rewrite Hnone. }
  rewrite (try_raise _ _ _ _ _ Hw).
  apply bind_raise. apply no_socket_raises. exact Hnone.
Qed.

Section ConnectFailures.

Variables (d : nat) (s : Service) (rxr : rx_end) (now : string).
Variables (r1 r2 r3 r4 r5 : string) (tl : list rx).
Hypothesis Hreq : request s <> "".
Hypothesis H1 : whole_reply r1.
Hypothesis H2 : whole_reply r2.
Hypothesis H3 : whole_reply r3.
Hypothesis H4 : whole_reply r4.
Hypothesis H5 : whole_reply r5.

Lemma quit_answered (s1 : Service) (k1 : socket) :
  _sock s1 = Some k1 -> rx_script k1 = Data r5 :: tl ->
  next_tx k1 = true -> request s1 = request s ->
  _disconnect (S (S d)) s1 =
  (Ret tt, after [Tx quit_cmd; Rx r5; Close] None s1).
Proof.
  intros Hk1 Hs1 Htx Hr. apply (disconnect_answered d s1 k1 r5 tl); auto.
  now rewrite Hr.
Qed.

Lemma connect_read_raises (n : nat) (f : rx) (e : exn) (evs : list event)
  (clid cmd : string) :
  failing_read f = Some (e, evs) ->
  connect_cmds s now clid !! n = Some cmd ->
  (n = 4%nat -> exists more, findall_client_id 0 r4 = clid :: more) ->
  _connect (S (S (S d)))
    (Some (Socket [] true
             (map Data (take n [r1; r2; r3; r4]) ++ f :: Data r5 :: tl)%list rxr))
    now s =
  (Ret tt,
   set_errors (errors s ++ [Exc e])
     (after (Dial true :: exchanges (connect_cmds s now clid)
                            (take n [r1; r2; r3; r4]) ++
             Tx cmd :: evs ++ [Tx quit_cmd; Rx r5; Close])%list
        None s)).
Proof.
  intros Hf Hcmd Hid.
  assert (Hch : (3 <= n)%nat -> truthy (channel_id s) = true)
    by apply (connect_cmds_channel s now clid cmd n Hcmd).
  destruct n as [|[|[|[|[|n]]]]]; cbn [take map app].
  - injection Hcmd as <-. dialled.
    erewrite try_raise.
    2:{ statements Hreq.
        apply bind_raise.
        eapply receive_raises; [reflexivity | reflexivity | exact Hf]. }
    tidy.
    erewrite bind_ok; [| eapply quit_answered; reflexivity].
    tidy. unfold error. rewrite errors_after. reflexivity.
  - injection Hcmd as <-. dialled.
    erewrite try_raise.
    2:{ statements Hreq.
        apply bind_raise.
        eapply receive_raises; [reflexivity | reflexivity | exact Hf]. }
    tidy.
    erewrite bind_ok; [| eapply quit_answered; reflexivity].
    tidy. unfold error. rewrite errors_after. reflexivity.
  - injection Hcmd as <-. dialled.
    erewrite try_raise.
    2:{ statements Hreq.
        apply bind_raise.
        eapply receive_raises; [reflexivity | reflexivity | exact Hf]. }
    tidy.
    erewrite bind_ok; [| eapply quit_answered; reflexivity].
    tidy. unfold error. rewrite errors_after. reflexivity.
  - specialize (Hch ltac:(lia)).
    unfold connect_cmds in Hcmd |- *. rewrite Hch in Hcmd |- *.
    injection Hcmd as <-. dialled.
    erewrite try_raise.
    2:{ statements Hreq. rewrite Hch.
        repeat exchange Hreq.
        apply bind_raise.
        eapply receive_raises; [reflexivity | reflexivity | exact Hf]. }
    tidy.
    erewrite bind_ok; [| eapply quit_answered; reflexivity].
    tidy. unfold error. rewrite errors_after. reflexivity.
  - specialize (Hch ltac:(lia)). destruct (Hid eq_refl) as [more Hclid].
    unfold connect_cmds in Hcmd |- *. rewrite Hch in Hcmd |- *.
    injection Hcmd as <-. dialled.
    erewrite try_raise.
    2:{ statements Hreq. rewrite Hch.
        repeat exchange Hreq.
        unfold lift at 1, bind at 1. rewrite Hclid. cbn [index0].
        rewrite clientmove_cmd_after.
        repeat exchange Hreq.
        apply bind_raise.
        eapply receive_raises; [reflexivity | reflexivity | exact Hf]. }
    tidy.
    erewrite bind_ok; [| eapply quit_answered; reflexivity].
    tidy. unfold error. rewrite errors_after. reflexivity.
  - apply lookup_lt_Some in Hcmd. unfold connect_cmds in Hcmd.
    destruct (truthy (channel_id s)); simpl in Hcmd; lia.
Qed.

Lemma connect_write_refused (n : nat) (clid cmd : string) :
  connect_cmds s now clid !! n = Some cmd ->
  (n = 4%nat -> exists more, findall_client_id 0 r4 = clid :: more) ->
  _connect (S (S (S (S d))))
    (Some (Socket (replicate n true ++ [false]) true
             (map Data (take n [r1; r2; r3; r4]) ++ Data r5 :: tl)%list rxr))
    now s =
  (Raise RecursionError,
   set_errors (errors s ++ [Exc OSError])
     (after (Dial true :: exchanges (connect_cmds s now clid)
                            (take n [r1; r2; r3; r4]) ++
             [Tx quit_cmd; Rx r5; Close])%list
        None s)).
Proof.
  intros Hcmd Hid.
  assert (Hch : (3 <= n)%nat -> truthy (channel_id s) = true)
    by apply (connect_cmds_channel s now clid cmd n Hcmd).
  assert (Hrefused : forall (req : option string) (s1 : Service) (k1 : socket)
                            (txs : list bool),
            _sock s1 = Some k1 -> tx_script k1 = false :: txs ->
            next_tx (set_tx txs k1) = true -> rx_script k1 = Data r5 :: tl ->
            request s1 = request s ->
            _send (S (S (S d))) req s1 =
            (Ret false,
             set_errors (errors s1 ++ [Exc OSError])
               (after [Tx quit_cmd; Rx r5; Close] None s1))).
  { intros req s1 k1 txs Hk1 Htx Hnext Hs1 Hr.
    apply (send_refused d req s1 k1 txs r5 tl); auto. now rewrite Hr. }
  destruct n as [|[|[|[|[|n]]]]]; cbn [take map app replicate].
  5:{ destruct (Hid eq_refl) as [more Hclid]. specialize (Hch ltac:(lia)).
      unfold connect_cmds in Hcmd |- *. rewrite Hch in Hcmd |- *.
      dialled.
      erewrite try_raise.
      2:{ statements Hreq. rewrite Hch. repeat exchange Hreq.
          unfold lift at 1, bind at 1. rewrite Hclid. cbn [index0].
          rewrite clientmove_cmd_after.
          erewrite bind_ok; [| eapply Hrefused; reflexivity].
          apply bind_raise. apply no_socket_raises. reflexivity. }
      erewrite bind_raise; [| apply no_socket_raises; reflexivity].
      rewrite errors_after, after_after. reflexivity. }
  4:{ specialize (Hch ltac:(lia)).
      unfold connect_cmds in Hcmd |- *. rewrite Hch in Hcmd |- *.
      dialled.
      erewrite try_raise.
      2:{ statements Hreq. rewrite Hch.
          erewrite bind_ok; [| eapply Hrefused; reflexivity].
          apply bind_raise. apply no_socket_raises. reflexivity. }
      erewrite bind_raise; [| apply no_socket_raises; reflexivity].
      rewrite errors_after, after_after. reflexivity. }
  4:{ apply lookup_lt_Some in Hcmd. unfold connect_cmds in Hcmd.
      destruct (truthy (channel_id s)); simpl in Hcmd; lia. }
  all: dialled;
    (erewrite try_raise;
     [| statements Hreq;
        erewrite bind_ok; [| eapply Hrefused; reflexivity];
        apply bind_raise; apply no_socket_raises; reflexivity ]);
    (erewrite bind_raise; [| apply no_socket_raises; reflexivity]);
    rewrite errors_after, after_after; reflexivity.
Qed.

Lemma connect_timeout (n : nat) (clid cmd : string) :
  connect_cmds s now clid !! n = Some cmd ->
  (n = 4%nat -> exists more, findall_client_id 0 r4 = clid :: more) ->
  _connect (S (S (S (S d))))
    (Some (Socket [] true
             (map Data (take n [r1; r2; r3; r4]) ++ Silent :: Data r5 :: tl)%list
             rxr))
    now s =
  (if (S n =? length (connect_cmds s now clid))%nat
   then Ret tt else Raise RecursionError,
   set_errors (errors s ++ [Msg "Socket timed out."])
     (after (Dial true :: exchanges (connect_cmds s now clid)
                            (take n [r1; r2; r3; r4]) ++
             [Tx cmd; Tx quit_cmd; Rx r5; Close])%list
        None s)).
Proof.
  intros Hcmd Hid.
  assert (Hch : (3 <= n)%nat -> truthy (channel_id s) = true)
    by apply (connect_cmds_channel s now clid cmd n Hcmd).
  assert (Hsilent : forall (s1 : Service) (k1 : socket),
            _sock s1 = Some k1 -> rx_script k1 = Silent :: Data r5 :: tl ->
            next_tx k1 = true -> request s1 = request s ->
            _receive (S (S (S d))) s1 =
            (Ret "",
             set_errors (errors s1 ++ [Msg "Socket timed out."])
               (after [Tx quit_cmd; Rx r5; Close] None s1))).
  { intros s1 k1 Hk1 Hs1 Htx Hr.
    apply (receive_timeout d s1 k1 r5 tl); auto. now rewrite Hr. }
  assert (Hdead : forall (req : option string) (s1 : Service),
            _sock s1 = None -> request s1 = request s ->
            _send (S (S (S d))) req s1 = (Raise RecursionError, s1)).
  { intros req s1 Hnone Hr. apply send_without_socket; [exact Hnone|].
    now rewrite Hr. }
  destruct n as [|[|[|[|[|n]]]]]; cbn [take map app].
  - injection Hcmd as <-. dialled.
    erewrite try_raise.
    2:{ statements Hreq.
        erewrite bind_ok; [| eapply Hsilent; reflexivity].
        apply bind_raise. apply Hdead; reflexivity. }
    erewrite bind_raise; [| apply no_socket_raises; reflexivity].
    unfold connect_cmds.
    destruct (truthy (channel_id s)); cbn [app length Nat.eqb];
      rewrite errors_after, after_after; reflexivity.
  - injection Hcmd as <-. dialled.
    erewrite try_raise.
    2:{ statements Hreq.
        erewrite bind_ok; [| eapply Hsilent; reflexivity].
        apply bind_raise. apply Hdead; reflexivity. }
    erewrite bind_raise; [| apply no_socket_raises; reflexivity].
    unfold connect_cmds.
    destruct (truthy (channel_id s)); cbn [app length Nat.eqb];
      rewrite errors_after, after_after; reflexivity.
  - injection Hcmd as <-. dialled.
    unfold connect_cmds. destruct (truthy (channel_id s)) eqn:Hc.
    + erewrite try_raise.
      2:{ statements Hreq.
          erewrite bind_ok; [| eapply Hsilent; reflexivity].
          cbn [channel_id set_errors]. rewrite Hc.
          apply bind_raise. apply Hdead; reflexivity. }
      erewrite bind_raise; [| apply no_socket_raises; reflexivity].
      cbn [app length Nat.eqb]. rewrite errors_after, after_after. reflexivity.
    + erewrite try_ok.
      2:{ statements Hreq.
          erewrite bind_ok; [| eapply Hsilent; reflexivity].
          cbn [channel_id set_errors]. rewrite Hc. reflexivity. }
      cbn [app length Nat.eqb]. rewrite errors_after, after_after. reflexivity.
  - specialize (Hch ltac:(lia)).
    unfold connect_cmds in Hcmd |- *. rewrite Hch in Hcmd |- *.
    injection Hcmd as <-. dialled.
    erewrite try_raise.
    2:{ statements Hreq. rewrite Hch. repeat exchange Hreq.
        erewrite bind_ok; [| eapply Hsilent; reflexivity].
        apply bind_raise. reflexivity. }
    erewrite bind_raise; [| apply no_socket_raises; reflexivity].
    cbn [app length Nat.eqb]. rewrite errors_after, after_after. reflexivity.
  - specialize (Hch ltac:(lia)). destruct (Hid eq_refl) as [more Hclid].
    unfold connect_cmds in Hcmd |- *. rewrite Hch in Hcmd |- *.
    injection Hcmd as <-. dialled.
    erewrite try_ok.
    2:{ statements Hreq. rewrite Hch. repeat exchange Hreq.
        unfold lift at 1, bind at 1. rewrite Hclid. cbn [index0].
        rewrite clientmove_cmd_after. repeat exchange Hreq.
        erewrite bind_ok; [| eapply Hsilent; reflexivity].
        reflexivity. }
    cbn [app length Nat.eqb]. rewrite errors_after, after_after. reflexivity.
  - apply lookup_lt_Some in Hcmd. unfold connect_cmds in Hcmd.
    destruct (truthy (channel_id s)); simpl in Hcmd; lia.
Qed.

End ConnectFailures.

(** C3, amended: on a socket that accepts the writes and answers each
    command with one whole reply, [_connect] issues, in this order and each
    followed by one receive, login, server selection and the nickname update
    with the time stamp; only when a channel id is configured it goes on
    with whoami, takes the first match of [client_id=] followed by decimal
    digits (none included) in the reply, and issues clientmove with it.
    A step that raises ends the sequence. When the extraction finds no
    [client_id=], or when the read of a step raises or hands over bytes that
    do not decode, no further command is issued: quit is sent, its reply
    read, the socket closed and forgotten, and the error recorded. A write
    that raises is answered by that teardown inside [_send], a wait that
    runs out by that teardown inside [_receive]; no further command is
    issued either, and [_connect] then ends in [RecursionError], except
    after a time-out in the last step. *)
Theorem C3_connect_sequence (d : nat) (s : Service) (rxr : rx_end)
  (now r1 r2 r3 r4 r5 : string) (tl : list rx) :
  request s <> "" ->
  whole_reply r1 -> whole_reply r2 -> whole_reply r3 ->
  whole_reply r4 -> whole_reply r5 ->
  let k :=
    Socket [] true (Data r1 :: Data r2 :: Data r3 :: Data r4 :: Data r5 :: tl)
           rxr in
  let run := _connect (S (S (S d))) (Some k) now s in
  (truthy (channel_id s) = false ->
   run = (Ret tt,
          after (greeting s now r1 r2 r3)
            (Some (Socket [] true (Data r4 :: Data r5 :: tl) rxr)) s)) /\
  (truthy (channel_id s) = true ->
   forall clid more, findall_client_id 0 r4 = clid :: more ->
   run = (Ret tt,
          after (greeting s now r1 r2 r3 ++
                 [Tx whoami_cmd; Rx r4; Tx (clientmove_cmd s clid); Rx r5])
            (Some (Socket [] true tl rxr)) s)) /\
  (truthy (channel_id s) = true ->
   findall_client_id 0 r4 = [] ->
   run = (Ret tt,
          set_errors (errors s ++ [Exc IndexError])
            (after (greeting s now r1 r2 r3 ++
                    [Tx whoami_cmd; Rx r4; Tx quit_cmd; Rx r5; Close])
               None s))) /\
  (forall (n : nat) (clid cmd : string),
     connect_cmds s now clid !! n = Some cmd ->
     (n = 4%nat -> exists more, findall_client_id 0 r4 = clid :: more) ->
     let replies := take n [r1; r2; r3; r4] in
     let sent := (Dial true :: exchanges (connect_cmds s now clid) replies)%list in
     (forall (f : rx) (e : exn) (evs : list event),
        failing_read f = Some (e, evs) ->
        _connect (S (S (S d)))
          (Some (Socket [] true (map Data replies ++ f :: Data r5 :: tl)%list rxr))
          now s =
        (Ret tt,
         set_errors (errors s ++ [Exc e])
           (after (sent ++ Tx cmd :: evs ++ [Tx quit_cmd; Rx r5; Close])%list
              None s))) /\
     _connect (S (S (S (S d))))
       (Some (Socket (replicate n true ++ [false]) true
                (map Data replies ++ Data r5 :: tl)%list rxr))
       now s =
     (Raise RecursionError,
      set_errors (errors s ++ [Exc OSError])
        (after (sent ++ [Tx quit_cmd; Rx r5; Close])%list None s)) /\
     _connect (S (S (S (S d))))
       (Some (Socket [] true
                (map Data replies ++ Silent :: Data r5 :: tl)%list rxr))
       now s =
     (if (S n =? length (connect_cmds s now clid))%nat
      then Ret tt else Raise RecursionError,
      set_errors (errors s ++ [Msg "Socket timed out."])
        (after (sent ++ [Tx cmd; Tx quit_cmd; Rx r5; Close])%list None s))).
Proof.
  intros Hreq H1 H2 H3 H4 H5 k run. split; [|split; [|split]].
  - intros Hch. apply connect_without_channel; assumption.
  - intros Hch clid more Hid.
    apply (connect_with_channel d s rxr now r1 r2 r3 r4 r5 tl Hreq
             H1 H2 H3 H4 H5 clid more Hch Hid).
  - intros Hch Hid. apply connect_without_client_id; assumption.
  - intros n clid cmd Hcmd Hid replies sent. split; [|split].
    + intros f e evs Hf.
      apply (connect_read_raises d s rxr now r1 r2 r3 r4 r5 tl Hreq
               H1 H2 H3 H4 H5 n f e evs clid cmd Hf Hcmd Hid).
    + apply (connect_write_refused d s rxr now r1 r2 r3 r4 r5 tl Hreq
               H1 H2 H3 H4 H5 n clid cmd Hcmd Hid).
    + apply (connect_timeout d s rxr now r1 r2 r3 r4 r5 tl Hreq
               H1 H2 H3 H4 H5 n clid cmd Hcmd Hid).
Qed.

Lemma C3_connect_sequence_witness :
  let ok := "error id=0 msg=ok" +:+ eol in
  let me := "virtualserver_id=1 client_id=12 client_channel_id=1" +:+ eol +:+ ok in
  let s := configured "serveradmin" "secret" (CInt 5) in
  (request s <> "" /\ whole_reply ok /\ whole_reply me /\
   truthy (channel_id s) = true /\ findall_client_id 0 me = ["12"]) /\
  _connect 3 (Some (Socket [] true [Data ok; Data ok; Data ok; Data me; Data ok] Quiet))
    "2020-04-03_12:00:00" s =
  (Ret tt,
   after [Dial true;
          Tx ("login serveradmin secret" +:+ nl); Rx ok;
          Tx ("use sid=1" +:+ nl); Rx ok;
          Tx ("clientupdate client_nickname=netdata_2020-04-03_12:00:00" +:+ nl);
          Rx ok;
          Tx ("whoami" +:+ nl); Rx me;
          Tx ("clientmove clid=12 cid=5" +:+ nl); Rx ok]
     (Some (Socket [] true [] Quiet)) s).
Proof.
  intros ok me s.
  assert (Hreq : request s <> "") by discriminate.
  assert (Hok : whole_reply ok) by (apply whole_replyb_spec; vm_compute; reflexivity).
  assert (Hme : whole_reply me) by (apply whole_replyb_spec; vm_compute; reflexivity).
  split;
    [split; [exact Hreq | split; [exact Hok | split; [exact Hme | split; reflexivity]]]|].
  destruct (C3_connect_sequence 0 s Quiet "2020-04-03_12:00:00" ok ok ok me ok []
              Hreq Hok Hok Hok Hme Hok) as (_ & Hmove & _).
  apply (Hmove eq_refl "12" [] eq_refl).
Defined.

(** C3 as stated fails: the peer closes right after the connection is
    opened, so the receive of the login step ends on zero bytes without a
    reply; [_connect] still issues the two remaining commands, does not tear
    the transport down and leaves the socket in place. *)
Lemma C3_counterexample :
  let k := Socket [] true [] Hangup in
  let s := configured "serveradmin" "secret" CNone in
  _connect 3 (Some k) "2020-04-03_12:00:00" s =
  (Ret tt,
   after [Dial true;
          Tx ("login serveradmin secret" +:+ nl); Rx "";
          Tx ("use sid=1" +:+ nl); Rx "";
          Tx ("clientupdate client_nickname=netdata_2020-04-03_12:00:00" +:+ nl);
          Rx ""]
     (Some k) s).
Proof. vm_compute. reflexivity. Qed.

(** A read that does not decode in the second step: the greeting stops
    there and the session is torn down. *)
Example connect_undecodable_reply :
  let ok := "error id=0 msg=ok" +:+ eol in
  let bad := String "255" ("msg=ok" +:+ eol) in
  let s := configured "serveradmin" "secret" CNone in
  _connect 3 (Some (Socket [] true [Data ok; Data bad; Data ok] Quiet)) "now" s =
  (Ret tt,
   set_errors [Exc UnicodeDecodeError]
     (after [Dial true; Tx ("login serveradmin secret" +:+ nl); Rx ok;
             Tx ("use sid=1" +:+ nl); Rx bad; Tx quit_cmd; Rx ok; Close]
        None s)).
Proof. vm_compute. reflexivity. Qed.

(** The writes of text refused, as a socket that takes bytes only does, and
    the write of quit, which is bytes, accepted. *)
Example connect_text_refused :
  let ok := "error id=0 msg=ok" +:+ eol in
  let s := configured "serveradmin" "secret" (CInt 5) in
  _connect 50 (Some (Socket [false] true [Data ok] Quiet)) "now" s =
  (Raise RecursionError,
   set_errors [Exc OSError] (after [Dial true; Tx quit_cmd; Rx ok; Close] None s)).
Proof. vm_compute. reflexivity. Qed.

(** The client id in digits of another script: the pattern takes them. *)
Example connect_fullwidth_client_id :
  let one := String "239" (String "188" (String "145" "")) in
  let two := String "239" (String "188" (String "146" "")) in
  findall_client_id 0 ("client_id=" +:+ one +:+ two +:+ " client_id=7x") =
  [one +:+ two; "7"].
Proof. vm_compute. reflexivity. Qed.

(** ** Numbers and digits beyond ASCII *)

(** [int] and [float] read decimal digits of any script and skip white
    space from beyond ASCII, but not the separators 28 to 31; [int] reads at
    most 4300 digits. *)
Example int_of_text :
  let four := String "239" (String "188" (String "148" "")) in
  let two := String "239" (String "188" (String "146" "")) in
  py_int (four +:+ two) = Ret 42 /\
  py_int (String "028" "42") = Raise ValueError /\
  py_int (String "194" (String "160" " 4_2 ")) = Ret 42 /\
  py_float ("0." +:+ four +:+ two) = py_float "0.42" /\
  py_float (String "031" "1.5") = Raise ValueError /\
  py_int (repeat_str 4300 "1") <> Raise ValueError /\
  py_int (repeat_str 4301 "1") = Raise ValueError.
Proof. vm_compute. repeat split; discriminate. Qed.

(** A status line whose client count is written in full-width digits is
    valid and yields a record with that count; a count padded with the
    separator 28 is a bad field and yields none. *)
Example get_data_beyond_ascii :
  let four := String "239" (String "188" (String "148" "")) in
  let two := String "239" (String "188" (String "146" "")) in
  let wide :=
    "virtualserver_clientsonline=" +:+ four +:+ two +:+ drop_str 30 scenario_line in
  let padded :=
    "virtualserver_clientsonline=" +:+ String "028" (drop_str 28 scenario_line) in
  let s := init_service ∅ in
  valid_status (status_fields wide) /\
  field_int (status_fields wide) "virtualserver_clientsonline" = Ret 42 /\
  match fst (_get_data (ret (Some wide)) s) with
  | Ret (Some data) => data !! "connected_users"
  | _ => None
  end = Some (MInt 40) /\
  bad_field (status_fields padded) "virtualserver_clientsonline" /\
  fst (_get_data (ret (Some padded)) s) = Ret None /\
  errors (snd (_get_data (ret (Some padded)) s)) = [Exc ValueError].
Proof.
  intros four two wide padded s.
  split; [split; repeat constructor; eexists; vm_compute; reflexivity|].
  split; [vm_compute; reflexivity|].
  split; [vm_compute; reflexivity|].
  split; [|split; vm_compute; reflexivity].
  left. split; [apply list_elem_of_here|].
  right. exists (String "028" "42"). split; vm_compute; reflexivity.
Qed.

(** The [UnicodeDecodeError] that [_receive] raises is a [ValueError]:
    [_get_data] catches it when it comes out of [_get_raw_data]. *)
Example get_data_undecodable_transport :
  let s := init_service ∅ in
  _get_data (raise UnicodeDecodeError) s =
  (Ret None, set_errors [Msg "No data received."] s).
Proof. reflexivity. Qed.
